(** * renderer-kustomize: overlay filesystem, render orchestration, cache keys

    A shallow embedding of the Go packages

      - [pkg/fs/adapter]  (adapter.go)     the afero-backed [filesys.FileSystem]
      - [pkg/util/fs]     (fs.go)          constructors and [readOnlyWrapper]
      - [pkg/fs/union]    (union.go)       [NewFs] and its functional options
      - [pkg/util/io]     (io.go)          [SuppressStderr]
      - [pkg]             (kustomize_engine.go, kustomize_warnings.go,
                           kustomize_cache.go)  [Engine.Run], the warning
                                                handlers and the cache keys

    Go state (the heap of in-memory filesystems, the disk, the table of
    [*os.File] objects, the global [os.Stderr]) is threaded explicitly
    through a [World]; a Go function returning [(T, error)] becomes an
    action [M T] whose outcome is a value, an error or a panic. *)

From Stdlib Require Import Strings.String Strings.Ascii Strings.Byte.
From Stdlib Require Import OrdersEx.
From stdpp Require Import base gmap list strings sorting.

Open Scope string_scope.

(** ** Go errors *)

(** Error values.  Sentinels created with [errors.New] are compared by
    their message; [Errorf] is [fmt.Errorf] with exactly one [%w] verb: the
    format string and the other arguments are kept unformatted. *)
Inductive error : Type :=
  | ErrNotExist                                   (* fs.ErrNotExist *)
  | ErrExist                                      (* fs.ErrExist *)
  | ErrPermission                                 (* fs.ErrPermission *)
  | ErrClosed                                     (* fs.ErrClosed *)
  | Errno (n : Z)                                 (* syscall.Errno *)
  | ErrorString (msg : string)                    (* errors.New(msg) *)
  | PathError (op path : string) (err : error)    (* *fs.PathError *)
  | SyscallError (call : string) (err : error)    (* *os.SyscallError *)
  | Errorf (format : string) (args : list string) (err : error).

Global Instance error_eq_dec : EqDecision error.
Proof. solve_decision. Defined.

Definition EPERM : Z := 1.
Definition ENOENT : Z := 2.
Definition EEXIST : Z := 17.
Definition ENOTDIR : Z := 20.
Definition EISDIR : Z := 21.
Definition EMFILE : Z := 24.

(** [syscall.Errno.Is]. *)
Definition errno_Is (n : Z) (target : error) : bool :=
  match target with
  | ErrNotExist => bool_decide (n = ENOENT)
  | ErrExist => bool_decide (n = EEXIST)
  | ErrPermission => bool_decide (n = EPERM)
  | _ => false
  end.

(** [errors.Is]: walk the [Unwrap] chain. *)
Fixpoint errors_Is (err target : error) : bool :=
  if decide (err = target) then true
  else match err with
       | Errno n => errno_Is n target
       | PathError _ _ e => errors_Is e target
       | SyscallError _ e => errors_Is e target
       | Errorf _ _ e => errors_Is e target
       | _ => false
       end.

(** [os.underlyingError]: only the historical wrapper types are opened, and
    only one level; an error built by [fmt.Errorf] is not. *)
Definition underlyingError (err : error) : error :=
  match err with
  | PathError _ _ e => e
  | SyscallError _ e => e
  | _ => err
  end.

(** [os.IsNotExist]. *)
Definition os_IsNotExist (err : error) : bool :=
  match underlyingError err with
  | ErrNotExist => true
  | Errno n => bool_decide (n = ENOENT)
  | _ => false
  end.

(** ** Paths *)

Definition is_sep (c : ascii) : bool := Ascii.eqb c "/"%char.

(** Split a path at its last separator. *)
Fixpoint split_last_sep (s : string) : option (string * string) :=
  match s with
  | EmptyString => None
  | String c rest =>
      match split_last_sep rest with
      | Some (d, b) => Some (String c d, b)
      | None => if is_sep c then Some (EmptyString, rest) else None
      end
  end.

(** [filepath.Dir] and [filepath.Base] on cleaned paths (no trailing or
    doubled separator), which is what [filepath.Abs] hands to them. *)
Definition filepath_Dir (p : string) : string :=
  match split_last_sep p with
  | Some (EmptyString, _) => "/"
  | Some (d, _) => d
  | None => "."
  end.

Definition filepath_Base (p : string) : string :=
  match split_last_sep p with
  | Some (_, EmptyString) => "/"
  | Some (_, b) => b
  | None => if decide (p = "") then "." else p
  end.

(** [filepath.Join] of a cleaned directory and a plain file name. *)
Definition filepath_Join (dir name : string) : string :=
  if decide (dir = "/") then "/" ++ name else dir ++ "/" ++ name.

(** The chain of parent directories of a path, nearest first. *)
Fixpoint parent_dirs (fuel : nat) (p : string) : list string :=
  match fuel with
  | O => []
  | S n =>
      let d := filepath_Dir p in
      if decide (d = p) then [] else d :: parent_dirs n d
  end.

(** ** Data model *)

(** An entry of an in-memory file tree. *)
Inductive node : Type :=
  | RegFile (data : list byte)
  | DirNode.

Global Instance byte_eq_decision : EqDecision byte := Byte.byte_eq_dec.

Global Instance node_eq_dec : EqDecision node.
Proof. solve_decision. Defined.

Definition node_is_dir (n : node) : bool :=
  match n with DirNode => true | RegFile _ => false end.

(** The content of one storage backend: cleaned path to entry. *)
Abbreviation MemMapData := (gmap string node).

(** [os.FileInfo], the two fields the code reads. *)
Record FileInfo : Type := mkFileInfo { fi_Name : string; fi_IsDir : bool }.

(** Implementations of [afero.Fs].  A [MemMapFs] is a pointer: two values
    with the same address are the same filesystem. *)
Inductive Fs : Type :=
  | MemMapFs (addr : nat)
  | OsFs
  | ReadOnlyFs (source : Fs)
  | CopyOnWriteFs (base layer : Fs).

Global Instance Fs_eq_dec : EqDecision Fs.
Proof. solve_decision. Defined.

(** Where bytes live: one in-memory filesystem, or the disk. *)
Inductive cell : Type :=
  | CellMem (addr : nat)
  | CellDisk.

Global Instance cell_eq_dec : EqDecision cell.
Proof. solve_decision. Defined.

(** An open [afero.File]. *)
Inductive File : Type :=
  | MemFile (c : cell) (name : string) (writable : bool)
  | UnionFile (Base Layer : File).

(** Implementations of kyaml's [filesys.FileSystem]: this repository's
    [*adapter.Adapter] and [*readOnlyWrapper], and implementations from
    elsewhere (kyaml's own [MakeFsOnDisk], a caller's type), known by an
    identifier. *)
Inductive FileSystem : Type :=
  | Adapter (fs : Fs)
  | readOnlyWrapper (base : FileSystem)
  | Foreign (id : nat).

Global Instance FileSystem_eq_dec : EqDecision FileSystem.
Proof. solve_decision. Defined.

(** [kustomizetypes.LoadRestrictions]. *)
Inductive LoadRestrictions : Type :=
  | LoadRestrictionsUnknown
  | LoadRestrictionsRootOnly
  | LoadRestrictionsNone.

Global Instance LoadRestrictions_eq_dec : EqDecision LoadRestrictions.
Proof. solve_decision. Defined.

(** An [*os.File]: whether it is closed, and what was written to it. *)
Record OsFile : Type := mkOsFile { of_closed : bool; of_written : list byte }.

(** One call of the external builder [krusty.Kustomizer.Run]. *)
Record BuildCall : Type := mkBuildCall {
  bc_restrictions : LoadRestrictions;
  bc_fs : FileSystem;
  bc_path : string
}.

(** Everything a render can read or change. *)
Record World : Type := mkWorld {
  heap : gmap nat MemMapData;   (* the [*afero.MemMapFs] objects, by address *)
  disk : MemMapData;            (* the tree behind [afero.OsFs] *)
  files : gmap nat OsFile;      (* the [*os.File] objects, by address *)
  Stderr : nat;                 (* the variable [os.Stderr] *)
  nofile : nat;                 (* how many files may be open at once *)
  builds : list BuildCall       (* the calls made to the external builder *)
}.

Definition set_heap (h : gmap nat MemMapData) (w : World) : World :=
  mkWorld h (disk w) (files w) (Stderr w) (nofile w) (builds w).
Definition set_disk (d : MemMapData) (w : World) : World :=
  mkWorld (heap w) d (files w) (Stderr w) (nofile w) (builds w).
Definition set_files (f : gmap nat OsFile) (w : World) : World :=
  mkWorld (heap w) (disk w) f (Stderr w) (nofile w) (builds w).
Definition set_Stderr (f : nat) (w : World) : World :=
  mkWorld (heap w) (disk w) (files w) f (nofile w) (builds w).
Definition set_builds (b : list BuildCall) (w : World) : World :=
  mkWorld (heap w) (disk w) (files w) (Stderr w) (nofile w) b.

Definition cell_data (c : cell) (w : World) : MemMapData :=
  match c with
  | CellMem a => heap w !!! a
  | CellDisk => disk w
  end.

Definition set_cell (c : cell) (m : MemMapData) (w : World) : World :=
  match c with
  | CellMem a => set_heap (<[a := m]> (heap w)) w
  | CellDisk => set_disk m w
  end.

(** ** Actions *)

(** How a Go call ends: with a value, with a non-nil error, or panicking. *)
Inductive outcome (A : Type) : Type :=
  | Ok (a : A)
  | Err (e : error)
  | Panic (v : string).
Arguments Ok {A} a.
Arguments Err {A} e.
Arguments Panic {A} v.

Definition M (A : Type) : Type := World → outcome A * World.

Definition ret {A} (a : A) : M A := λ w, (Ok a, w).
Definition fail {A} (e : error) : M A := λ w, (Err e, w).
Definition bind {A B} (m : M A) (k : A → M B) : M B :=
  λ w, match m w with
       | (Ok a, w') => k a w'
       | (Err e, w') => (Err e, w')
       | (Panic v, w') => (Panic v, w')
       end.

Global Instance M_ret : MRet M := @ret.
Global Instance M_bind : MBind M := λ A B k m, bind m k.

(** A call that only reads the world. *)
Definition lift {A} (f : World → outcome A) : M A := λ w, (f w, w).

(** [if err != nil { return fmt.Errorf(..., err) }]. *)
Definition wrap {A} (f : error → error) (m : M A) : M A :=
  λ w, match m w with
       | (Err e, w') => (Err (f e), w')
       | r => r
       end.

(** Chaining of pure results. *)
Definition obind {A B} (o : outcome A) (k : A → outcome B) : outcome B :=
  match o with
  | Ok a => k a
  | Err e => Err e
  | Panic v => Panic v
  end.

(** ** afero: storage backends

    The library github.com/spf13/afero is not part of the repository.  Its
    backends are modelled here as far as the adapter uses them: the
    in-memory filesystem, the disk (a tree like the in-memory one, without
    symbolic links), the read-only wrapper and the copy-on-write
    composition. *)

Module afero.

(** Run a function of one backend's content against the world. *)
Definition on_cell {A} (c : cell)
    (f : MemMapData → outcome A * MemMapData) : M A :=
  λ w, let '(r, m') := f (cell_data c w) in (r, set_cell c m' w).

(** Modelled from the spec: [afero.MemMapFs] (third-party, not in the
    repository), the in-memory backend behind [NewMemoryFs]: a map from
    cleaned path to entry.  Creating an entry registers the missing parent
    directories. *)
Definition register_parents (m : MemMapData) (name : string) : MemMapData :=
  foldr (λ d acc, match acc !! d with
                  | Some _ => acc
                  | None => <[d := DirNode]> acc
                  end)
        m (parent_dirs (String.length name) name).

(** Modelled from the spec: [MemMapFs.Stat]; a missing name gives the
    [PathError] "open" carrying [ErrNotExist]. *)
Definition mem_Stat (m : MemMapData) (name : string) : outcome FileInfo :=
  match m !! name with
  | Some n => Ok (mkFileInfo (filepath_Base name) (node_is_dir n))
  | None => Err (PathError "open" name ErrNotExist)
  end.

(** Modelled from the spec: [MemMapFs.Open]; opening for reading gives a
    handle that refuses writes. *)
Definition mem_Open (c : cell) (m : MemMapData) (name : string)
    : outcome File :=
  match m !! name with
  | Some _ => Ok (MemFile c name false)
  | None => Err (PathError "open" name ErrNotExist)
  end.

(** Modelled from the spec: [MemMapFs.OpenFile(name,
    O_WRONLY|O_CREATE|O_TRUNC)] and [MemMapFs.Create(name)]; the file exists
    and is empty afterwards, a directory cannot be opened for writing. *)
Definition mem_OpenFile (c : cell) (name : string) (m : MemMapData)
    : outcome File * MemMapData :=
  match m !! name with
  | Some DirNode => (Err (PathError "open" name (Errno EISDIR)), m)
  | _ => (Ok (MemFile c name true),
          <[name := RegFile []]> (register_parents m name))
  end.

(** Modelled from the spec: [MemMapFs.Mkdir]. *)
Definition mem_Mkdir (name : string) (m : MemMapData)
    : outcome unit * MemMapData :=
  match m !! name with
  | Some _ => (Err (PathError "mkdir" name ErrExist), m)
  | None => (Ok tt, <[name := DirNode]> (register_parents m name))
  end.

(** Modelled from the spec: [MemMapFs.MkdirAll], which is [Mkdir] with the
    "already exists" error dropped. *)
Definition mem_MkdirAll (name : string) (m : MemMapData)
    : outcome unit * MemMapData :=
  match mem_Mkdir name m with
  | (Err (PathError _ _ ErrExist), m') => (Ok tt, m')
  | r => r
  end.

(** Modelled from the spec: [MemMapFs.RemoveAll] deletes the path and
    everything below it, and never fails. *)
Definition mem_RemoveAll (name : string) (m : MemMapData)
    : outcome unit * MemMapData :=
  (Ok tt,
   filter (λ kv : string * node,
             kv.1 ≠ name ∧ String.prefix (name ++ "/") kv.1 = false) m).

(** Modelled from the spec: writing through and reading from a handle of
    the in-memory filesystem; a write appends to the file. *)
Definition mem_Write (name : string) (data : list byte) (m : MemMapData)
    : outcome unit * MemMapData :=
  match m !! name with
  | Some (RegFile old) => (Ok tt, <[name := RegFile (old ++ data)%list]> m)
  | Some DirNode => (Err (PathError "write" name (Errno EISDIR)), m)
  | None => (Err (PathError "write" name ErrClosed), m)
  end.

Definition mem_ReadAll (name : string) (m : MemMapData)
    : outcome (list byte) :=
  match m !! name with
  | Some (RegFile d) => Ok d
  | Some DirNode => Err (PathError "read" name (Errno EISDIR))
  | None => Err (PathError "read" name ErrClosed)
  end.

(** *** File handles *)

Fixpoint File_ReadAll (f : File) (w : World) : outcome (list byte) :=
  match f with
  | MemFile c name _ => mem_ReadAll name (cell_data c w)
  | UnionFile _ l => File_ReadAll l w
  end.

(** Modelled from the spec: [afero.UnionFile] (third-party), the handle of
    a directory present in both layers.  A write through it goes to the
    layer handle and, when that succeeds, to the base handle; the handles
    [Open] returns are read-only, so such a write fails at the first of
    them. *)
Fixpoint File_Write (f : File) (data : list byte) : M unit :=
  match f with
  | MemFile c name true => on_cell c (mem_Write name data)
  | MemFile c name false =>
      fail (PathError "write" name (ErrorString "file handle is read only"))
  | UnionFile b l => bind (File_Write l data) (λ _, File_Write b data)
  end.

(** *** The [afero.Fs] methods, by implementation *)

(** Modelled from the spec: [CopyOnWriteFs.isNotExist]. *)
Definition cow_isNotExist (err : error) : bool :=
  let e := match err with PathError _ _ e => e | _ => err end in
  bool_decide (e = ErrNotExist ∨ e = Errno ENOENT ∨ e = Errno ENOTDIR).

(** Modelled from the spec: [afero.CopyOnWriteFs] (third-party, not in the
    repository): "reads check the overlay first, then the base"; [ReadOnlyFs]
    forwards reads to its source. *)
Fixpoint Stat (fs : Fs) (name : string) (w : World) : outcome FileInfo :=
  match fs with
  | MemMapFs a => mem_Stat (heap w !!! a) name
  | OsFs => mem_Stat (disk w) name
  | ReadOnlyFs s => Stat s name w
  | CopyOnWriteFs b l =>
      match Stat l name w with
      | Err e => if cow_isNotExist e then Stat b name w else Err e
      | r => r
      end
  end.

(** Modelled from the spec: [afero.IsDir(fs, path)]. *)
Definition IsDir (fs : Fs) (path : string) (w : World) : outcome bool :=
  obind (Stat fs path w) (λ fi, Ok (fi_IsDir fi)).

(** Modelled from the spec: [afero.Exists(fs, path)]. *)
Definition Exists (fs : Fs) (path : string) (w : World) : outcome bool :=
  match Stat fs path w with
  | Ok _ => Ok true
  | Err e => if os_IsNotExist e then Ok false else Err e
  | Panic v => Panic v
  end.

(** Modelled from the spec: [CopyOnWriteFs.isBaseFile]; the name is absent
    from the layer and present in the base. *)
Definition isBaseFile (b l : Fs) (name : string) (w : World) : outcome bool :=
  match Stat l name w with
  | Ok _ => Ok false
  | _ =>
      match Stat b name w with
      | Ok _ => Ok true
      | Err e => if cow_isNotExist e then Ok false else Err e
      | Panic v => Panic v
      end
  end.

(** Modelled from the spec: [Open], "check the overlay first; only on
    absence defer to the base"; a directory present in both layers opens as
    a [UnionFile]. *)
Fixpoint Open (fs : Fs) (name : string) (w : World) : outcome File :=
  match fs with
  | MemMapFs a => mem_Open (CellMem a) (heap w !!! a) name
  | OsFs => mem_Open CellDisk (disk w) name
  | ReadOnlyFs s => Open s name w
  | CopyOnWriteFs b l =>
      obind (isBaseFile b l name w) (λ isBase,
        if isBase : bool then Open b name w
        else
          obind (IsDir l name w) (λ ldir,
            if negb ldir then Open l name w
            else
              match IsDir b name w with
              | Ok true =>
                  obind (Open b name w) (λ bf,
                  obind (Open l name w) (λ lf, Ok (UnionFile bf lf)))
              | _ => Open l name w
              end))
  end.

(** Modelled from the spec: "writes go to the overlay".  [ReadOnlyFs]
    answers every mutation with [EPERM]; [CopyOnWriteFs] consults the base
    for reading only and creates directories in the layer. *)
Fixpoint MkdirAll (fs : Fs) (name : string) : M unit :=
  match fs with
  | MemMapFs a => on_cell (CellMem a) (mem_MkdirAll name)
  | OsFs => on_cell CellDisk (mem_MkdirAll name)
  | ReadOnlyFs _ => fail (Errno EPERM)
  | CopyOnWriteFs b l =>
      λ w, match IsDir b name w with
           | Ok true => (Ok tt, w)
           | _ => MkdirAll l name w
           end
  end.

(** Modelled from the spec: [Mkdir]; the composition refuses a directory
    of the base and otherwise creates in the layer. *)
Definition Mkdir (fs : Fs) (name : string) : M unit :=
  match fs with
  | MemMapFs a => on_cell (CellMem a) (mem_Mkdir name)
  | OsFs => on_cell CellDisk (mem_Mkdir name)
  | ReadOnlyFs _ => fail (Errno EPERM)
  | CopyOnWriteFs b l =>
      λ w, match IsDir b name w with
           | Ok true => (Err ErrExist, w)
           | _ => MkdirAll l name w
           end
  end.

(** Modelled from the spec: [RemoveAll]; the composition removes from the
    layer, and refuses what only the base holds. *)
Fixpoint RemoveAll (fs : Fs) (name : string) : M unit :=
  match fs with
  | MemMapFs a => on_cell (CellMem a) (mem_RemoveAll name)
  | OsFs => on_cell CellDisk (mem_RemoveAll name)
  | ReadOnlyFs _ => fail (Errno EPERM)
  | CopyOnWriteFs b l =>
      λ w, match RemoveAll l name w with
           | (Err (Errno n), w') =>
               if decide (n = ENOENT) then
                 match Stat b name w' with
                 | Ok _ => (Err (Errno EPERM), w')
                 | _ => (Err (Errno ENOENT), w')
                 end
               else (Err (Errno n), w')
           | r => r
           end
  end.

(** Modelled from the spec: [afero.copyToLayer]; read the file from the
    base, make its directory in the layer, create it there and copy the
    bytes. *)
Definition copyToLayer (b l : Fs) (create : M File) (name : string) : M unit :=
  bfh ← lift (Open b name);
  ex ← lift (Exists l (filepath_Dir name));
  _ ← (if ex : bool then ret tt else MkdirAll l (filepath_Dir name));
  lfh ← create;
  data ← lift (File_ReadAll bfh);
  File_Write lfh data.

(** Modelled from the spec: [OpenFile] with a write mode, [O_CREATE] and
    [O_TRUNC], the only flags the adapter uses; [Create] is the same call.
    The composition copies a file of the base up into the layer before
    opening it there, and creates a new file in the layer when its
    directory exists in either layer. *)
Fixpoint OpenFile (fs : Fs) (name : string) : M File :=
  match fs with
  | MemMapFs a => on_cell (CellMem a) (mem_OpenFile (CellMem a) name)
  | OsFs => on_cell CellDisk (mem_OpenFile CellDisk name)
  | ReadOnlyFs _ => fail (Errno EPERM)
  | CopyOnWriteFs b l =>
      isBase ← lift (isBaseFile b l name);
      if isBase : bool then
        _ ← copyToLayer b l (OpenFile l name) name;
        OpenFile l name
      else
        let dir := filepath_Dir name in
        λ w, match IsDir b dir w with
             | Ok true => (_ ← MkdirAll l dir; OpenFile l name) w
             | Err e =>
                 if negb (os_IsNotExist e) then (Err e, w)
                 else match IsDir l dir w with
                      | Ok true => OpenFile l name w
                      | Ok false =>
                          (Err (PathError "open" name (Errno ENOTDIR)), w)
                      | Err e' => (Err e', w)
                      | Panic v => (Panic v, w)
                      end
             | Ok false =>
                 match IsDir l dir w with
                 | Ok true => OpenFile l name w
                 | Ok false =>
                     (Err (PathError "open" name (Errno ENOTDIR)), w)
                 | Err e' => (Err e', w)
                 | Panic v => (Panic v, w)
                 end
             | Panic v => (Panic v, w)
             end
  end.

Definition Create (fs : Fs) (name : string) : M File := OpenFile fs name.

(** Modelled from the spec: [afero.ReadFile(fs, filename)]. *)
Definition ReadFile (fs : Fs) (filename : string) (w : World)
    : outcome (list byte) :=
  obind (Open fs filename w) (λ f, File_ReadAll f w).

(** Modelled from the spec: [afero.WriteFile(fs, filename, data, perm)]. *)
Definition WriteFile (fs : Fs) (filename : string) (data : list byte)
    : M unit :=
  f ← OpenFile fs filename;
  File_Write f data.

(** The backends a mutation through [fs] can reach, and all the backends
    [fs] reads. *)
Fixpoint writable_cells (fs : Fs) : list cell :=
  match fs with
  | MemMapFs a => [CellMem a]
  | OsFs => [CellDisk]
  | ReadOnlyFs _ => []
  | CopyOnWriteFs _ l => writable_cells l
  end.

Fixpoint all_cells (fs : Fs) : list cell :=
  match fs with
  | MemMapFs a => [CellMem a]
  | OsFs => [CellDisk]
  | ReadOnlyFs s => all_cells s
  | CopyOnWriteFs b l => (all_cells b ++ all_cells l)%list
  end.

End afero.

(** ** What the embedding takes from outside the repository *)

(** [filepath.WalkFunc]. *)
Definition WalkFunc : Type :=
  string → option FileInfo → option error → M unit.

(** An implementation of [filesys.FileSystem] that is not this repository's:
    its thirteen methods, and its [Unwrap] method when it has one. *)
Record ForeignFs : Type := mkForeignFs {
  fCreate : string → M File;
  fMkdir : string → M unit;
  fMkdirAll : string → M unit;
  fRemoveAll : string → M unit;
  fOpen : string → World → outcome File;
  fExists : string → World → bool;
  fIsDir : string → World → bool;
  fReadDir : string → World → outcome (list string);
  fReadFile : string → World → outcome (list byte);
  fWriteFile : string → list byte → M unit;
  fGlob : string → World → outcome (list string);
  fWalk : string → WalkFunc → M unit;
  fCleanedAbs : string → World → outcome (string * string);
  fUnwrap : option Fs
}.

(** Library functions the adapter calls and the embedding leaves open:
    [filepath.Abs] and [filepath.EvalSymlinks] (they depend on the working
    directory and on symbolic links, which the world does not record), and
    afero's directory helpers. *)
Class Env : Type := mkEnv {
  filepath_Abs : string → World → outcome string;
  filepath_EvalSymlinks : string → World → outcome string;
  afero_ReadDir : Fs → string → World → outcome (list FileInfo);
  afero_Glob : Fs → string → World → outcome (list string);
  afero_Walk : Fs → string → WalkFunc → M unit;
  foreign : nat → ForeignFs
}.

(** ** pkg/fs/adapter: [Adapter] *)

Module adapter.
Section adapter.
Context {env : Env}.

(** [New] wraps an [afero.Fs]. *)
Definition New (afs : Fs) : FileSystem := Adapter afs.

Definition Create (a : Fs) (path : string) : M File := afero.Create a path.

Definition Mkdir (a : Fs) (path : string) : M unit := afero.Mkdir a path.

Definition MkdirAll (a : Fs) (path : string) : M unit := afero.MkdirAll a path.

Definition RemoveAll (a : Fs) (path : string) : M unit :=
  afero.RemoveAll a path.

Definition Open (a : Fs) (path : string) (w : World) : outcome File :=
  afero.Open a path w.

Definition Exists (a : Fs) (path : string) (w : World) : bool :=
  match afero.Stat a path w with
  | Ok _ => true
  | _ => false
  end.

Definition IsDir (a : Fs) (path : string) (w : World) : bool :=
  match afero.Stat a path w with
  | Ok info => fi_IsDir info
  | _ => false
  end.

Definition ReadDir (a : Fs) (path : string) (w : World)
    : outcome (list string) :=
  obind (afero_ReadDir a path w) (λ entries, Ok (fi_Name <$> entries)).

Definition ReadFile (a : Fs) (path : string) (w : World)
    : outcome (list byte) :=
  afero.ReadFile a path w.

Definition WriteFile (a : Fs) (path : string) (data : list byte) : M unit :=
  afero.WriteFile a path data.

Definition Glob (a : Fs) (pattern : string) (w : World)
    : outcome (list string) :=
  afero_Glob a pattern w.

Definition Walk (a : Fs) (path : string) (walkFn : WalkFunc) : M unit :=
  afero_Walk a path walkFn.

(** The type assertion [a.fs.( *afero.OsFs)]. *)
Definition is_OsFs (a : Fs) : bool :=
  match a with OsFs => true | _ => false end.

(** [CleanedAbs]: the directory (a [filesys.ConfirmedDir]) and the file
    name. *)
Definition CleanedAbs (a : Fs) (path : string) (w : World)
    : outcome (string * string) :=
  let path := if decide (path = "") then "." else path in
  match filepath_Abs path w with
  | Err err => Err (Errorf "abs path error on %q: %w" [path] err)
  | Panic v => Panic v
  | Ok absPath =>
      let resolved :=
        if is_OsFs a then
          match filepath_EvalSymlinks absPath w with
          | Err err => Err (Errorf "evalsymlink failure on %q: %w" [path] err)
          | r => r
          end
        else Ok absPath in
      match resolved with
      | Err e => Err e
      | Panic v => Panic v
      | Ok resolvedPath =>
          match afero.Stat a resolvedPath w with
          | Err err =>
              if os_IsNotExist err then Err (PathError "stat" path ErrNotExist)
              else Err (Errorf "stat error on %q: %w" [path] err)
          | Panic v => Panic v
          | Ok info =>
              if fi_IsDir info then Ok (resolvedPath, "")
              else Ok (filepath_Dir resolvedPath, filepath_Base resolvedPath)
          end
      end
  end.

Definition Unwrap (a : Fs) : Fs := a.

End adapter.
End adapter.

(** ** The [filesys.FileSystem] interface, and pkg/util/fs *)

Module utilfs.
Section utilfs.
Context {env : Env}.

(** The error a [readOnlyWrapper] gives for the mutating method [op]. *)
Definition errReadOnly (op : string) : error :=
  ErrorString (op ++ " not supported on read-only filesystem").

(** Method calls on an interface value: the dynamic type selects
    [Adapter]'s method, [readOnlyWrapper]'s, or the foreign one.  The
    [readOnlyWrapper] cases are the method bodies of fs.go. *)
Definition Create (f : FileSystem) (path : string) : M File :=
  match f with
  | Adapter a => adapter.Create a path
  | readOnlyWrapper _ => fail (errReadOnly "create")
  | Foreign id => fCreate (foreign id) path
  end.

Definition Mkdir (f : FileSystem) (path : string) : M unit :=
  match f with
  | Adapter a => adapter.Mkdir a path
  | readOnlyWrapper _ => fail (errReadOnly "mkdir")
  | Foreign id => fMkdir (foreign id) path
  end.

Definition MkdirAll (f : FileSystem) (path : string) : M unit :=
  match f with
  | Adapter a => adapter.MkdirAll a path
  | readOnlyWrapper _ => fail (errReadOnly "mkdirall")
  | Foreign id => fMkdirAll (foreign id) path
  end.

Definition RemoveAll (f : FileSystem) (path : string) : M unit :=
  match f with
  | Adapter a => adapter.RemoveAll a path
  | readOnlyWrapper _ => fail (errReadOnly "removeall")
  | Foreign id => fRemoveAll (foreign id) path
  end.

Definition WriteFile (f : FileSystem) (path : string) (data : list byte)
    : M unit :=
  match f with
  | Adapter a => adapter.WriteFile a path data
  | readOnlyWrapper _ => fail (errReadOnly "writefile")
  | Foreign id => fWriteFile (foreign id) path data
  end.

Fixpoint Open (f : FileSystem) (path : string) (w : World) : outcome File :=
  match f with
  | Adapter a => adapter.Open a path w
  | readOnlyWrapper base => Open base path w
  | Foreign id => fOpen (foreign id) path w
  end.

Fixpoint Exists (f : FileSystem) (path : string) (w : World) : bool :=
  match f with
  | Adapter a => adapter.Exists a path w
  | readOnlyWrapper base => Exists base path w
  | Foreign id => fExists (foreign id) path w
  end.

Fixpoint IsDir (f : FileSystem) (path : string) (w : World) : bool :=
  match f with
  | Adapter a => adapter.IsDir a path w
  | readOnlyWrapper base => IsDir base path w
  | Foreign id => fIsDir (foreign id) path w
  end.

Fixpoint ReadDir (f : FileSystem) (path : string) (w : World)
    : outcome (list string) :=
  match f with
  | Adapter a => adapter.ReadDir a path w
  | readOnlyWrapper base => ReadDir base path w
  | Foreign id => fReadDir (foreign id) path w
  end.

Fixpoint ReadFile (f : FileSystem) (path : string) (w : World)
    : outcome (list byte) :=
  match f with
  | Adapter a => adapter.ReadFile a path w
  | readOnlyWrapper base => ReadFile base path w
  | Foreign id => fReadFile (foreign id) path w
  end.

Fixpoint Glob (f : FileSystem) (pattern : string) (w : World)
    : outcome (list string) :=
  match f with
  | Adapter a => adapter.Glob a pattern w
  | readOnlyWrapper base => Glob base pattern w
  | Foreign id => fGlob (foreign id) pattern w
  end.

Fixpoint Walk (f : FileSystem) (path : string) (walkFn : WalkFunc) : M unit :=
  match f with
  | Adapter a => adapter.Walk a path walkFn
  | readOnlyWrapper base => Walk base path walkFn
  | Foreign id => fWalk (foreign id) path walkFn
  end.

Fixpoint CleanedAbs (f : FileSystem) (path : string) (w : World)
    : outcome (string * string) :=
  match f with
  | Adapter a => adapter.CleanedAbs a path w
  | readOnlyWrapper base => CleanedAbs base path w
  | Foreign id => fCleanedAbs (foreign id) path w
  end.

(** The type assertion [base.(interface{ Unwrap() afero.Fs })]. *)
Definition Unwrap (f : FileSystem) : option Fs :=
  match f with
  | Adapter a => Some (adapter.Unwrap a)
  | readOnlyWrapper _ => None
  | Foreign id => fUnwrap (foreign id)
  end.

Definition NewFsOnDisk : FileSystem := adapter.New OsFs.

(** [afero.NewMemMapFs()] allocates: the new filesystem has an address no
    live filesystem has, and is empty. *)
Definition NewMemoryFs : M FileSystem :=
  λ w, let a := fresh (dom (heap w)) in
       (Ok (adapter.New (MemMapFs a)), set_heap (<[a := ∅]> (heap w)) w).

Definition NewReadOnlyFs (base : FileSystem) : FileSystem :=
  match Unwrap base with
  | Some afs => adapter.New (ReadOnlyFs afs)
  | None => readOnlyWrapper base
  end.

End utilfs.
End utilfs.

(** ** pkg/fs/union *)

Module union.
Section union.
Context {env : Env}.

Record config : Type := mkConfig {
  overrides : gmap string (list byte);
  overlay : option FileSystem
}.

(** A functional option, [func(cfg *config) error]. *)
Definition Option : Type := config → outcome config.

Definition WithOverride (path : string) (content : list byte) : Option :=
  λ cfg, Ok (mkConfig (<[path := content]> (overrides cfg)) (overlay cfg)).

(** [maps.Copy(cfg.overrides, overrides)]: the new entries win. *)
Definition WithOverrides (o : gmap string (list byte)) : Option :=
  λ cfg, Ok (mkConfig (o ∪ overrides cfg) (overlay cfg)).

Definition WithOverlayFs (ov : FileSystem) : Option :=
  λ cfg, Ok (mkConfig (overrides cfg) (Some ov)).

(** [for _, opt := range opts { if err := opt(cfg); err != nil { ... } }]. *)
Fixpoint apply_options (opts : list Option) (cfg : config) : outcome config :=
  match opts with
  | [] => Ok cfg
  | opt :: rest => obind (opt cfg) (apply_options rest)
  end.

(** [for path, content := range cfg.overrides { overlay.WriteFile(...) }].
    Go leaves the order of the range open; the entries are taken in the
    order of [map_to_list]. *)
Fixpoint write_overrides (ov : FileSystem)
    (entries : list (string * list byte)) : M unit :=
  match entries with
  | [] => ret tt
  | (path, content) :: rest =>
      _ ← wrap (Errorf "failed to write override %s: %w" [path])
               (utilfs.WriteFile ov path content);
      write_overrides ov rest
  end.

Definition NewFs (base : FileSystem) (opts : list Option) : M FileSystem :=
  cfg ← lift (λ _, apply_options opts (mkConfig ∅ None));
  ov ← match overlay cfg with
       | Some ov => ret ov
       | None =>
           ov ← utilfs.NewMemoryFs;
           _ ← write_overrides ov (map_to_list (overrides cfg));
           ret ov
       end;
  match utilfs.Unwrap base with
  | None =>
      fail (ErrorString
              "base filesystem must be created with fs package functions")
  | Some baseFs =>
      match utilfs.Unwrap ov with
      | None =>
          fail (ErrorString
                  "overlay filesystem must be created with fs package functions")
      | Some overlayFs =>
          ret (adapter.New (CopyOnWriteFs baseFs overlayFs))
      end
  end.

End union.
End union.

(** ** Vocabulary of the statements about filesystems *)

(** A backend is live in a world: an in-memory filesystem has been
    allocated; the disk always is. *)
Definition allocated (c : cell) (w : World) : Prop :=
  match c with
  | CellMem a => a ∈ dom (heap w)
  | CellDisk => True
  end.

(** The mutating calls of [filesys.FileSystem]. *)
Inductive MutOp : Type :=
  | OpWriteFile (path : string) (data : list byte)
  | OpCreate (path : string)
  | OpMkdir (path : string)
  | OpMkdirAll (path : string)
  | OpRemoveAll (path : string).

Section ops.
Context {env : Env}.

(** Make one call, or a sequence of calls, whatever each returns. *)
Definition run_op (f : FileSystem) (op : MutOp) (w : World) : World :=
  match op with
  | OpWriteFile path data => (utilfs.WriteFile f path data w).2
  | OpCreate path => (utilfs.Create f path w).2
  | OpMkdir path => (utilfs.Mkdir f path w).2
  | OpMkdirAll path => (utilfs.MkdirAll f path w).2
  | OpRemoveAll path => (utilfs.RemoveAll f path w).2
  end.

Definition run_ops (f : FileSystem) (ops : list MutOp) (w : World) : World :=
  foldl (λ w op, run_op f op w) w ops.

End ops.

(** [m], run from [w], leaves every backend outside [cs] as it was. *)
Definition writes_within {A} (cs : list cell) (m : M A) (w : World) : Prop :=
  ∀ c, c ∉ cs → cell_data c (m w).2 = cell_data c w.

(** Two worlds hold the same bytes in the backends [cs]. *)
Definition agree_on (cs : list cell) (w1 w2 : World) : Prop :=
  ∀ c, c ∈ cs → cell_data c w1 = cell_data c w2.

(** The backends a write through a handle reaches, and those a read
    through it consults. *)
Fixpoint file_cells (f : File) : list cell :=
  match f with
  | MemFile c _ true => [c]
  | MemFile _ _ false => []
  | UnionFile b l => (file_cells b ++ file_cells l)%list
  end.

Fixpoint file_read_cells (f : File) : list cell :=
  match f with
  | MemFile c _ _ => [c]
  | UnionFile b l => (file_read_cells b ++ file_read_cells l)%list
  end.

(** ** The process: [*os.File] objects and [os.Stderr] *)

Module os.

Definition open_files (w : World) : nat :=
  size (filter (λ kv : nat * OsFile, of_closed kv.2 = false) (files w)).

(** Modelled from the spec: [os.Pipe] (standard library).  It needs two free
    descriptors and fails with [EMFILE] when the process has none left. *)
Definition Pipe : M (nat * nat) :=
  λ w, if decide (open_files w + 2 ≤ nofile w)%nat then
         let r := fresh (dom (files w)) in
         let files1 := <[r := mkOsFile false []]> (files w) in
         let wr := fresh (dom files1) in
         (Ok (r, wr), set_files (<[wr := mkOsFile false []]> files1) w)
       else (Err (SyscallError "pipe2" (Errno EMFILE)), w).

(** [( *os.File).Close] and [( *os.File).Write]: a closed file refuses both. *)
Definition Close (f : nat) : M unit :=
  λ w, match files w !! f with
       | Some (mkOsFile false d) =>
           (Ok tt, set_files (<[f := mkOsFile true d]> (files w)) w)
       | _ => (Err (PathError "close" "" ErrClosed), w)
       end.

Definition Write (f : nat) (p : list byte) : M unit :=
  λ w, match files w !! f with
       | Some (mkOsFile false d) =>
           (Ok tt,
            set_files (<[f := mkOsFile false (d ++ p)%list]> (files w)) w)
       | _ => (Err (PathError "write" "" ErrClosed), w)
       end.

(** [fmt.Fprintf(w, "%s\n", msg)]. *)
Definition Fprintln (f : nat) (msg : string) : M unit :=
  Write f (list_byte_of_string msg ++ [Byte.x0a])%list.

End os.

(** ** pkg/util/io *)

Module utilio.

(** [SuppressStderr].  The closure's captured result variable is returned
    with its error, hence the type parameter; the deferred function runs
    however [fn] ends.  The goroutine that drains the pipe has no effect on
    the world: what is written to the pipe stays in the pipe. *)
Definition SuppressStderr {A} (fn : M A) : M A :=
  λ w,
    let oldStderr := Stderr w in
    match os.Pipe w with
    | (Err err, w1) => (Err (Errorf "failed to create pipe: %w" [] err), w1)
    | (Panic v, w1) => (Panic v, w1)
    | (Ok (r, wr), w1) =>
        let w2 := set_Stderr wr w1 in
        let '(res, w3) := fn w2 in
        let w4 := set_Stderr oldStderr w3 in
        let w5 := (os.Close wr w4).2 in
        let w6 := (os.Close r w5).2 in
        (res, w6)
    end.

End utilio.

(** ** pkg: warning handlers, cache keys, the engine *)

Module kustomize.

(** *** kustomize_warnings.go *)

Definition WarningHandler : Type := list string → M unit.

Definition ErrKustomizeWarnings : error :=
  ErrorString "kustomize warnings detected".

Definition WarningIgnore : WarningHandler := λ _, ret tt.

(** [WarningLog(w)]: one line per warning, stopping at the first write that
    fails. *)
Fixpoint WarningLog (wr : nat) (warnings : list string) : M unit :=
  match warnings with
  | [] => ret tt
  | msg :: rest =>
      _ ← wrap (Errorf "failed to write warning: %w" []) (os.Fprintln wr msg);
      WarningLog wr rest
  end.

(** What [WarningLog] writes for a list of warnings. *)
Definition log_lines (warnings : list string) : list byte :=
  concat ((λ msg, list_byte_of_string msg ++ [Byte.x0a])%list <$> warnings).

Definition WarningFail : WarningHandler :=
  λ warnings,
    if decide (0 < length warnings)%nat then
      fail (Errorf "%w:\n%s" [String.concat "
" warnings] ErrKustomizeWarnings)
    else ret tt.

(** *** kustomize_cache.go *)

Record KustomizationSpec : Type := mkKustomizationSpec {
  Path : string;
  Values : gmap string string
}.

Definition CacheKeyFunc : Type := KustomizationSpec → string.

Definition entry_le (x y : string * string) : Prop :=
  String.leb x.1 y.1 = true.

Global Instance entry_le_dec x y : Decision (entry_le x y).
Proof. unfold entry_le. apply _. Defined.

Definition render_entry (kv : string * string) : string :=
  kv.1 ++ ":" ++ kv.2.

(** Modelled from the spec: [dump.ForHash] (k8s.io/apimachinery, not in the
    repository), "a canonical/deterministic encoding — map key order must
    not affect the hash": the fields in their declared order, the entries of
    the map sorted by key.  [visit] is the order in which the runtime hands
    out the entries of a map, which Go leaves open. *)
Definition dump_ForHash
    (visit : gmap string string → list (string * string))
    (spec : KustomizationSpec) : string :=
  "{Path:" ++ Path spec ++ " Values:map["
  ++ String.concat " "
       (render_entry <$> merge_sort entry_le (visit (Values spec)))
  ++ "]}".

Definition DefaultCacheKey
    (visit : gmap string string → list (string * string)) : CacheKeyFunc :=
  λ spec, dump_ForHash visit spec.

(** A map built by the assignments [m[k] = v], in the order given. *)
Definition assign_all (ins : list (string * string)) : gmap string string :=
  foldl (λ m kv, <[kv.1 := kv.2]> m) ∅ ins.

Definition FastCacheKey : CacheKeyFunc := λ spec, Path spec.

Definition PathOnlyCacheKey : CacheKeyFunc := λ spec, Path spec.

(** *** kustomize_engine.go *)

(** [kustomizetypes.Kustomization]: the field the engine rewrites, what
    [CheckDeprecatedFields] reports for the descriptor, and the rest. *)
Record Kustomization : Type := mkKustomization {
  BuildMetadata : list string;
  DeprecatedFields : option (list string);
  OtherFields : string
}.

Definition CheckDeprecatedFields (k : Kustomization) : option (list string) :=
  DeprecatedFields k.

Definition OriginAnnotations : string := "originAnnotations".

(** [unstructured.Unstructured]: the annotation map ([None] when the object
    has none) and every other field. *)
Record Unstructured : Type := mkUnstructured {
  Annotations : option (gmap string string);
  Fields : string
}.

Definition GetAnnotations (u : Unstructured) : option (gmap string string) :=
  Annotations u.

Definition SetAnnotations (u : Unstructured) (a : gmap string string)
    : Unstructured :=
  mkUnstructured (Some a) (Fields u).

Record Origin : Type := mkOrigin { Origin_Path : string }.

(** A [*resource.Resource], by what its methods return. *)
Record Resource : Type := mkResource {
  res_Map : outcome Unstructured;
  res_CurId : string;
  res_GetOrigin : outcome (option Origin)
}.

Definition ResMap : Type := list Resource.

(** [resmap.Transformer]: [Transform] edits the result in place or fails. *)
Definition Transformer : Type := ResMap → outcome ResMap.

(** [RendererOptions], the fields the engine reads. *)
Record RendererOptions : Type := mkRendererOptions {
  Plugins : list Transformer;
  SourceAnnotations : bool;
  LoadRestrictions_default : LoadRestrictions;
  WarningHandler_opt : option WarningHandler
}.

(** [Source] (kustomize.go, not in the repository's sources given), the
    fields the engine reads. *)
Record Source : Type := mkSource {
  Source_Path : string;
  Source_LoadRestrictions : LoadRestrictions
}.

(** [Engine]; its [kustomizer] field is not used by [Run], which makes its
    own. *)
Record Engine : Type := mkEngine {
  fs : FileSystem;
  opts : RendererOptions
}.

Definition ErrPathMustBeDirectory : error :=
  ErrorString
    "path must be a directory containing a kustomization file, got a file instead".

Definition rendererType : string := "kustomize".
Definition AnnotationSourceType : string := "k8s-manifest-kit.io/renderer".
Definition AnnotationSourcePath : string := "k8s-manifest-kit.io/source.path".
Definition AnnotationSourceFile : string := "k8s-manifest-kit.io/source.file".
Definition originKey : string := "config.kubernetes.io/origin".

(** The decisions [prepareFilesystem] takes: whether it composes an
    overlay at all, whether it rewrites the descriptor to request provenance
    tracking, and whether it puts any synthetic file into the overlay. *)
Definition composes (e : Engine) (values : gmap string string) : bool :=
  SourceAnnotations (opts e) || negb (bool_decide (size values = 0)).

Definition adds_origin (e : Engine) (kust : Kustomization) : bool :=
  SourceAnnotations (opts e)
  && negb (bool_decide (OriginAnnotations ∈ BuildMetadata kust)).

Definition injects (e : Engine) (kust : Kustomization)
    (values : gmap string string) : bool :=
  adds_origin e kust || negb (bool_decide (size values = 0)).

(** What the engine calls and the repository's sources do not contain:
    [readKustomization] and [createValuesConfigMapYAML] (kustomize_support.go),
    the YAML encoder, the external builder, the converter. *)
Class Kust : Type := mkKust {
  readKustomization :
    FileSystem → string → World → outcome (Kustomization * string);
  goyaml_Marshal : Kustomization → outcome (list byte);
  createValuesConfigMapYAML : gmap string string → outcome (list byte);
  krusty_build :
    LoadRestrictions → FileSystem → string → World → outcome ResMap;
  FromUnstructured : Unstructured → outcome Unstructured
}.

Section engine.
Context {env : Env} {kenv : Kust}.

(** [kustomizer.Run(fs, path)]: the builder reads the world; the call is
    recorded. *)
Definition kustomizer_Run (restrictions : LoadRestrictions)
    (fsys : FileSystem) (path : string) : M ResMap :=
  λ w, (krusty_build restrictions fsys path w,
        set_builds (builds w ++ [mkBuildCall restrictions fsys path])%list w).

(** Lines 101-111 of [Run]: the deprecation warnings go to the configured
    handler, or to [WarningLog(os.Stderr)]. *)
Definition handleWarnings (e : Engine) (kust : Kustomization) : M unit :=
  match CheckDeprecatedFields kust with
  | Some ((_ :: _) as warnings) =>
      match WarningHandler_opt (opts e) with
      | Some handler => handler warnings
      | None => λ w, WarningLog (Stderr w) warnings w
      end
  | _ => ret tt
  end.

(** [Engine.prepareFilesystem]: the filesystem to build against, and
    whether the descriptor was rewritten to request origin annotations.  The
    append to [kust.BuildMetadata] is the descriptor [kust'] that is
    encoded. *)
Definition prepareFilesystem (e : Engine) (inputPath : string)
    (kust : Kustomization) (kustName : string) (values : gmap string string)
    : M (FileSystem * bool) :=
  if negb (SourceAnnotations (opts e)) && bool_decide (size values = 0)
  then ret (fs e, false)
  else
    '(p, f) ← wrap (Errorf "failed to resolve path %q: %w" [inputPath])
                   (lift (utilfs.CleanedAbs (fs e) inputPath));
    if decide (f ≠ "") then
      fail (Errorf "path %q: %w" [inputPath] ErrPathMustBeDirectory)
    else
      '(opts1, addedOriginAnnotations) ←
        (if SourceAnnotations (opts e) then
           if decide (OriginAnnotations ∈ BuildMetadata kust) then
             ret (@nil union.Option, false)
           else
             let kust' :=
               mkKustomization (BuildMetadata kust ++ [OriginAnnotations])%list
                               (DeprecatedFields kust) (OtherFields kust) in
             data ← wrap (Errorf "failed to marshal kustomization: %w" [])
                         (lift (λ _, goyaml_Marshal kust'));
             ret ([union.WithOverride (filepath_Join p kustName) data], true)
         else ret (@nil union.Option, false));
      opts2 ←
        (if decide (0 < size values)%nat then
           valuesContent ←
             wrap (Errorf "failed to create values ConfigMap: %w" [])
                  (lift (λ _, createValuesConfigMapYAML values));
           ret (opts1 ++
                [union.WithOverride (filepath_Join p "values.yaml")
                                    valuesContent])%list
         else ret opts1);
      fsys ← wrap (Errorf "failed to create union filesystem: %w" [])
                  (union.NewFs (fs e) opts2);
      ret (fsys, addedOriginAnnotations).

(** [Engine.addSourceAnnotationsToObject]. *)
Definition addSourceAnnotationsToObject (e : Engine) (obj : Unstructured)
    (inputPath : string) (res : Resource) : Unstructured :=
  if negb (SourceAnnotations (opts e)) then obj
  else
    let annotations := default ∅ (GetAnnotations obj) in
    let annotations := <[AnnotationSourceType := rendererType]> annotations in
    let annotations := <[AnnotationSourcePath := inputPath]> annotations in
    let annotations :=
      match res_GetOrigin res with
      | Ok (Some origin) =>
          <[AnnotationSourceFile := Origin_Path origin]> annotations
      | _ => annotations
      end in
    SetAnnotations obj annotations.

(** [removeOriginAnnotation]: nothing to do on an object without
    annotations. *)
Definition removeOriginAnnotation (obj : Unstructured) : Unstructured :=
  match GetAnnotations obj with
  | Some annotations => SetAnnotations obj (delete originKey annotations)
  | None => obj
  end.

(** [Engine.convertResources]: the documents in the builder's order, or the
    first conversion error. *)
Fixpoint convertResources (e : Engine) (resMap : ResMap) (inputPath : string)
    : outcome (list Unstructured) :=
  match resMap with
  | [] => Ok []
  | res :: rest =>
      match res_Map res with
      | Err err =>
          Err (Errorf "failed to convert resource %s to map: %w"
                      [res_CurId res] err)
      | Panic v => Panic v
      | Ok m =>
          match FromUnstructured m with
          | Err err =>
              Err (Errorf
                     "failed to convert map to unstructured for resource %s: %w"
                     [res_CurId res] err)
          | Panic v => Panic v
          | Ok obj =>
              obind (convertResources e rest inputPath) (λ objs,
                Ok (addSourceAnnotationsToObject e obj inputPath res :: objs))
          end
      end
  end.

(** [for _, t := range e.opts.Plugins { t.Transform(resMap) }]. *)
Fixpoint apply_plugins (plugins : list Transformer) (inputPath : string)
    (resMap : ResMap) : outcome ResMap :=
  match plugins with
  | [] => Ok resMap
  | t :: rest =>
      match t resMap with
      | Err err =>
          Err (Errorf
                 "failed to apply kustomize plugin transformer for path %q: %w"
                 [inputPath] err)
      | Panic v => Panic v
      | Ok resMap' => apply_plugins rest inputPath resMap'
      end
  end.

(** The first lines of [Run]: the source's load restrictions override the
    renderer's unless they are [LoadRestrictionsUnknown]. *)
Definition effective_restrictions (e : Engine) (input : Source)
    : LoadRestrictions :=
  if decide (Source_LoadRestrictions input ≠ LoadRestrictionsUnknown)
  then Source_LoadRestrictions input
  else LoadRestrictions_default (opts e).

(** [Engine.Run]. *)
Definition Run (e : Engine) (input : Source) (values : gmap string string)
    : M (list Unstructured) :=
  let restrictions := effective_restrictions e input in
  '(kust, name) ←
    wrap (Errorf "unable to read kustomization from path %q: %w"
                 [Source_Path input])
         (lift (readKustomization (fs e) (Source_Path input)));
  _ ← handleWarnings e kust;
  '(fsys, addedOriginAnnotations) ←
    prepareFilesystem e (Source_Path input) kust name values;
  resMap ←
    wrap (Errorf "failed to run kustomize for path %q: %w" [Source_Path input])
         (utilio.SuppressStderr
            (wrap (Errorf "kustomizer run failed: %w" [])
                  (kustomizer_Run restrictions fsys (Source_Path input))));
  resMap ←
    lift (λ _, apply_plugins (Plugins (opts e)) (Source_Path input) resMap);
  result ← lift (λ _, convertResources e resMap (Source_Path input));
  ret (if addedOriginAnnotations : bool
       then removeOriginAnnotation <$> result
       else result).

End engine.
End kustomize.

(** ** Sample worlds and collaborators

    Concrete instances of what the embedding takes from outside, used to run
    the repository's tests against the definitions and to exhibit inputs. *)

Module sample.

Definition unsupported : error := ErrorString "unsupported".

(** A foreign filesystem that holds nothing and cannot be unwrapped. *)
Definition nullFs : ForeignFs :=
  mkForeignFs
    (λ _, fail unsupported) (λ _, fail unsupported) (λ _, fail unsupported)
    (λ _, fail unsupported) (λ _ _, Err unsupported) (λ _ _, false)
    (λ _ _, false) (λ _ _, Err unsupported) (λ _ _, Err unsupported)
    (λ _ _, fail unsupported) (λ _ _, Err unsupported)
    (λ _ _, fail unsupported) (λ _ _, Err unsupported) None.

(** Absolute paths are taken as they are, there are no symbolic links. *)
Definition env : Env :=
  mkEnv (λ p _, Ok p) (λ p _, Ok p)
        (λ _ _ _, Err unsupported) (λ _ _ _, Err unsupported)
        (λ _ _ _, fail unsupported) (λ _, nullFs).

Definition bytes (s : string) : list byte := list_byte_of_string s.

(** An empty world: no filesystem allocated, an empty disk, standard error
    open as file 2, room for sixteen open files. *)
Definition world0 : World :=
  mkWorld ∅ ∅ {[ 2 := mkOsFile false [] ]} 2 16 [].

(** Two descriptors: one that does not request provenance tracking and
    one that does; and one that uses a deprecated field. *)
Definition plainDescriptor : kustomize.Kustomization :=
  kustomize.mkKustomization [] (Some []) "resources: [cm.yaml]".

Definition originDescriptor : kustomize.Kustomization :=
  kustomize.mkKustomization [kustomize.OriginAnnotations] (Some [])
                            "resources: [cm.yaml]".

Definition deprecatedDescriptor : kustomize.Kustomization :=
  kustomize.mkKustomization [] (Some ["commonLabels is deprecated"])
                            "resources: [cm.yaml]".

(** A stand-in for the YAML encoder. *)
Definition encode (k : kustomize.Kustomization) : list byte :=
  bytes (String.concat "," (kustomize.BuildMetadata k) ++ ";"
         ++ kustomize.OtherFields k).

(** A world with one in-memory filesystem, at address 0, holding the
    overlay root [/app] with its descriptor. *)
Definition appTree (k : kustomize.Kustomization) : MemMapData :=
  <["/app/kustomization.yaml" := RegFile (encode k)]>
    (<["/app" := DirNode]> (<["/" := DirNode]> ∅)).

Definition world1 (k : kustomize.Kustomization) : World :=
  mkWorld {[ 0 := appTree k ]} ∅ {[ 2 := mkOsFile false [] ]} 2 16 [].

Definition memFs : FileSystem := Adapter (MemMapFs 0).

Definition worldPlain : World := world1 plainDescriptor.
Definition worldOrigin : World := world1 originDescriptor.
Definition worldDeprecated : World := world1 deprecatedDescriptor.

(** The same world with standard error closed, and one that has used up
    its file descriptors. *)
Definition worldClosedStderr (k : kustomize.Kustomization) : World :=
  mkWorld {[ 0 := appTree k ]} ∅ {[ 2 := mkOsFile true [] ]} 2 16 [].

Definition worldNoDescriptors : World :=
  mkWorld ∅ ∅ {[ 2 := mkOsFile false [] ]} 2 2 [].

(** A loader that returns the parsed descriptor [k] when it finds the
    descriptor file: inside the path when the path is a directory, at the
    path itself otherwise. *)
Definition loader (k : kustomize.Kustomization) {env : Env}
    (fsys : FileSystem) (path : string) (w : World)
    : outcome (kustomize.Kustomization * string) :=
  if utilfs.IsDir fsys path w then
    if utilfs.Exists fsys (filepath_Join path "kustomization.yaml") w
    then Ok (k, "kustomization.yaml")
    else Err (ErrorString "no kustomization file found")
  else if utilfs.Exists fsys path w then Ok (k, filepath_Base path)
  else Err (ErrorString "no kustomization file found").

Definition originValue : string := "path: cm.yaml".

(** A builder that renders one document, and attaches the origin
    annotation when the descriptor it reads requests it. *)
Definition builder {env : Env} (_ : LoadRestrictions) (fsys : FileSystem)
    (path : string) (w : World) : outcome kustomize.ResMap :=
  obind (utilfs.ReadFile fsys (filepath_Join path "kustomization.yaml") w)
    (λ data,
       if decide (data = encode originDescriptor) then
         Ok [kustomize.mkResource
               (Ok (kustomize.mkUnstructured
                      (Some {[ kustomize.originKey := originValue ]})
                      "kind: ConfigMap"))
               "ConfigMap/cm" (Ok (Some (kustomize.mkOrigin "cm.yaml")))]
       else
         Ok [kustomize.mkResource
               (Ok (kustomize.mkUnstructured None "kind: ConfigMap"))
               "ConfigMap/cm" (Ok None)]).

Definition kust (k : kustomize.Kustomization) {env : Env} : kustomize.Kust :=
  kustomize.mkKust (loader k) (λ k', Ok (encode k'))
    (λ _, Ok (bytes "kind: ConfigMap")) builder (λ m, Ok m).

Definition kenvPlain : kustomize.Kust := kust plainDescriptor (env := env).
Definition kenvOrigin : kustomize.Kust := kust originDescriptor (env := env).
Definition kenvDeprecated : kustomize.Kust :=
  kust deprecatedDescriptor (env := env).

Definition options (annotations : bool) : kustomize.RendererOptions :=
  kustomize.mkRendererOptions [] annotations LoadRestrictionsRootOnly None.

Definition engine (annotations : bool) : kustomize.Engine :=
  kustomize.mkEngine memFs (options annotations).

Definition appSource : kustomize.Source :=
  kustomize.mkSource "/app" LoadRestrictionsUnknown.


(** An engine whose warning handler is [WarningFail]. *)
Definition engineFail : kustomize.Engine :=
  kustomize.mkEngine memFs
    (kustomize.mkRendererOptions [] false LoadRestrictionsRootOnly
                                 (Some kustomize.WarningFail)).

(** The overlay root, patched through a union filesystem. *)
Definition patch : list union.Option :=
  [union.WithOverride "/app/kustomization.yaml" (bytes "patched")].

Definition composedFs : FileSystem :=
  Adapter (CopyOnWriteFs (MemMapFs 0) (MemMapFs 1)).

Definition composedWorld : World :=
  (union.NewFs (env := env) memFs patch (world1 plainDescriptor)).2.

(** A union whose overlay is the base itself. *)
Definition sharedFs : FileSystem :=
  Adapter (CopyOnWriteFs (MemMapFs 0) (MemMapFs 0)).

Definition someOps : list MutOp :=
  [OpWriteFile "/app/kustomization.yaml" (bytes "changed");
   OpMkdirAll "/app/sub"; OpCreate "/app/sub/new.yaml";
   OpMkdir "/tmp"; OpRemoveAll "/app"].

(** The repository's tests, as programs. *)
Definition TestNewFs : M (list (outcome (list byte))) :=
  base ← utilfs.NewMemoryFs;
  _ ← utilfs.WriteFile (env := env) base "/base.txt" (bytes "base content");
  _ ← utilfs.WriteFile (env := env) base "/override.txt" (bytes "original");
  unionFs ← union.NewFs (env := env) base
    [union.WithOverride "/overlay.txt" (bytes "overlay content");
     union.WithOverride "/override.txt" (bytes "overridden")];
  lift (λ w, Ok [utilfs.ReadFile (env := env) unionFs "/base.txt" w;
                 utilfs.ReadFile (env := env) unionFs "/overlay.txt" w;
                 utilfs.ReadFile (env := env) unionFs "/override.txt" w]).

Definition TestCleanedAbs : M (list (outcome (string * string))) :=
  fsys ← utilfs.NewMemoryFs;
  _ ← utilfs.MkdirAll (env := env) fsys "/test/dir";
  _ ← utilfs.WriteFile (env := env) fsys "/test/dir/file.txt"
        (bytes "content");
  lift (λ w,
    Ok [utilfs.CleanedAbs (env := env) fsys "/test/dir" w;
        utilfs.CleanedAbs (env := env) fsys "/test/dir/file.txt" w;
        utilfs.CleanedAbs (env := env) fsys "/nonexistent/path" w]).

Definition TestNewReadOnlyFs
    : M (outcome (list byte) * outcome unit * outcome unit) :=
  base ← utilfs.NewMemoryFs;
  _ ← utilfs.WriteFile (env := env) base "/readonly.txt"
        (bytes "readonly content");
  let readOnly := utilfs.NewReadOnlyFs (env := env) base in
  lift (λ w, Ok (utilfs.ReadFile (env := env) readOnly "/readonly.txt" w,
                 (utilfs.WriteFile (env := env) readOnly "/newfile.txt"
                    (bytes "should fail") w).1,
                 (utilfs.Mkdir (env := env) readOnly "/newdir" w).1)).

Definition TestRemoveAll : M bool :=
  fsys ← utilfs.NewMemoryFs;
  _ ← utilfs.MkdirAll (env := env) fsys "/remove/nested";
  _ ← utilfs.WriteFile (env := env) fsys "/remove/nested/file.txt"
        (bytes "content");
  _ ← utilfs.RemoveAll (env := env) fsys "/remove";
  lift (λ w, Ok (utilfs.Exists (env := env) fsys "/remove" w)).

(** [TestSuppressStderr_StderrRestoration]: what [os.Stderr] is during the
    call, and after it. *)
Definition TestSuppressStderr : M (nat * nat) :=
  during ← utilio.SuppressStderr (lift (λ w, Ok (Stderr w)));
  lift (λ w, Ok (during, Stderr w)).

(** What a render returns, and the world it leaves. *)
Definition rendered (annotations : bool) (k : kustomize.Kustomization)
    : list kustomize.Unstructured :=
  match (kustomize.Run (env := env) (kenv := kust k (env := env))
                       (engine annotations)
                       appSource ∅ (world1 k)).1 with
  | Ok docs => docs
  | _ => []
  end.

Definition renderedWorld (annotations : bool) (k : kustomize.Kustomization)
    : World :=
  (kustomize.Run (env := env) (kenv := kust k (env := env))
                       (engine annotations)
                 appSource ∅ (world1 k)).2.

End sample.

(** ** Vocabulary of the statements about renders *)

(** Which [*os.File] objects are closed. *)
Definition closed_flags (w : World) : gmap nat bool := of_closed <$> files w.

(** The part of the world that is not a filesystem. *)
Definition process_state (w : World)
    : gmap nat OsFile * nat * nat * list BuildCall :=
  (files w, Stderr w, nofile w, builds w).

(** The world a build leaves behind: the builder was called once, the two
    ends of the pipe exist and are closed, nothing else changed. *)
Definition after_build (call : BuildCall) (r wr : nat) (w : World) : World :=
  mkWorld (heap w) (disk w)
          (<[r := mkOsFile true []]> (<[wr := mkOsFile true []]> (files w)))
          (Stderr w) (nofile w) (builds w ++ [call]).

Section render_vocabulary.
Context {env : Env} {kenv : kustomize.Kust}.

(** Lines 113-153 of [Run]: what follows the warning handler. *)
Definition build_and_convert (e : kustomize.Engine) (input : kustomize.Source)
    (values : gmap string string) (kust : kustomize.Kustomization)
    (name : string) : M (list kustomize.Unstructured) :=
  '(fsys, addedOriginAnnotations) ←
    kustomize.prepareFilesystem e (kustomize.Source_Path input) kust name
                                values;
  resMap ←
    wrap (Errorf "failed to run kustomize for path %q: %w"
                 [kustomize.Source_Path input])
         (utilio.SuppressStderr
            (wrap (Errorf "kustomizer run failed: %w" [])
                  (kustomize.kustomizer_Run
                     (kustomize.effective_restrictions e input) fsys
                     (kustomize.Source_Path input))));
  resMap ←
    lift (λ _, kustomize.apply_plugins (kustomize.Plugins (kustomize.opts e))
                 (kustomize.Source_Path input) resMap);
  result ← lift (λ _, kustomize.convertResources e resMap
                        (kustomize.Source_Path input));
  ret (if addedOriginAnnotations : bool
       then kustomize.removeOriginAnnotation <$> result
       else result).

(** The call of the builder that a render of [input] makes. *)
Definition builder_call (e : kustomize.Engine) (input : kustomize.Source)
    (fsys : FileSystem) : BuildCall :=
  mkBuildCall (kustomize.effective_restrictions e input) fsys
              (kustomize.Source_Path input).

(** The descriptor [prepareFilesystem] encodes when it requests origin
    annotations itself (line 183 of kustomize_engine.go). *)
Definition with_origin (kust : kustomize.Kustomization)
    : kustomize.Kustomization :=
  kustomize.mkKustomization
    (kustomize.BuildMetadata kust ++ [kustomize.OriginAnnotations])%list
    (kustomize.DeprecatedFields kust) (kustomize.OtherFields kust).

(** One resource can be converted, and converts to one document: the body
    of the loop of [convertResources]. *)
Definition convertible (res : kustomize.Resource) : Prop :=
  ∃ m obj, kustomize.res_Map res = Ok m
           ∧ kustomize.FromUnstructured m = Ok obj.

Definition converts_to (e : kustomize.Engine) (inputPath : string)
    (res : kustomize.Resource) (doc : kustomize.Unstructured) : Prop :=
  ∃ m obj, kustomize.res_Map res = Ok m
           ∧ kustomize.FromUnstructured m = Ok obj
           ∧ doc = kustomize.addSourceAnnotationsToObject e obj inputPath res.

End render_vocabulary.

(** ** More sample inputs *)

Module cases.

(** An environment in which every resolution of symbolic links fails. *)
Definition envBrokenLinks : Env :=
  mkEnv (λ p _, Ok p) (λ _ _, Err sample.unsupported)
        (λ _ _ _, Err sample.unsupported) (λ _ _ _, Err sample.unsupported)
        (λ _ _ _, fail sample.unsupported) (λ _, sample.nullFs).

(** The sample tree under a union without overrides, and the patched union
    after one more write through it. *)
Definition plainUnionWorld : World :=
  (union.NewFs (env := sample.env) sample.memFs [] sample.worldPlain).2.

Definition writtenWorld : World :=
  (utilfs.WriteFile (env := sample.env) sample.composedFs "/app/new.yaml"
     (sample.bytes "new") sample.composedWorld).2.

(** An override together with a caller-supplied overlay. *)
Definition overrideAndOverlay : list union.Option :=
  [union.WithOverride "/app/kustomization.yaml" (sample.bytes "patched");
   union.WithOverlayFs sample.memFs].

(** Two overrides of which one is a directory of the other. *)
Definition clashingOverrides : list union.Option :=
  [union.WithOverrides
     (<["/a/b" := sample.bytes "inner"]> {[ "/a" := sample.bytes "outer" ]})].

(** A function that writes a line to whatever [os.Stderr] is. *)
Definition noise : M unit := λ w, os.Fprintln (Stderr w) "noise" w.

(** The sample world with room for two open files only. *)
Definition worldFewDescriptors : World :=
  mkWorld {[ 0 := sample.appTree sample.plainDescriptor ]} ∅
          {[ 2 := mkOsFile false [] ]} 2 2 [].

(** An engine that ignores warnings and adds source annotations. *)
Definition engineIgnore : kustomize.Engine :=
  kustomize.mkEngine sample.memFs
    (kustomize.mkRendererOptions [] true LoadRestrictionsRootOnly
                                 (Some kustomize.WarningIgnore)).

(** A resource that converts and one whose [Map] fails. *)
Definition goodResource : kustomize.Resource :=
  kustomize.mkResource
    (Ok (kustomize.mkUnstructured None "kind: ConfigMap"))
    "ConfigMap/cm" (Ok None).

Definition badResource : kustomize.Resource :=
  kustomize.mkResource (Err (ErrorString "not a mapping")) "Secret/broken"
                       (Ok None).

(** A source that sets its own load restrictions, and sample values. *)
Definition openSource : kustomize.Source :=
  kustomize.mkSource "/app" LoadRestrictionsNone.

Definition someValues : gmap string string := {[ "replicas" := "3" ]}.

(** The world after the overlay for [someValues] has been prepared. *)
Definition valuesWorld : World :=
  (kustomize.prepareFilesystem (env := sample.env)
     (kenv := sample.kenvPlain) (sample.engine true) "/app"
     sample.plainDescriptor "kustomization.yaml" someValues
     sample.worldPlain).2.

End cases.

(** * Theorems *)

Import kustomize.

Section utilio_facts.

Lemma Close_Stderr f w : Stderr (os.Close f w).2 = Stderr w.
Proof.
  unfold os.Close. destruct (files w !! f) as [[[] d]|]; reflexivity.
Qed.

Lemma Pipe_Stderr w : Stderr (os.Pipe w).2 = Stderr w.
Proof. unfold os.Pipe. case_decide; reflexivity. Qed.

Lemma Pipe_builds w : builds (os.Pipe w).2 = builds w.
Proof. unfold os.Pipe. case_decide; reflexivity. Qed.

Lemma Close_builds f w : builds (os.Close f w).2 = builds w.
Proof.
  unfold os.Close. destruct (files w !! f) as [[[] d]|]; reflexivity.
Qed.

Lemma Pipe_fails w e w1 :
  os.Pipe w = (Err e, w1) → w1 = w ∧ e = SyscallError "pipe2" (Errno EMFILE).
Proof. unfold os.Pipe. case_decide; intros [= <- <-]; done. Qed.

Lemma Pipe_no_panic w v w1 : os.Pipe w ≠ (Panic v, w1).
Proof. unfold os.Pipe. case_decide; discriminate. Qed.

(** Claim C10, as amended.  Whatever [fn] does (return, fail or panic),
    [os.Stderr] holds after [SuppressStderr fn] the file it held before.
    When the pipe could be created, [SuppressStderr fn] ends the way [fn]
    ended when run with [os.Stderr] redirected to the pipe: same value, same
    error, same panic.  When the pipe could not be created, [fn] is not run,
    the world is untouched and the result is the pipe error wrapped as
    "failed to create pipe". *)
Theorem SuppressStderr_restores_and_returns {A} (fn : M A) (w : World) :
  Stderr (utilio.SuppressStderr fn w).2 = Stderr w
  ∧ match os.Pipe w with
    | (Ok (r, wr), w1) =>
        (utilio.SuppressStderr fn w).1 = (fn (set_Stderr wr w1)).1
    | (Err err, w1) =>
        utilio.SuppressStderr fn w
        = (Err (Errorf "failed to create pipe: %w" [] err), w)
    | (Panic _, _) => False
    end.
Proof.
  unfold utilio.SuppressStderr.
  destruct (os.Pipe w) as [[[r wr]|err|v] w1] eqn:HP.
  - destruct (fn (set_Stderr wr w1)) as [res w3] eqn:Hfn. simpl.
    split; [|reflexivity].
    rewrite !Close_Stderr. reflexivity.
  - apply Pipe_fails in HP as [-> ->]. split; reflexivity.
  - exfalso. eapply Pipe_no_panic, HP.
Qed.

End utilio_facts.


Section adapter_facts.
Context {env : Env}.

(** Claim C7.  [CleanedAbs] replaces an empty path by ".", makes it
    absolute, and resolves symbolic links exactly when the backend is
    [afero.OsFs] itself.  Of the resulting path: a directory is returned
    with an empty file name; a file is returned as its parent directory and
    its base name; a path that does not exist gives the [PathError] "stat"
    carrying [fs.ErrNotExist].  That error is the only error of [CleanedAbs]
    that [os.IsNotExist] accepts, and [errors.Is] finds [fs.ErrNotExist] in
    it.  On disk, where a missing path already stops the resolution of
    links, the error returned wraps the resolver's error, so that
    [errors.Is] finds [fs.ErrNotExist] in the one when it does in the
    other. *)
Theorem CleanedAbs_resolves (a : Fs) (path : string) (w : World) :
  let path' := if decide (path = "") then "." else path in
  (∀ absPath resolved,
     filepath_Abs path' w = Ok absPath →
     (if adapter.is_OsFs a then filepath_EvalSymlinks absPath w = Ok resolved
      else resolved = absPath) →
     match afero.Stat a resolved w with
     | Ok info =>
         adapter.CleanedAbs a path w
         = Ok (if fi_IsDir info then (resolved, "")
               else (filepath_Dir resolved, filepath_Base resolved))
     | Err err =>
         adapter.CleanedAbs a path w
         = Err (if os_IsNotExist err then PathError "stat" path' ErrNotExist
                else Errorf "stat error on %q: %w" [path'] err)
     | Panic v => adapter.CleanedAbs a path w = Panic v
     end)
  ∧ (∀ e, adapter.CleanedAbs a path w = Err e →
          (os_IsNotExist e = true ↔ e = PathError "stat" path' ErrNotExist))
  ∧ errors_Is (PathError "stat" path' ErrNotExist) ErrNotExist = true
  ∧ (∀ absPath err,
       filepath_Abs path' w = Ok absPath →
       adapter.is_OsFs a = true →
       filepath_EvalSymlinks absPath w = Err err →
       adapter.CleanedAbs a path w
       = Err (Errorf "evalsymlink failure on %q: %w" [path'] err)
       ∧ errors_Is (Errorf "evalsymlink failure on %q: %w" [path'] err)
                   ErrNotExist
         = errors_Is err ErrNotExist).
Proof.
  intros path'. split; [|split; [|split]].
  - intros absPath resolved Habs Hres.
    unfold adapter.CleanedAbs. fold path'. rewrite Habs.
    destruct (adapter.is_OsFs a).
    + rewrite Hres.
      destruct (afero.Stat a resolved w) as [info|err|v];
        [|destruct (os_IsNotExist err)|]; try reflexivity.
      destruct (fi_IsDir info); reflexivity.
    + subst resolved.
      destruct (afero.Stat a absPath w) as [info|err|v];
        [|destruct (os_IsNotExist err)|]; try reflexivity.
      destruct (fi_IsDir info); reflexivity.
  - intros e. unfold adapter.CleanedAbs. fold path'.
    destruct (filepath_Abs path' w) as [absPath|err|v];
      [|intros [= <-]; split; discriminate|discriminate].
    assert (Hstat : ∀ r,
      match afero.Stat a r w with
      | Err err =>
          if os_IsNotExist err then Err (PathError "stat" path' ErrNotExist)
          else Err (Errorf "stat error on %q: %w" [path'] err)
      | Panic v => Panic v
      | Ok info =>
          if fi_IsDir info then Ok (r, "")
          else Ok (filepath_Dir r, filepath_Base r)
      end = Err e →
      os_IsNotExist e = true ↔ e = PathError "stat" path' ErrNotExist).
    { intros r. destruct (afero.Stat a r w) as [info|err|v];
        [destruct (fi_IsDir info); discriminate| |discriminate].
      destruct (os_IsNotExist err); intros [= <-]; split; try done. }
    destruct (adapter.is_OsFs a).
    + destruct (filepath_EvalSymlinks absPath w) as [r|err|v];
        [apply Hstat| |discriminate].
      intros [= <-]. split; discriminate.
    + apply Hstat.
  - reflexivity.
  - intros absPath err Habs Hos Hev.
    unfold adapter.CleanedAbs. fold path'. rewrite Habs, Hos, Hev.
    split; reflexivity.
Qed.

End adapter_facts.

Section utilfs_facts.
Context {env : Env}.


(** Property X1.  Both forms of [NewReadOnlyFs], the afero-backed one and
    the wrapper, refuse the five mutating calls and leave the world as it
    was. *)
Lemma NewReadOnlyFs_rejects_mutation (base : FileSystem) (path : string)
    (data : list byte) (w : World) :
  let r := utilfs.NewReadOnlyFs base in
  (∃ e, utilfs.Create r path w = (Err e, w))
  ∧ (∃ e, utilfs.Mkdir r path w = (Err e, w))
  ∧ (∃ e, utilfs.MkdirAll r path w = (Err e, w))
  ∧ (∃ e, utilfs.RemoveAll r path w = (Err e, w))
  ∧ (∃ e, utilfs.WriteFile r path data w = (Err e, w)).
Proof.
  unfold utilfs.NewReadOnlyFs.
  destruct (utilfs.Unwrap base) as [afs|]; simpl; repeat split; eexists;
    reflexivity.
Qed.

End utilfs_facts.

Section cache_facts.

Lemma string_leb_spec s1 s2 :
  String.leb s1 s2 = true ↔ String_as_OT.lt s1 s2 ∨ s1 = s2.
Proof.
  unfold String.leb, String_as_OT.lt.
  change (String_as_OT.compare s1 s2) with (String.compare s1 s2).
  destruct (String.compare s1 s2) eqn:Hc.
  - apply String.compare_eq_iff in Hc. tauto.
  - tauto.
  - split; [discriminate|]. intros [?| ->]; [discriminate|].
    pose proof (String.compare_antisym s2 s2) as Ha.
    rewrite Hc in Ha. discriminate.
Qed.

Lemma string_leb_trans s1 s2 s3 :
  String.leb s1 s2 = true → String.leb s2 s3 = true → String.leb s1 s3 = true.
Proof.
  rewrite !string_leb_spec. intros [H12| ->] [H23| ->]; auto.
  left. etrans; eassumption.
Qed.

Global Instance entry_le_trans : Transitive entry_le.
Proof. intros x y z. unfold entry_le. apply string_leb_trans. Qed.

Global Instance entry_le_total : Total entry_le.
Proof. intros x y. unfold entry_le. apply String.leb_total. Qed.

Lemma sorted_entries_unique (l1 l2 : list (string * string)) :
  NoDup l1.*1 → l1 ≡ₚ l2 →
  merge_sort entry_le l1 = merge_sort entry_le l2.
Proof.
  intros Hnd Hperm.
  apply (StronglySorted_unique_strong entry_le).
  - intros x1 x2 Hx1 Hx2 H12 H21.
    assert (x1.1 = x2.1) as Hk by (apply String.leb_antisym; assumption).
    rewrite merge_sort_Permutation in Hx1, Hx2. rewrite <- Hperm in Hx2.
    destruct x1 as [k1 v1], x2 as [k2 v2]. simpl in Hk. subst k2.
    f_equal.
    assert (Some v1 = Some v2) as [= ->]; [|reflexivity].
    rewrite <- (elem_of_list_to_map_1 (M := gmap string) l1 k1 v1 Hnd Hx1).
    apply (elem_of_list_to_map_1 (M := gmap string)); assumption.
  - apply StronglySorted_merge_sort; apply _.
  - apply StronglySorted_merge_sort; apply _.
  - rewrite !merge_sort_Permutation. exact Hperm.
Qed.

Lemma assign_all_list_to_map ins : assign_all ins = list_to_map (reverse ins).
Proof.
  unfold assign_all. induction ins as [|[k v] l IH] using rev_ind.
  - reflexivity.
  - rewrite foldl_app, reverse_app. simpl. rewrite IH. reflexivity.
Qed.

Lemma assign_all_perm ins1 ins2 :
  NoDup ins1.*1 → ins1 ≡ₚ ins2 → assign_all ins1 = assign_all ins2.
Proof.
  intros Hnd Hp. rewrite !assign_all_list_to_map.
  apply list_to_map_proper.
  - rewrite fmap_reverse, reverse_Permutation. exact Hnd.
  - rewrite !reverse_Permutation. exact Hp.
Qed.

(** Claim C9.  Whatever the order in which the runtime hands out the
    entries of a map ([visit1], [visit2]), two specifications with the same
    [Path] and the same [Values] content get the same default key; in
    particular when the two maps were filled by the same assignments in a
    different order.  The path-only key is the [Path], so specifications
    with the same [Path] get the same key whatever their [Values]. *)
Theorem cache_keys_deterministic
    (visit1 visit2 : gmap string string → list (string * string))
    (Hv1 : ∀ m, visit1 m ≡ₚ map_to_list m)
    (Hv2 : ∀ m, visit2 m ≡ₚ map_to_list m) :
  (∀ s1 s2, Path s1 = Path s2 → Values s1 = Values s2 →
            DefaultCacheKey visit1 s1 = DefaultCacheKey visit2 s2)
  ∧ (∀ p ins1 ins2, NoDup ins1.*1 → ins1 ≡ₚ ins2 →
       DefaultCacheKey visit1 (mkKustomizationSpec p (assign_all ins1))
       = DefaultCacheKey visit2 (mkKustomizationSpec p (assign_all ins2)))
  ∧ (∀ s1 s2, Path s1 = Path s2 → PathOnlyCacheKey s1 = PathOnlyCacheKey s2)
  ∧ (∀ s, PathOnlyCacheKey s = Path s).
Proof.
  assert (Hkey : ∀ s1 s2, Path s1 = Path s2 → Values s1 = Values s2 →
            DefaultCacheKey visit1 s1 = DefaultCacheKey visit2 s2).
  { intros s1 s2 HP HV. unfold DefaultCacheKey, dump_ForHash.
    rewrite HP, HV.
    rewrite (sorted_entries_unique (visit1 (Values s2)) (visit2 (Values s2)));
      [reflexivity| |].
    - rewrite Hv1. apply NoDup_fst_map_to_list.
    - rewrite Hv1, Hv2. reflexivity. }
  split; [exact Hkey|split; [|split]].
  - intros p ins1 ins2 Hnd Hp. apply Hkey; [reflexivity|].
    simpl. apply assign_all_perm; assumption.
  - intros s1 s2 HP. exact HP.
  - reflexivity.
Qed.
End cache_facts.

Section frame.

Lemma cell_data_set_cell_ne c c' m w :
  c ≠ c' → cell_data c (set_cell c' m w) = cell_data c w.
Proof.
  destruct c as [a|], c' as [a'|]; simpl; try done.
  intros Hne. apply lookup_total_insert_ne. congruence.
Qed.

Lemma ww_mono {A} cs cs' (m : M A) w :
  cs ⊆ cs' → writes_within cs m w → writes_within cs' m w.
Proof. intros Hsub Hm c Hc. apply Hm. intros Hin. apply Hc, Hsub, Hin. Qed.

Lemma ww_ret {A} cs (a : A) w : writes_within cs (ret a) w.
Proof. intros c _. reflexivity. Qed.

Lemma ww_fail {A} cs e w : writes_within cs (@fail A e) w.
Proof. intros c _. reflexivity. Qed.

Lemma ww_lift {A} cs (f : World → outcome A) w : writes_within cs (lift f) w.
Proof. intros c _. reflexivity. Qed.

Lemma ww_bind {A B} cs (m : M A) (k : A → M B) w :
  writes_within cs m w →
  (∀ a w', m w = (Ok a, w') → writes_within cs (k a) w') →
  writes_within cs (bind m k) w.
Proof.
  intros Hm Hk c Hc. unfold bind.
  specialize (Hm c Hc).
  destruct (m w) as [[a|e|v] w'] eqn:Hmw; simpl in *; try done.
  rewrite (Hk a w' eq_refl c Hc). exact Hm.
Qed.

Lemma ww_wrap {A} cs f (m : M A) w :
  writes_within cs m w → writes_within cs (wrap f m) w.
Proof.
  intros Hm c Hc. specialize (Hm c Hc). unfold wrap.
  destruct (m w) as [[a|e|v] w']; exact Hm.
Qed.

Lemma ww_on_cell {A} c (f : MemMapData → outcome A * MemMapData) w :
  writes_within [c] (afero.on_cell c f) w.
Proof.
  intros c' Hc'. unfold afero.on_cell.
  destruct (f (cell_data c w)) as [r m']. simpl.
  apply cell_data_set_cell_ne. set_solver.
Qed.

Lemma ww_File_Write f data w :
  writes_within (file_cells f) (afero.File_Write f data) w.
Proof.
  revert w. induction f as [c name [] | b IHb l IHl]; intros w; simpl.
  - apply ww_on_cell.
  - apply ww_fail.
  - apply ww_bind.
    + eapply ww_mono; [|apply IHl]. set_solver.
    + intros _ w' _. eapply ww_mono; [|apply IHb]. set_solver.
Qed.

Lemma ww_MkdirAll fs name w :
  writes_within (afero.writable_cells fs) (afero.MkdirAll fs name) w.
Proof.
  revert w. induction fs as [a| |s IH|b IHb l IHl]; intros w; simpl.
  - apply ww_on_cell.
  - apply ww_on_cell.
  - apply ww_fail.
  - intros c Hc.
    destruct (afero.IsDir b name w) as [[]|e|v]; try done; apply IHl, Hc.
Qed.

Lemma ww_Mkdir fs name w :
  writes_within (afero.writable_cells fs) (afero.Mkdir fs name) w.
Proof.
  destruct fs as [a| |s|b l]; simpl.
  - apply ww_on_cell.
  - apply ww_on_cell.
  - apply ww_fail.
  - intros c Hc.
    destruct (afero.IsDir b name w) as [[]|e|v]; try done;
      apply ww_MkdirAll, Hc.
Qed.

Lemma ww_RemoveAll fs name w :
  writes_within (afero.writable_cells fs) (afero.RemoveAll fs name) w.
Proof.
  revert w. induction fs as [a| |s IH|b IHb l IHl]; intros w; simpl.
  - apply ww_on_cell.
  - apply ww_on_cell.
  - apply ww_fail.
  - intros c Hc. specialize (IHl w c Hc).
    destruct (afero.RemoveAll l name w) as [[[]|e|v] w']; simpl in *; try done.
    destruct e; simpl; try done.
    case_decide; [|done].
    destruct (afero.Stat b name w'); done.
Qed.

Lemma OpenFile_handle fs name w f w' :
  afero.OpenFile fs name w = (Ok f, w') →
  file_cells f ⊆ afero.writable_cells fs.
Proof.
  revert w f w'. induction fs as [a| |s IH|b IHb l IHl]; intros w f w'; simpl.
  - unfold afero.on_cell, afero.mem_OpenFile.
    destruct (cell_data (CellMem a) w !! name) as [[]|]; intros [= <- <-];
      set_solver.
  - unfold afero.on_cell, afero.mem_OpenFile.
    destruct (cell_data CellDisk w !! name) as [[]|]; intros [= <- <-];
      set_solver.
  - discriminate.
  - unfold mbind, M_bind. unfold bind at 1. unfold lift at 1.
    destruct (afero.isBaseFile b l name w) as [[]|e|v]; try discriminate.
    + unfold bind.
      destruct (afero.copyToLayer b l (afero.OpenFile l name) name w)
        as [[[]|e|v] w1]; try discriminate.
      apply IHl.
    + destruct (afero.IsDir b (filepath_Dir name) w) as [[]|e|v];
        try discriminate.
      * unfold mbind, M_bind. unfold bind.
        destruct (afero.MkdirAll l (filepath_Dir name) w) as [[[]|e|v] w1];
          try discriminate.
        apply IHl.
      * destruct (afero.IsDir l (filepath_Dir name) w) as [[]|e|v];
          try discriminate.
        apply IHl.
      * destruct (negb (os_IsNotExist e)); [discriminate|].
        destruct (afero.IsDir l (filepath_Dir name) w) as [[]|e'|v];
          try discriminate.
        apply IHl.
Qed.

Lemma ww_OpenFile fs name w :
  writes_within (afero.writable_cells fs) (afero.OpenFile fs name) w.
Proof.
  revert w. induction fs as [a| |s IH|b IHb l IHl]; intros w; simpl.
  - apply ww_on_cell.
  - apply ww_on_cell.
  - apply ww_fail.
  - unfold mbind, M_bind. apply ww_bind; [apply ww_lift|].
    intros [] w1 _.
    + apply ww_bind; [|intros; apply IHl].
      unfold afero.copyToLayer. unfold mbind, M_bind.
      apply ww_bind; [apply ww_lift|]. intros bfh w2 _.
      apply ww_bind; [apply ww_lift|]. intros ex w3 _.
      apply ww_bind; [destruct ex; [apply ww_ret|apply ww_MkdirAll]|].
      intros _ w4 _.
      apply ww_bind; [apply IHl|]. intros lfh w5 Hlfh.
      apply ww_bind; [apply ww_lift|]. intros data w6 _.
      eapply ww_mono; [|apply ww_File_Write].
      eapply OpenFile_handle, Hlfh.
    + intros c Hc.
      destruct (afero.IsDir b (filepath_Dir name) w1) as [[]|e|v]; try done.
      * revert c Hc. unfold mbind, M_bind.
        apply ww_bind; [apply ww_MkdirAll|]. intros; apply IHl.
      * destruct (afero.IsDir l (filepath_Dir name) w1) as [[]|e|v];
          try done.
        apply IHl, Hc.
      * destruct (negb (os_IsNotExist e)); [done|].
        destruct (afero.IsDir l (filepath_Dir name) w1) as [[]|e'|v];
          try done.
        apply IHl, Hc.
Qed.

Lemma ww_WriteFile fs name data w :
  writes_within (afero.writable_cells fs) (afero.WriteFile fs name data) w.
Proof.
  unfold afero.WriteFile. unfold mbind, M_bind.
  apply ww_bind; [apply ww_OpenFile|].
  intros f w' Hf. eapply ww_mono; [|apply ww_File_Write].
  eapply OpenFile_handle, Hf.
Qed.

End frame.

Section reads.

Lemma agree_on_app cs1 cs2 w1 w2 :
  agree_on (cs1 ++ cs2) w1 w2 ↔ agree_on cs1 w1 w2 ∧ agree_on cs2 w1 w2.
Proof.
  unfold agree_on. split.
  - intros H. split; intros c Hc; apply H; set_solver.
  - intros [H1 H2] c [Hc|Hc]%elem_of_app; auto.
Qed.

Lemma agree_on_mem a w1 w2 :
  agree_on [CellMem a] w1 w2 → heap w1 !!! a = heap w2 !!! a.
Proof. intros H. apply (H (CellMem a)). set_solver. Qed.

Lemma agree_on_disk w1 w2 : agree_on [CellDisk] w1 w2 → disk w1 = disk w2.
Proof. intros H. apply (H CellDisk). set_solver. Qed.

Lemma Stat_agree fs name w1 w2 :
  agree_on (afero.all_cells fs) w1 w2 →
  afero.Stat fs name w1 = afero.Stat fs name w2.
Proof.
  induction fs as [a| |s IH|b IHb l IHl]; simpl; intros Hag.
  - rewrite (agree_on_mem _ _ _ Hag). reflexivity.
  - rewrite (agree_on_disk _ _ Hag). reflexivity.
  - auto.
  - apply agree_on_app in Hag as [Hb Hl].
    rewrite IHb, IHl by assumption. reflexivity.
Qed.

Lemma IsDir_agree fs name w1 w2 :
  agree_on (afero.all_cells fs) w1 w2 →
  afero.IsDir fs name w1 = afero.IsDir fs name w2.
Proof.
  intros Hag. unfold afero.IsDir. rewrite (Stat_agree _ _ _ _ Hag).
  reflexivity.
Qed.

Lemma isBaseFile_agree b l name w1 w2 :
  agree_on (afero.all_cells b) w1 w2 → agree_on (afero.all_cells l) w1 w2 →
  afero.isBaseFile b l name w1 = afero.isBaseFile b l name w2.
Proof.
  intros Hb Hl. unfold afero.isBaseFile.
  rewrite (Stat_agree _ _ _ _ Hb), (Stat_agree _ _ _ _ Hl). reflexivity.
Qed.

Lemma Open_agree fs name w1 w2 :
  agree_on (afero.all_cells fs) w1 w2 →
  afero.Open fs name w1 = afero.Open fs name w2.
Proof.
  induction fs as [a| |s IH|b IHb l IHl]; simpl; intros Hag.
  - rewrite (agree_on_mem _ _ _ Hag). reflexivity.
  - rewrite (agree_on_disk _ _ Hag). reflexivity.
  - auto.
  - apply agree_on_app in Hag as [Hb Hl].
    rewrite (isBaseFile_agree _ _ _ _ _ Hb Hl), (IsDir_agree l _ _ _ Hl),
      (IsDir_agree b _ _ _ Hb), IHb, IHl by assumption.
    reflexivity.
Qed.

Lemma File_ReadAll_agree f w1 w2 :
  agree_on (file_read_cells f) w1 w2 →
  afero.File_ReadAll f w1 = afero.File_ReadAll f w2.
Proof.
  induction f as [c name wr|b IHb l IHl]; simpl; intros Hag.
  - rewrite (Hag c) by set_solver. reflexivity.
  - apply agree_on_app in Hag as [_ Hl]. auto.
Qed.

Lemma Open_handle fs name w f :
  afero.Open fs name w = Ok f → file_read_cells f ⊆ afero.all_cells fs.
Proof.
  revert f. induction fs as [a| |s IH|b IHb l IHl]; simpl; intros f.
  - unfold afero.mem_Open. destruct (_ !! name); intros [= <-]; set_solver.
  - unfold afero.mem_Open. destruct (_ !! name); intros [= <-]; set_solver.
  - apply IH.
  - destruct (afero.isBaseFile b l name w) as [[]|e|v]; simpl; try discriminate.
    + intros H. apply IHb in H. set_solver.
    + destruct (afero.IsDir l name w) as [[]|e|v]; simpl; try discriminate.
      * destruct (afero.IsDir b name w) as [[]|e|v].
        -- destruct (afero.Open b name w) as [bf|e|v]; simpl; try discriminate.
           destruct (afero.Open l name w) as [lf|e|v]; simpl; try discriminate.
           intros [= <-]. simpl.
           specialize (IHb bf eq_refl). specialize (IHl lf eq_refl).
           set_solver.
        -- intros H. apply IHl in H. set_solver.
        -- intros H. apply IHl in H. set_solver.
        -- intros H. apply IHl in H. set_solver.
      * intros H. apply IHl in H. set_solver.
Qed.

Lemma ReadFile_agree fs name w1 w2 :
  agree_on (afero.all_cells fs) w1 w2 →
  afero.ReadFile fs name w1 = afero.ReadFile fs name w2.
Proof.
  intros Hag. unfold afero.ReadFile. rewrite (Open_agree _ _ _ _ Hag).
  destruct (afero.Open fs name w2) as [f|e|v] eqn:Hopen; simpl; try reflexivity.
  apply File_ReadAll_agree. intros c Hc. apply Hag.
  eapply Open_handle; eassumption.
Qed.

(** A name the filesystem can stat can be opened. *)
Lemma Stat_Ok_Open fs name w fi :
  afero.Stat fs name w = Ok fi → ∃ f, afero.Open fs name w = Ok f.
Proof.
  revert fi. induction fs as [a| |s IH|b IHb l IHl]; simpl; intros fi.
  - unfold afero.mem_Stat, afero.mem_Open.
    destruct (_ !! name); [eauto|discriminate].
  - unfold afero.mem_Stat, afero.mem_Open.
    destruct (_ !! name); [eauto|discriminate].
  - apply IH.
  - unfold afero.isBaseFile, afero.IsDir.
    destruct (afero.Stat l name w) as [fl|el|vl] eqn:Hl; simpl.
    + intros _. destruct (IHl _ eq_refl) as [lf Hlf].
      destruct (fi_IsDir fl); simpl; [|eauto].
      destruct (afero.Stat b name w) as [fb|eb|vb] eqn:Hb; simpl; [|eauto|eauto].
      destruct (fi_IsDir fb); [|eauto].
      destruct (IHb _ eq_refl) as [bf Hbf]. rewrite Hbf, Hlf. simpl. eauto.
    + destruct (afero.cow_isNotExist el) eqn:Hne; [|discriminate].
      intros Hb. rewrite Hb. simpl. eauto.
    + discriminate.
Qed.

(** Overlay precedence, for the copy-on-write composition. *)
Lemma CopyOnWriteFs_ReadFile_layer b l name w fi :
  afero.Stat l name w = Ok fi →
  afero.ReadFile (CopyOnWriteFs b l) name w = afero.ReadFile l name w.
Proof.
  intros Hl. unfold afero.ReadFile. simpl.
  unfold afero.isBaseFile, afero.IsDir. rewrite Hl. simpl.
  destruct (fi_IsDir fi); simpl; [|reflexivity].
  destruct (afero.Stat b name w) as [fb|eb|vb] eqn:Hb; simpl; try reflexivity.
  destruct (fi_IsDir fb); [|reflexivity].
  destruct (Stat_Ok_Open _ _ _ _ Hb) as [bf ->].
  destruct (Stat_Ok_Open _ _ _ _ Hl) as [lf ->]. reflexivity.
Qed.

End reads.

Section union_facts.
Context {env : Env}.

Lemma bind_Ok {A B} (m : M A) (k : A → M B) w b w' :
  bind m k w = (Ok b, w') → ∃ a w1, m w = (Ok a, w1) ∧ k a w1 = (Ok b, w').
Proof.
  unfold bind. destruct (m w) as [[a|e|v] w1]; try discriminate. eauto.
Qed.

Lemma wrap_Ok {A} f (m : M A) w a w' :
  wrap f m w = (Ok a, w') → m w = (Ok a, w').
Proof. unfold wrap. destruct (m w) as [[a'|e|v] w1]; try discriminate; done. Qed.

Lemma write_overrides_cons ov p c rest :
  union.write_overrides ov ((p, c) :: rest)
  = bind (wrap (Errorf "failed to write override %s: %w" [p])
               (utilfs.WriteFile ov p c))
         (λ _, union.write_overrides ov rest).
Proof. reflexivity. Qed.

Lemma NewFs_inv base opts w u w0 :
  union.NewFs base opts w = (Ok u, w0) →
  ∃ cfg b l,
    union.apply_options opts (union.mkConfig ∅ None) = Ok cfg
    ∧ utilfs.Unwrap base = Some b
    ∧ u = Adapter (CopyOnWriteFs b l)
    ∧ match union.overlay cfg with
      | Some ov => utilfs.Unwrap ov = Some l ∧ w0 = w
      | None =>
          l = MemMapFs (fresh (dom (heap w)))
          ∧ union.write_overrides (Adapter l)
              (map_to_list (union.overrides cfg))
              (set_heap (<[fresh (dom (heap w)) := ∅]> (heap w)) w)
            = (Ok tt, w0)
      end.
Proof.
  unfold union.NewFs, mbind, M_bind, bind, lift.
  destruct (union.apply_options opts _) as [cfg|e|v]; try discriminate.
  destruct (union.overlay cfg) as [ov|] eqn:Hov.
  - unfold ret at 1.
    destruct (utilfs.Unwrap base) as [b|]; [|discriminate].
    destruct (utilfs.Unwrap ov) as [l|] eqn:Hl; [|discriminate].
    intros [= <- <-]. exists cfg, b, l. rewrite Hov. auto.
  - unfold utilfs.NewMemoryFs at 1. unfold adapter.New at 1.
    set (a := fresh (dom (heap w))). set (w1 := set_heap _ w).
    destruct (union.write_overrides _ _ w1) as [[[]|e|v] w2] eqn:Hwr;
      try discriminate.
    unfold ret at 1.
    destruct (utilfs.Unwrap base) as [b|]; [|discriminate].
    simpl. intros [= <- <-]. exists cfg, b, (MemMapFs a). rewrite Hov. auto.
Qed.

Lemma ww_write_overrides a entries w :
  writes_within [CellMem a]
    (union.write_overrides (Adapter (MemMapFs a)) entries) w.
Proof.
  revert w. induction entries as [|[p c] rest IH]; intros w; simpl.
  - apply ww_ret.
  - unfold mbind, M_bind. apply ww_bind; [|intros; apply IH].
    apply ww_wrap. apply (ww_WriteFile (MemMapFs a)).
Qed.

Lemma run_op_frame b l op w c :
  c ∉ afero.writable_cells l →
  cell_data c (run_op (Adapter (CopyOnWriteFs b l)) op w) = cell_data c w.
Proof.
  intros Hc. destruct op; simpl.
  - apply (ww_WriteFile (CopyOnWriteFs b l)), Hc.
  - apply (ww_OpenFile (CopyOnWriteFs b l)), Hc.
  - apply (ww_Mkdir (CopyOnWriteFs b l)), Hc.
  - apply (ww_MkdirAll (CopyOnWriteFs b l)), Hc.
  - apply (ww_RemoveAll (CopyOnWriteFs b l)), Hc.
Qed.

Lemma run_ops_frame b l ops w c :
  c ∉ afero.writable_cells l →
  cell_data c (run_ops (Adapter (CopyOnWriteFs b l)) ops w) = cell_data c w.
Proof.
  intros Hc. revert w. unfold run_ops.
  induction ops as [|op ops IH]; intros w; simpl; [reflexivity|].
  rewrite IH. apply run_op_frame, Hc.
Qed.

Lemma allocated_not_fresh c w :
  allocated c w → c ≠ CellMem (fresh (dom (heap w))).
Proof.
  intros Hal ->. simpl in Hal. exact (is_fresh (dom (heap w)) Hal).
Qed.

(** Claim C1, as amended.  Let [NewFs base opts] succeed on a live base
    whose backends the caller-supplied overlay, if there is one, does not
    write to (nothing is asked when [NewFs] creates the overlay itself).
    Then, after any sequence of [WriteFile], [Create], [Mkdir], [MkdirAll]
    and [RemoveAll] calls through the composed filesystem: only backends the
    overlay writes to have changed; every backend of the base holds what it
    held before the composition; and every file of the base reads as
    before. *)
Theorem NewFs_base_unchanged (base : FileSystem) (opts : list union.Option)
    (b : Fs) (u : FileSystem) (w w0 : World) :
  utilfs.Unwrap base = Some b →
  Forall (λ c, allocated c w) (afero.all_cells b) →
  (∀ cfg ov l,
     union.apply_options opts (union.mkConfig ∅ None) = Ok cfg →
     union.overlay cfg = Some ov → utilfs.Unwrap ov = Some l →
     ∀ c, c ∈ afero.writable_cells l → c ∉ afero.all_cells b) →
  union.NewFs base opts w = (Ok u, w0) →
  ∃ l, u = Adapter (CopyOnWriteFs b l)
       ∧ ∀ ops : list MutOp,
           (∀ c, c ∉ afero.writable_cells l →
                 cell_data c (run_ops u ops w0) = cell_data c w0)
           ∧ (∀ c, c ∈ afero.all_cells b →
                   cell_data c (run_ops u ops w0) = cell_data c w)
           ∧ (∀ path, afero.ReadFile b path (run_ops u ops w0)
                      = afero.ReadFile b path w).
Proof.
  intros Hb Hlive Hsep HNew.
  destruct (NewFs_inv _ _ _ _ _ HNew) as (cfg & b' & l & Hcfg & Hb' & -> & Hov).
  rewrite Hb in Hb'. injection Hb' as <-.
  exists l. split; [reflexivity|]. intros ops.
  assert (Hkey : ∀ c, c ∈ afero.all_cells b →
            (c ∉ afero.writable_cells l) ∧ cell_data c w0 = cell_data c w).
  { intros c Hc. destruct (union.overlay cfg) as [ov|] eqn:Hovl.
    - destruct Hov as [Hl ->]. split; [|reflexivity].
      intros Hin. exact (Hsep cfg ov l Hcfg Hovl Hl c Hin Hc).
    - destruct Hov as [-> Hwr].
      assert (c ≠ CellMem (fresh (dom (heap w)))) as Hne.
      { apply allocated_not_fresh. rewrite Forall_forall in Hlive. auto. }
      assert (c ∉ [CellMem (fresh (dom (heap w)))]) as Hnin
        by (intros ?%list_elem_of_singleton; done).
      split; [exact Hnin|].
      pose proof (ww_write_overrides _ (map_to_list (union.overrides cfg))
                    (set_heap (<[fresh (dom (heap w)) := ∅]> (heap w)) w)
                    c Hnin) as Hfr.
      rewrite Hwr in Hfr. simpl in Hfr. rewrite Hfr.
      apply (cell_data_set_cell_ne c (CellMem _) ∅ w Hne). }
  assert (Hcells : ∀ c, c ∈ afero.all_cells b →
            cell_data c (run_ops (Adapter (CopyOnWriteFs b l)) ops w0)
            = cell_data c w).
  { intros c Hc. destruct (Hkey c Hc) as [Hnw Hw0].
    rewrite run_ops_frame by exact Hnw. exact Hw0. }
  split; [intros c Hc; apply run_ops_frame, Hc|].
  split; [exact Hcells|].
  intros path. apply ReadFile_agree. exact Hcells.
Qed.

(** *** Overlay content after pre-population *)

Lemma register_parents_lookup_Some (m : MemMapData) name k x :
  m !! k = Some x → afero.register_parents m name !! k = Some x.
Proof.
  intros Hk. unfold afero.register_parents.
  induction (parent_dirs (String.length name) name) as [|d ds IH]; simpl;
    [exact Hk|].
  destruct (foldr _ m ds !! d) eqn:Hd; [exact IH|].
  rewrite lookup_insert_ne; [exact IH|]. intros ->. congruence.
Qed.

Lemma WriteFile_mem a p c w w' :
  utilfs.WriteFile (Adapter (MemMapFs a)) p c w = (Ok tt, w') →
  heap w' !!! a
  = <[p := RegFile c]> (<[p := RegFile []]>
                         (afero.register_parents (heap w !!! a) p)).
Proof.
  simpl. unfold adapter.WriteFile, afero.WriteFile, mbind, M_bind, bind. simpl.
  unfold afero.on_cell at 1. unfold afero.mem_OpenFile. simpl.
  set (m := heap w !!! a).
  assert (Hgo : ∀ m1, m1 = <[p := RegFile []]> (afero.register_parents m p) →
     afero.File_Write (MemFile (CellMem a) p true) c
       (set_heap (<[a := m1]> (heap w)) w) = (Ok tt, w') →
     heap w' !!! a = <[p := RegFile c]> m1).
  { intros m1 Hm1. simpl. unfold afero.on_cell, afero.mem_Write. simpl.
    rewrite lookup_total_insert_eq. rewrite Hm1 at 1. rewrite lookup_insert_eq.
    simpl. intros [= <-]. simpl. rewrite lookup_total_insert_eq. reflexivity. }
  destruct (m !! p) as [[d|]|]; try discriminate; apply Hgo; reflexivity.
Qed.

Lemma write_overrides_preserves a entries w w' path x :
  union.write_overrides (Adapter (MemMapFs a)) entries w = (Ok tt, w') →
  path ∉ entries.*1 →
  (heap w !!! a) !! path = Some x → (heap w' !!! a) !! path = Some x.
Proof.
  revert w. induction entries as [|[p c] rest IH]; intros w.
  - intros [= <-] _ Hx. exact Hx.
  - rewrite write_overrides_cons.
    intros ([] & w1 & Hw%wrap_Ok & Hrest)%bind_Ok Hnin Hx.
    rewrite fmap_cons in Hnin. apply not_elem_of_cons in Hnin as [Hne Hnin].
    apply (IH w1 Hrest Hnin).
    rewrite (WriteFile_mem _ _ _ _ _ Hw).
    rewrite !lookup_insert_ne by (simpl in Hne; congruence).
    apply register_parents_lookup_Some, Hx.
Qed.

Lemma write_overrides_content a entries w w' path content :
  union.write_overrides (Adapter (MemMapFs a)) entries w = (Ok tt, w') →
  NoDup entries.*1 → (path, content) ∈ entries →
  (heap w' !!! a) !! path = Some (RegFile content).
Proof.
  revert w. induction entries as [|[p c] rest IH]; intros w.
  - intros _ _ Hin. inversion Hin.
  - rewrite write_overrides_cons.
    intros ([] & w1 & Hw%wrap_Ok & Hrest)%bind_Ok Hnd Hin.
    rewrite fmap_cons in Hnd. apply NoDup_cons in Hnd as [Hp Hnd].
    apply elem_of_cons in Hin as [[= -> ->]|Hin].
    + eapply write_overrides_preserves; [exact Hrest|exact Hp|].
      rewrite (WriteFile_mem _ _ _ _ _ Hw). apply lookup_insert_eq.
    + eapply IH; eassumption.
Qed.


End union_facts.

Section engine_facts.
Context {env : Env} {kenv : Kust}.

Lemma bind_Err_l {A B} (m : M A) (k : A → M B) w e w' :
  m w = (Err e, w') → bind m k w = (Err e, w').
Proof. unfold bind. intros ->. reflexivity. Qed.

Lemma bind_Ok_l {A B} (m : M A) (k : A → M B) w a w' :
  m w = (Ok a, w') → bind m k w = k a w'.
Proof. unfold bind. intros ->. reflexivity. Qed.

Lemma World_eta w :
  mkWorld (heap w) (disk w) (files w) (Stderr w) (nofile w) (builds w) = w.
Proof. destruct w; reflexivity. Qed.

(** *** Warning handlers *)

Lemma WarningLog_open f warnings w d :
  files w !! f = Some (mkOsFile false d) →
  WarningLog f warnings w
  = (Ok tt,
     set_files (<[f := mkOsFile false (d ++ log_lines warnings)]> (files w)) w).
Proof.
  revert w d. induction warnings as [|msg rest IH]; intros w d Hf; simpl.
  - unfold ret, log_lines, set_files. simpl. rewrite app_nil_r.
    rewrite insert_id by exact Hf. rewrite World_eta. reflexivity.
  - unfold mbind, M_bind, bind, wrap, os.Fprintln, os.Write. rewrite Hf.
    erewrite IH; [|simpl; apply lookup_insert_eq].
    unfold set_files. simpl. rewrite insert_insert_eq.
    unfold log_lines. simpl. rewrite <- app_assoc. reflexivity.
Qed.

Lemma WarningLog_Err f warnings w err w' :
  WarningLog f warnings w = (Err err, w') →
  ∃ werr, err = Errorf "failed to write warning: %w" [] werr.
Proof.
  revert w. induction warnings as [|msg rest IH]; intros w; simpl.
  - discriminate.
  - unfold mbind, M_bind, bind, wrap.
    destruct (os.Fprintln f msg w) as [[[]|e|v] w1]; [apply IH| |discriminate].
    intros [= <- <-]. eauto.
Qed.

Lemma Run_unfold e input values :
  Run e input values
  = bind (wrap (Errorf "unable to read kustomization from path %q: %w"
                       [Source_Path input])
               (lift (readKustomization (fs e) (Source_Path input))))
      (λ '(kust, name),
         bind (handleWarnings e kust) (λ _,
         bind (prepareFilesystem e (Source_Path input) kust name values)
           (λ '(fsys, added),
         bind (wrap (Errorf "failed to run kustomize for path %q: %w"
                            [Source_Path input])
                 (utilio.SuppressStderr
                    (wrap (Errorf "kustomizer run failed: %w" [])
                       (kustomizer_Run (effective_restrictions e input) fsys
                          (Source_Path input)))))
           (λ resMap,
         bind (lift (λ _, apply_plugins (Plugins (opts e)) (Source_Path input)
                            resMap))
           (λ resMap,
         bind (lift (λ _, convertResources e resMap (Source_Path input)))
           (λ result,
              ret (if added : bool then removeOriginAnnotation <$> result
                   else result))))))).
Proof. reflexivity. Qed.

Lemma Run_after_read e input values w kust name :
  readKustomization (fs e) (Source_Path input) w = Ok (kust, name) →
  Run e input values w
  = bind (handleWarnings e kust) (λ _,
    bind (prepareFilesystem e (Source_Path input) kust name values)
      (λ '(fsys, added),
    bind (wrap (Errorf "failed to run kustomize for path %q: %w"
                       [Source_Path input])
            (utilio.SuppressStderr
               (wrap (Errorf "kustomizer run failed: %w" [])
                  (kustomizer_Run (effective_restrictions e input) fsys
                     (Source_Path input)))))
      (λ resMap,
    bind (lift (λ _, apply_plugins (Plugins (opts e)) (Source_Path input)
                       resMap))
      (λ resMap,
    bind (lift (λ _, convertResources e resMap (Source_Path input)))
      (λ result,
         ret (if added : bool then removeOriginAnnotation <$> result
              else result)))))) w.
Proof.
  intros Hread. rewrite Run_unfold. unfold bind at 1, wrap at 1, lift at 1.
  rewrite Hread. reflexivity.
Qed.

(** Claim C5, as amended.  When the descriptor carries deprecation
    warnings: a configured handler is called with the whole list, and if it
    returns an error [Run] returns that very error and no documents.  With no
    handler configured the warnings are written to [os.Stderr] by
    [WarningLog]; when [os.Stderr] is open this succeeds, each warning on a
    line of its own; an error at this step can only be a failed write,
    wrapped as "failed to write warning", and it aborts the render. *)
Theorem Run_warning_handler (e : Engine) (input : Source)
    (values : gmap string string) (w : World) (kust : Kustomization)
    (name : string) (warnings : list string) :
  readKustomization (fs e) (Source_Path input) w = Ok (kust, name) →
  CheckDeprecatedFields kust = Some warnings →
  warnings ≠ [] →
  (∀ handler, WarningHandler_opt (opts e) = Some handler →
     handleWarnings e kust w = handler warnings w
     ∧ ∀ err w', handler warnings w = (Err err, w') →
                 Run e input values w = (Err err, w'))
  ∧ (WarningHandler_opt (opts e) = None →
     handleWarnings e kust w = WarningLog (Stderr w) warnings w
     ∧ (∀ d, files w !! Stderr w = Some (mkOsFile false d) →
             handleWarnings e kust w
             = (Ok tt,
                set_files (<[Stderr w := mkOsFile false (d ++ log_lines warnings)]>
                             (files w)) w))
     ∧ (∀ err w', handleWarnings e kust w = (Err err, w') →
                  (∃ werr, err = Errorf "failed to write warning: %w" [] werr)
                  ∧ Run e input values w = (Err err, w'))).
Proof.
  intros Hread Hwarn Hne.
  assert (Hhw : handleWarnings e kust
                = match WarningHandler_opt (opts e) with
                  | Some handler => handler warnings
                  | None => λ w, WarningLog (Stderr w) warnings w
                  end).
  { unfold handleWarnings. rewrite Hwarn. destruct warnings; [done|reflexivity]. }
  split.
  - intros handler Hh. rewrite Hhw, Hh. split; [reflexivity|].
    intros err w' Herr. rewrite (Run_after_read _ _ _ _ _ _ Hread).
    apply bind_Err_l. rewrite Hhw, Hh. exact Herr.
  - intros Hnone. rewrite Hhw, Hnone. split; [reflexivity|]. split.
    + intros d Hd. apply WarningLog_open, Hd.
    + intros err w' Herr. split; [eapply WarningLog_Err, Herr|].
      rewrite (Run_after_read _ _ _ _ _ _ Hread).
      apply bind_Err_l. rewrite Hhw, Hnone. exact Herr.
Qed.


Lemma lift_Ok {A} (f : World → outcome A) w a w' :
  lift f w = (Ok a, w') → f w = Ok a ∧ w' = w.
Proof. unfold lift. intros [= -> ->]. done. Qed.

Lemma prepareFilesystem_skip e inputPath kust kustName values w :
  composes e values = false →
  prepareFilesystem e inputPath kust kustName values w = (Ok (fs e, false), w).
Proof.
  unfold composes, prepareFilesystem.
  destruct (SourceAnnotations (opts e)); [discriminate|]. simpl.
  intros ->%negb_false_iff. reflexivity.
Qed.

(** What the options built by [prepareFilesystem] leave in the
    configuration. *)
Lemma apply_options_overrides (entries : list (string * list byte)) cfg0 :
  union.apply_options ((λ kv, union.WithOverride kv.1 kv.2) <$> entries) cfg0
  = Ok (union.mkConfig
          (foldl (λ m kv, <[kv.1 := kv.2]> m) (union.overrides cfg0) entries)
          (union.overlay cfg0)).
Proof.
  revert cfg0. induction entries as [|[p c] rest IH]; intros cfg0; simpl.
  - destruct cfg0; reflexivity.
  - rewrite IH. reflexivity.
Qed.

Lemma foldl_insert_empty_iff (entries : list (string * list byte))
    (m : gmap string (list byte)) :
  foldl (λ (m : gmap string (list byte)) kv, <[kv.1 := kv.2]> m) m entries = ∅
  ↔ entries = [] ∧ m = ∅.
Proof.
  revert m. induction entries as [|[p c] rest IH]; intros m; simpl.
  - naive_solver.
  - rewrite IH. split; [|naive_solver].
    intros [_ Hins]. exfalso. exact (insert_non_empty m p c Hins).
Qed.

Lemma write_overrides_nonempty a entries w w' :
  union.write_overrides (Adapter (MemMapFs a)) entries w = (Ok tt, w') →
  entries ≠ [] → heap w' !!! a ≠ ∅.
Proof.
  revert w. induction entries as [|[p c] rest IH]; intros w; [done|].
  rewrite write_overrides_cons.
  intros ([] & w1 & Hw%wrap_Ok & Hrest)%bind_Ok _.
  destruct rest as [|kv rest'].
  - simpl in Hrest. injection Hrest as <-.
    rewrite (WriteFile_mem _ _ _ _ _ Hw). apply insert_non_empty.
  - apply (IH w1 Hrest). done.
Qed.

(** [NewFs] without a caller-supplied overlay: the overlay is new, holds
    something exactly when there is an override, and nothing else changed. *)
Lemma NewFs_fresh base opts w u w0 cfg :
  union.apply_options opts (union.mkConfig ∅ None) = Ok cfg →
  union.overlay cfg = None →
  union.NewFs base opts w = (Ok u, w0) →
  ∃ b,
    utilfs.Unwrap base = Some b
    ∧ u = Adapter (CopyOnWriteFs b (MemMapFs (fresh (dom (heap w)))))
    ∧ (heap w0 !!! fresh (dom (heap w)) ≠ ∅ ↔ union.overrides cfg ≠ ∅)
    ∧ (∀ c, c ≠ CellMem (fresh (dom (heap w))) →
            cell_data c w0 = cell_data c w).
Proof.
  intros Hcfg Hnone HNew.
  destruct (NewFs_inv _ _ _ _ _ HNew) as (cfg' & b & l & Hcfg' & Hb & -> & Hov).
  rewrite Hcfg in Hcfg'. injection Hcfg' as <-. rewrite Hnone in Hov.
  destruct Hov as [-> Hwr]. exists b. split; [exact Hb|]. split; [reflexivity|].
  set (a := fresh (dom (heap w))) in *. split.
  - destruct (decide (union.overrides cfg = ∅)) as [Hemp|Hne].
    + rewrite Hemp, map_to_list_empty in Hwr. simpl in Hwr.
      injection Hwr as <-. simpl. rewrite lookup_total_insert_eq. 
      rewrite Hemp. tauto.
    + split; [intros _; exact Hne|]. intros _.
      eapply write_overrides_nonempty; [exact Hwr|].
      intros Hnil. apply Hne. apply map_to_list_empty_iff, Hnil.
  - intros c Hc.
    assert (c ∉ [CellMem a]) as Hnin by (intros ?%list_elem_of_singleton; done).
    pose proof (ww_write_overrides a (map_to_list (union.overrides cfg))
                  (set_heap (<[a := ∅]> (heap w)) w) c Hnin) as Hfr.
    rewrite Hwr in Hfr. simpl in Hfr. rewrite Hfr.
    apply (cell_data_set_cell_ne c (CellMem a) ∅ w Hc).
Qed.

Lemma prepareFilesystem_compose e inputPath kust kustName values w
    fsys added w' :
  composes e values = true →
  prepareFilesystem e inputPath kust kustName values w
  = (Ok (fsys, added), w') →
  ∃ b dir,
    utilfs.Unwrap (fs e) = Some b
    ∧ utilfs.CleanedAbs (fs e) inputPath w = Ok (dir, "")
    ∧ fsys = Adapter (CopyOnWriteFs b (MemMapFs (fresh (dom (heap w)))))
    ∧ added = adds_origin e kust
    ∧ (heap w' !!! fresh (dom (heap w)) ≠ ∅ ↔ injects e kust values = true)
    ∧ (∀ c, c ≠ CellMem (fresh (dom (heap w))) →
            cell_data c w' = cell_data c w).
Proof.
  unfold composes, injects, adds_origin, prepareFilesystem.
  intros Hcomp.
  assert (negb (SourceAnnotations (opts e)) && bool_decide (size values = 0)
          = false) as ->.
  { destruct (SourceAnnotations (opts e)); [reflexivity|]. simpl in *.
    apply negb_true_iff, Hcomp. }
  unfold mbind, M_bind.
  intros ([dir f] & w1 & [Hca ->]%wrap_Ok%lift_Ok & Hrest)%bind_Ok.
  destruct (decide (f ≠ "")) as [|Hf]; [discriminate|].
  assert (f = "") as -> by (destruct (decide (f = "")); [done|contradiction]).
  apply bind_Ok in Hrest as ([opts1 add1] & w2 & H1 & Hrest).
  apply bind_Ok in Hrest as (opts2 & w3 & H2 & Hrest).
  apply bind_Ok in Hrest as (fsys' & w4 & HNew%wrap_Ok & Hret).
  injection Hret as <- <- <-.
  assert (∃ entries1 : list (string * list byte),
            w2 = w ∧ opts1 = (λ kv, union.WithOverride kv.1 kv.2) <$> entries1
            ∧ add1 = (SourceAnnotations (opts e)
                      && negb (bool_decide (OriginAnnotations ∈ BuildMetadata kust)))
            ∧ (entries1 ≠ [] ↔ add1 = true)) as (entries1 & -> & -> & Hadd & He1).
  { destruct (SourceAnnotations (opts e)); simpl.
    - destruct (decide (OriginAnnotations ∈ BuildMetadata kust)) as [Hin|Hnin].
      + injection H1 as <- <- <-. exists []. rewrite bool_decide_eq_true_2 by done.
        simpl. naive_solver.
      + apply bind_Ok in H1 as (data & w2' & [_ ->]%wrap_Ok%lift_Ok & Hret).
        injection Hret as <- <- <-.
        exists [(filepath_Join dir kustName, data)].
        rewrite bool_decide_eq_false_2 by done. simpl. naive_solver.
    - injection H1 as <- <- <-. exists []. naive_solver. }
  assert (∃ entries2 : list (string * list byte),
            w3 = w ∧ opts2 = (λ kv, union.WithOverride kv.1 kv.2) <$> entries2
            ∧ (entries2 ≠ [] ↔
               add1 || negb (bool_decide (size values = 0)) = true))
    as (entries2 & -> & -> & He2).
  { destruct (decide (0 < size values)%nat) as [Hpos|Hzero].
    - apply bind_Ok in H2 as (vc & w3' & [_ ->]%wrap_Ok%lift_Ok & Hret).
      injection Hret as <- <-.
      exists (entries1 ++ [(filepath_Join dir "values.yaml", vc)])%list.
      rewrite fmap_app. split; [done|]. split; [done|].
      rewrite bool_decide_eq_false_2 by lia. rewrite orb_true_r.
      split; [done|]. intros _. destruct entries1; done.
    - injection H2 as <- <-. exists entries1. split; [done|]. split; [done|].
      rewrite bool_decide_eq_true_2 by lia. simpl. rewrite orb_false_r. exact He1. }
  pose proof (apply_options_overrides entries2 (union.mkConfig ∅ None)) as Hcfg.
  simpl in Hcfg.
  destruct (NewFs_fresh _ _ _ _ _ _ Hcfg eq_refl HNew) as (b & Hb & -> & Hne & Hfr).
  exists b, dir. split; [exact Hb|]. split; [exact Hca|]. split; [reflexivity|].
  split; [exact Hadd|]. split; [|exact Hfr].
  rewrite Hne. simpl. rewrite <- Hadd, <- He2.
  split.
  - intros Hm ->. apply Hm. reflexivity.
  - intros Hent Hm. apply foldl_insert_empty_iff in Hm as [? _]. done.
Qed.


Lemma prepareFilesystem_added e inputPath kust kustName values w fsys added w' :
  prepareFilesystem e inputPath kust kustName values w
  = (Ok (fsys, added), w') →
  added = adds_origin e kust.
Proof.
  intros Hp. destruct (composes e values) eqn:Hc.
  - destruct (prepareFilesystem_compose _ _ _ _ _ _ _ _ _ Hc Hp)
      as (b & dir & _ & _ & _ & Hadd & _). exact Hadd.
  - rewrite (prepareFilesystem_skip _ _ _ _ _ _ Hc) in Hp.
    injection Hp as <- <- <-. unfold adds_origin, composes in *.
    destruct (SourceAnnotations (opts e)); [discriminate|reflexivity].
Qed.

(** Once the overlay is prepared and the pipe is there, the builder is
    called once, with the filesystem [prepareFilesystem] returned. *)
Lemma Run_builder_call e input values w kust name w1 fsys added w2 r wr w3 :
  readKustomization (fs e) (Source_Path input) w = Ok (kust, name) →
  handleWarnings e kust w = (Ok tt, w1) →
  prepareFilesystem e (Source_Path input) kust name values w1
  = (Ok (fsys, added), w2) →
  os.Pipe w2 = (Ok (r, wr), w3) →
  builds (Run e input values w).2
  = (builds w2 ++ [mkBuildCall (effective_restrictions e input) fsys
                               (Source_Path input)])%list.
Proof.
  intros Hread Hw Hp HPipe.
  rewrite (Run_after_read _ _ _ _ _ _ Hread).
  rewrite (bind_Ok_l _ _ _ _ _ Hw), (bind_Ok_l _ _ _ _ _ Hp).
  pose proof (Pipe_builds w2) as Hb. rewrite HPipe in Hb. simpl in Hb.
  unfold bind, wrap, lift, ret, utilio.SuppressStderr, kustomizer_Run.
  rewrite HPipe. simpl.
  destruct (krusty_build _ fsys (Source_Path input) _) as [rm|err|v]; simpl;
    [destruct (apply_plugins _ _ rm) as [rm'|err|v]; simpl;
     [destruct (convertResources e rm' _) as [res|err|v]; simpl|..]|..];
    rewrite !Close_builds; simpl; rewrite Hb; reflexivity.
Qed.

(** Claim C3, as amended.  [prepareFilesystem] returns the original
    filesystem, composing nothing, exactly when source annotations are
    disabled and there are no values; the builder is then called with the
    original filesystem.  Otherwise, when it succeeds, it returns the
    composition of the original with a new in-memory overlay, the builder is
    called with that composition, and the overlay holds a synthetic file
    exactly when (source annotations are enabled and the descriptor does not
    request provenance tracking) or there are values. *)
Theorem prepareFilesystem_injection (e : Engine) (input : Source)
    (values : gmap string string) (kust : Kustomization) (name : string)
    (w : World) :
  (composes e values = false →
     prepareFilesystem e (Source_Path input) kust name values w
     = (Ok (fs e, false), w)
     ∧ ∀ w0 r wr w1,
         readKustomization (fs e) (Source_Path input) w0 = Ok (kust, name) →
         handleWarnings e kust w0 = (Ok tt, w) →
         os.Pipe w = (Ok (r, wr), w1) →
         builds (Run e input values w0).2
         = (builds w ++ [mkBuildCall (effective_restrictions e input) (fs e)
                                     (Source_Path input)])%list)
  ∧ (composes e values = true →
     ∀ fsys added w',
       prepareFilesystem e (Source_Path input) kust name values w
       = (Ok (fsys, added), w') →
       ∃ b,
         utilfs.Unwrap (fs e) = Some b
         ∧ fsys = Adapter (CopyOnWriteFs b (MemMapFs (fresh (dom (heap w)))))
         ∧ (heap w' !!! fresh (dom (heap w)) ≠ ∅
            ↔ injects e kust values = true)
         ∧ (∀ c, c ≠ CellMem (fresh (dom (heap w))) →
                 cell_data c w' = cell_data c w)
         ∧ ∀ w0 r wr w1,
             readKustomization (fs e) (Source_Path input) w0 = Ok (kust, name) →
             handleWarnings e kust w0 = (Ok tt, w) →
             os.Pipe w' = (Ok (r, wr), w1) →
             builds (Run e input values w0).2
             = (builds w' ++ [mkBuildCall (effective_restrictions e input)
                                          fsys (Source_Path input)])%list).
Proof.
  split.
  - intros Hc. pose proof (prepareFilesystem_skip e (Source_Path input) kust
                             name values w Hc) as Hp.
    split; [exact Hp|]. intros w0 r wr w1 Hread Hw HPipe.
    eapply Run_builder_call; eassumption.
  - intros Hc fsys added w' Hp.
    destruct (prepareFilesystem_compose _ _ _ _ _ _ _ _ _ Hc Hp)
      as (b & dir & Hb & _ & Hfs & _ & Hinj & Hfr).
    exists b. repeat (split; [assumption|]).
    intros w0 r wr w1 Hread Hw HPipe.
    eapply Run_builder_call; eassumption.
Qed.


Lemma removeOriginAnnotation_no_origin d a :
  GetAnnotations (removeOriginAnnotation d) = Some a → a !! originKey = None.
Proof.
  unfold removeOriginAnnotation, GetAnnotations.
  destruct (Annotations d) as [a0|] eqn:Ha; simpl.
  - intros [= <-]. apply lookup_delete_eq.
  - rewrite Ha. discriminate.
Qed.

(** Claim C6.  A successful [Run] called the builder on the filesystem
    [prepareFilesystem] returned, ran the plugins on the builder's
    resources and converted them.  When source annotations are enabled and
    the descriptor did not request provenance tracking, the returned
    documents are the converted ones, one for one, with the same fields and
    the same annotations except that none has the annotation
    [config.kubernetes.io/origin]; when the descriptor already requested it
    (or annotations are disabled), the returned documents are exactly the
    converted ones: nothing is stripped. *)
Theorem Run_origin_annotation (e : Engine) (input : Source)
    (values : gmap string string) (w w' : World) (kust : Kustomization)
    (name : string) (docs : list Unstructured) :
  readKustomization (fs e) (Source_Path input) w = Ok (kust, name) →
  Run e input values w = (Ok docs, w') →
  ∃ w1 fsys w2 r wr wp rm rm' converted,
    handleWarnings e kust w = (Ok tt, w1)
    ∧ prepareFilesystem e (Source_Path input) kust name values w1
      = (Ok (fsys, adds_origin e kust), w2)
    ∧ os.Pipe w2 = (Ok (r, wr), wp)
    ∧ krusty_build (effective_restrictions e input) fsys (Source_Path input)
        (set_Stderr wr wp) = Ok rm
    ∧ apply_plugins (Plugins (opts e)) (Source_Path input) rm = Ok rm'
    ∧ convertResources e rm' (Source_Path input) = Ok converted
    ∧ (SourceAnnotations (opts e) = true →
       OriginAnnotations ∉ BuildMetadata kust →
       Forall2 (λ c d,
                  Fields d = Fields c
                  ∧ (GetAnnotations d ≫= (.!! originKey)) = None
                  ∧ ∀ k, k ≠ originKey →
                         (GetAnnotations d ≫= (.!! k))
                         = (GetAnnotations c ≫= (.!! k)))
               converted docs
       ∧ ∀ d a, d ∈ docs → GetAnnotations d = Some a → a !! originKey = None)
    ∧ (OriginAnnotations ∈ BuildMetadata kust ∨ SourceAnnotations (opts e) = false →
       docs = converted).
Proof.
  intros Hread HRun. rewrite (Run_after_read _ _ _ _ _ _ Hread) in HRun.
  apply bind_Ok in HRun as ([] & w1 & Hw & HRun).
  apply bind_Ok in HRun as ([fsys added] & w2 & Hp & HRun).
  apply bind_Ok in HRun as (rm & w3 & Hb%wrap_Ok & HRun).
  apply bind_Ok in HRun as (rm' & w4 & [Hpl _]%lift_Ok & HRun).
  apply bind_Ok in HRun as (result & w5 & [Hconv _]%lift_Ok & HRun).
  injection HRun as <- <-.
  pose proof (prepareFilesystem_added _ _ _ _ _ _ _ _ _ Hp) as Hadded.
  subst added.
  unfold utilio.SuppressStderr in Hb.
  destruct (os.Pipe w2) as [[[r wr]|?|?] wp] eqn:HP; try discriminate.
  unfold wrap, kustomizer_Run in Hb. simpl in Hb.
  destruct (krusty_build (effective_restrictions e input) fsys
              (Source_Path input) (set_Stderr wr wp)) as [rm0|?|?] eqn:Hk;
    try discriminate.
  injection Hb as -> _.
  exists w1, fsys, w2, r, wr, wp, rm, rm', result.
  repeat (split; [assumption|]). unfold adds_origin. split.
  - intros HSA Hnin. rewrite HSA, bool_decide_eq_false_2 by exact Hnin.
    simpl. split.
    + apply Forall2_fmap_r, Forall_Forall2_diag, Forall_forall.
      intros c _. cbv beta.
      unfold removeOriginAnnotation, GetAnnotations, SetAnnotations.
      destruct (Annotations c) as [a0|] eqn:Ha; simpl; rewrite ?Ha; simpl.
      * split; [reflexivity|]. split; [apply lookup_delete_eq|].
        intros k Hk'. apply lookup_delete_ne. congruence.
      * repeat split; reflexivity.
    + intros d a (d0 & -> & _)%list_elem_of_fmap.
      apply removeOriginAnnotation_no_origin.
  - intros [Hin| ->]; [|reflexivity].
    rewrite bool_decide_eq_true_2, andb_false_r by exact Hin. reflexivity.
Qed.

End engine_facts.

(** ** The repository's tests, run on the embedding *)

Example TestNewFs_passes :
  (sample.TestNewFs sample.world0).1
  = Ok [Ok (sample.bytes "base content");
        Ok (sample.bytes "overlay content");
        Ok (sample.bytes "overridden")].
Proof. vm_compute. reflexivity. Qed.

Example TestCleanedAbs_passes :
  (sample.TestCleanedAbs sample.world0).1
  = Ok [Ok ("/test/dir", ""); Ok ("/test/dir", "file.txt");
        Err (PathError "stat" "/nonexistent/path" ErrNotExist)].
Proof. vm_compute. reflexivity. Qed.

Example TestNewReadOnlyFs_passes :
  (sample.TestNewReadOnlyFs sample.world0).1
  = Ok (Ok (sample.bytes "readonly content"),
        Err (Errno EPERM), Err (Errno EPERM)).
Proof. vm_compute. reflexivity. Qed.

Example TestRemoveAll_passes :
  (sample.TestRemoveAll sample.world0).1 = Ok false.
Proof. vm_compute. reflexivity. Qed.

Example TestSuppressStderr_passes :
  ∃ during, (sample.TestSuppressStderr sample.world0).1 = Ok (during, 2)
            ∧ during ≠ 2.
Proof. eexists. split; [vm_compute; reflexivity|discriminate]. Qed.

(** ** The theorems at concrete inputs *)


(** C10: with no file descriptor left the pipe cannot be created;
    [SuppressStderr] then returns an error although the wrapped function,
    which it never runs, returns none. *)
Lemma SuppressStderr_pipe_failure :
  utilio.SuppressStderr (ret tt) sample.worldNoDescriptors
  = (Err (Errorf "failed to create pipe: %w" []
                 (SyscallError "pipe2" (Errno EMFILE))),
     sample.worldNoDescriptors)
  ∧ ret tt sample.worldNoDescriptors = (Ok tt, sample.worldNoDescriptors)
  ∧ (utilio.SuppressStderr (ret tt) sample.worldNoDescriptors).1
    ≠ (ret tt sample.worldNoDescriptors).1.
Proof. repeat split; vm_compute; (reflexivity || discriminate). Qed.

(** C7 at the descriptor file of the sample tree. *)
Lemma CleanedAbs_resolves_witness :
  filepath_Abs (Env := sample.env) "/app/kustomization.yaml" sample.worldPlain
  = Ok "/app/kustomization.yaml"
  ∧ adapter.CleanedAbs (env := sample.env) (MemMapFs 0)
      "/app/kustomization.yaml" sample.worldPlain
    = Ok ("/app", "kustomization.yaml").
Proof.
  split; [reflexivity|].
  pose proof (proj1 (CleanedAbs_resolves (env := sample.env) (MemMapFs 0)
                       "/app/kustomization.yaml" sample.worldPlain)
                "/app/kustomization.yaml" "/app/kustomization.yaml"
                eq_refl eq_refl) as Hres.
  vm_compute in Hres. vm_compute. exact Hres.
Defined.

(** C9 with the runtime visiting a map in one order and in the reverse
    order, and two maps filled in opposite orders. *)
Lemma cache_keys_deterministic_witness :
  (∀ m : gmap string string, reverse (map_to_list m) ≡ₚ map_to_list m)
  ∧ DefaultCacheKey map_to_list
      (mkKustomizationSpec "/app" (assign_all [("a", "1"); ("b", "2")]))
    = DefaultCacheKey (λ m, reverse (map_to_list m))
        (mkKustomizationSpec "/app" (assign_all [("b", "2"); ("a", "1")])).
Proof.
  split; [intros m; apply reverse_Permutation|].
  apply (proj1 (proj2 (cache_keys_deterministic map_to_list
                         (λ m, reverse (map_to_list m))
                         (λ m, reflexivity _)
                         (λ m, reverse_Permutation _)))).
  - apply NoDup_cons. split; [intros ?%list_elem_of_singleton; discriminate|].
    apply NoDup_singleton.
  - apply perm_swap.
Defined.

(** C1 at the patched overlay root. *)
Lemma NewFs_base_unchanged_witness :
  union.NewFs (env := sample.env) sample.memFs sample.patch sample.worldPlain
  = (Ok sample.composedFs, sample.composedWorld)
  ∧ afero.ReadFile (MemMapFs 0) "/app/kustomization.yaml"
      (run_ops (env := sample.env) sample.composedFs sample.someOps
               sample.composedWorld)
    = afero.ReadFile (MemMapFs 0) "/app/kustomization.yaml" sample.worldPlain.
Proof.
  assert (union.NewFs (env := sample.env) sample.memFs sample.patch
            sample.worldPlain
          = (Ok sample.composedFs, sample.composedWorld)) as HNew
    by (vm_compute; reflexivity).
  split; [exact HNew|].
  destruct (NewFs_base_unchanged (env := sample.env) sample.memFs sample.patch
              (MemMapFs 0) sample.composedFs sample.worldPlain
              sample.composedWorld) as (l & _ & Hops).
  - reflexivity.
  - apply Forall_singleton. vm_compute. reflexivity.
  - intros cfg ov l [= <-]. discriminate.
  - exact HNew.
  - apply (Hops sample.someOps).
Defined.

(** C1: when the caller supplies the base itself as the overlay, a write
    through the composition changes the base. *)
Lemma NewFs_shared_overlay_changes_base :
  union.NewFs (env := sample.env) sample.memFs
    [union.WithOverlayFs sample.memFs] sample.worldPlain
  = (Ok sample.sharedFs, sample.worldPlain)
  ∧ afero.ReadFile (MemMapFs 0) "/app/kustomization.yaml" sample.worldPlain
    = Ok (sample.encode sample.plainDescriptor)
  ∧ afero.ReadFile (MemMapFs 0) "/app/kustomization.yaml"
      (run_ops (env := sample.env) sample.sharedFs
         [OpWriteFile "/app/kustomization.yaml" (sample.bytes "changed")]
         sample.worldPlain)
    = Ok (sample.bytes "changed")
  ∧ cell_data (CellMem 0)
      (run_ops (env := sample.env) sample.sharedFs
         [OpWriteFile "/app/kustomization.yaml" (sample.bytes "changed")]
         sample.worldPlain)
    ≠ cell_data (CellMem 0) sample.worldPlain.
Proof.
  repeat split; try (vm_compute; reflexivity).
  intros Heq.
  apply (f_equal (λ m : gmap string node, m !! "/app/kustomization.yaml"))
    in Heq.
  vm_compute in Heq. discriminate.
Qed.



(** C3 at the sample overlay root: with source annotations disabled and no
    values the original filesystem is returned; with source annotations
    enabled and a descriptor that does not request provenance tracking, the
    new overlay holds the rewritten descriptor. *)
Lemma prepareFilesystem_injection_witness :
  (composes (sample.engine false) ∅ = false
   ∧ prepareFilesystem (env := sample.env)
       (kenv := sample.kenvPlain) (sample.engine false)
       "/app" sample.plainDescriptor "kustomization.yaml" ∅ sample.worldPlain
     = (Ok (sample.memFs, false), sample.worldPlain))
  ∧ (composes (sample.engine true) ∅ = true
     ∧ injects (sample.engine true) sample.plainDescriptor ∅ = true
     ∧ heap (prepareFilesystem (env := sample.env)
               (kenv := sample.kenvPlain)
               (sample.engine true) "/app" sample.plainDescriptor
               "kustomization.yaml" ∅ sample.worldPlain).2
         !!! fresh (dom (heap sample.worldPlain)) ≠ ∅).
Proof.
  split.
  - split; [reflexivity|].
    apply (proj1 (prepareFilesystem_injection (env := sample.env)
                    (kenv := sample.kenvPlain)
                    (sample.engine false) sample.appSource ∅
                    sample.plainDescriptor "kustomization.yaml"
                    sample.worldPlain)).
    reflexivity.
  - split; [reflexivity|]. split; [reflexivity|].
    destruct (proj2 (prepareFilesystem_injection (env := sample.env)
                       (kenv := sample.kenvPlain)
                       (sample.engine true) sample.appSource ∅
                       sample.plainDescriptor "kustomization.yaml"
                       sample.worldPlain)
                eq_refl sample.composedFs true
                (prepareFilesystem (env := sample.env)
                   (kenv := sample.kenvPlain)
                   (sample.engine true) "/app" sample.plainDescriptor
                   "kustomization.yaml" ∅ sample.worldPlain).2)
      as (b & _ & _ & Hinj & _).
    + vm_compute. reflexivity.
    + apply Hinj. reflexivity.
Defined.

(** C3: source annotations are enabled, the descriptor already requests
    provenance tracking and there are no values.  Neither condition of the
    claim holds, nothing is injected, and still the builder is called with a
    composition and not with the original filesystem. *)
Lemma prepareFilesystem_composes_without_injection :
  injects (sample.engine true) sample.originDescriptor ∅ = false
  ∧ (prepareFilesystem (env := sample.env)
       (kenv := sample.kenvOrigin) (sample.engine true)
       "/app" sample.originDescriptor "kustomization.yaml" ∅
       sample.worldOrigin).1
    = Ok (sample.composedFs, false)
  ∧ sample.composedFs ≠ fs (sample.engine true)
  ∧ bc_fs <$> builds (sample.renderedWorld true sample.originDescriptor)
    = [sample.composedFs].
Proof. repeat split; try (vm_compute; reflexivity). discriminate. Qed.



(** C5 at the sample overlay root with a deprecated field: [WarningFail]
    aborts the render with its own error; with no handler and standard
    error open, the warning is written and the step succeeds. *)
Lemma Run_warning_handler_witness :
  Run (env := sample.env) (kenv := sample.kenvDeprecated)
    sample.engineFail sample.appSource ∅ sample.worldDeprecated
  = (Err (Errorf "%w:\n%s" ["commonLabels is deprecated"]
                 ErrKustomizeWarnings),
     sample.worldDeprecated)
  ∧ handleWarnings (sample.engine false) sample.deprecatedDescriptor
      sample.worldDeprecated
    = (Ok tt,
       set_files
         (<[2%nat := mkOsFile false
                       ([] ++ log_lines ["commonLabels is deprecated"])]>
            (files sample.worldDeprecated))
         sample.worldDeprecated).
Proof.
  pose proof (Run_warning_handler (env := sample.env)
                (kenv := sample.kenvDeprecated)
                sample.engineFail sample.appSource ∅ sample.worldDeprecated
                sample.deprecatedDescriptor "kustomization.yaml"
                ["commonLabels is deprecated"]
                ltac:(vm_compute; reflexivity) eq_refl ltac:(discriminate))
    as [Hfail _].
  pose proof (Run_warning_handler (env := sample.env)
                (kenv := sample.kenvDeprecated)
                (sample.engine false) sample.appSource ∅
                sample.worldDeprecated
                sample.deprecatedDescriptor "kustomization.yaml"
                ["commonLabels is deprecated"]
                ltac:(vm_compute; reflexivity) eq_refl ltac:(discriminate))
    as [_ Hlog].
  split.
  - apply (proj2 (Hfail WarningFail eq_refl)). reflexivity.
  - apply (proj1 (proj2 (Hlog eq_refl))). reflexivity.
Defined.

(** C5: no handler is configured and standard error is closed; the default
    handler fails, and so does the render. *)
Lemma Run_default_handler_fails :
  WarningHandler_opt (opts (sample.engine false)) = None
  ∧ Run (env := sample.env) (kenv := sample.kenvDeprecated)
      (sample.engine false) sample.appSource ∅
      (sample.worldClosedStderr sample.deprecatedDescriptor)
    = (Err (Errorf "failed to write warning: %w" []
                   (PathError "write" "" ErrClosed)),
       sample.worldClosedStderr sample.deprecatedDescriptor).
Proof. split; [reflexivity|vm_compute; reflexivity]. Qed.

(** C6 at the sample overlay root with source annotations enabled: with a
    descriptor that does not request provenance tracking no returned
    document carries the origin annotation; with one that does, the
    documents are the conversion of what the builder and the plugins
    produced. *)
Lemma Run_origin_annotation_witness :
  (Run (env := sample.env) (kenv := sample.kenvPlain)
     (sample.engine true) sample.appSource ∅ sample.worldPlain
   = (Ok (sample.rendered true sample.plainDescriptor),
      sample.renderedWorld true sample.plainDescriptor)
   ∧ ∀ d a, d ∈ sample.rendered true sample.plainDescriptor →
            GetAnnotations d = Some a → a !! originKey = None)
  ∧ (Run (env := sample.env) (kenv := sample.kenvOrigin)
       (sample.engine true) sample.appSource ∅ sample.worldOrigin
     = (Ok (sample.rendered true sample.originDescriptor),
        sample.renderedWorld true sample.originDescriptor)
     ∧ ∃ fsys wb rm rm',
         krusty_build (Kust := sample.kenvOrigin)
           (effective_restrictions (sample.engine true) sample.appSource)
           fsys "/app" wb = Ok rm
         ∧ apply_plugins (Plugins (opts (sample.engine true))) "/app" rm
           = Ok rm'
         ∧ convertResources (kenv := sample.kenvOrigin)
             (sample.engine true) rm' "/app"
           = Ok (sample.rendered true sample.originDescriptor)).
Proof.
  assert (Run (env := sample.env) (kenv := sample.kenvPlain)
            (sample.engine true) sample.appSource ∅ sample.worldPlain
          = (Ok (sample.rendered true sample.plainDescriptor),
             sample.renderedWorld true sample.plainDescriptor)) as HRun1
    by (vm_compute; reflexivity).
  assert (Run (env := sample.env) (kenv := sample.kenvOrigin)
            (sample.engine true) sample.appSource ∅ sample.worldOrigin
          = (Ok (sample.rendered true sample.originDescriptor),
             sample.renderedWorld true sample.originDescriptor)) as HRun2
    by (vm_compute; reflexivity).
  split; (split; [assumption|]).
  - destruct (Run_origin_annotation (env := sample.env)
                (kenv := sample.kenvPlain)
                (sample.engine true) sample.appSource ∅ sample.worldPlain
                (sample.renderedWorld true sample.plainDescriptor)
                sample.plainDescriptor "kustomization.yaml"
                (sample.rendered true sample.plainDescriptor)
                ltac:(vm_compute; reflexivity) HRun1)
      as (? & ? & ? & ? & ? & ? & ? & ? & ? & _ & _ & _ & _ & _ & _
          & Hstrip & _).
    apply Hstrip; [reflexivity|]. intros Hin. inversion Hin.
  - destruct (Run_origin_annotation (env := sample.env)
                (kenv := sample.kenvOrigin)
                (sample.engine true) sample.appSource ∅ sample.worldOrigin
                (sample.renderedWorld true sample.originDescriptor)
                sample.originDescriptor "kustomization.yaml"
                (sample.rendered true sample.originDescriptor)
                ltac:(vm_compute; reflexivity) HRun2)
      as (? & fsys & ? & ? & wr & wp & rm & rm' & converted & _ & _ & _
          & Hk & Hpl & Hconv & _ & Hkeep).
    exists fsys, (set_Stderr wr wp), rm, rm'.
    assert (OriginAnnotations ∈ BuildMetadata sample.originDescriptor) as Hin
      by (apply list_elem_of_singleton; reflexivity).
    rewrite (Hkeep (or_introl Hin)).
    split; [exact Hk|]. split; [exact Hpl|exact Hconv].
Defined.

(** The documents of the second render do carry the origin annotation the
    builder attached. *)
Lemma rendered_origin_kept :
  (λ d, from_option (λ a, a !! originKey) None (GetAnnotations d))
    <$> sample.rendered true sample.originDescriptor
  = [Some sample.originValue].
Proof. vm_compute. reflexivity. Qed.

(** * Further properties of the code *)

(** ** pkg/util/fs and pkg/fs/adapter *)

Section more_utilfs_facts.
Context {env : Env}.

(** Property X2.  Reading through what [NewReadOnlyFs] returns is reading
    through the filesystem it was given: [Open], [ReadFile], [Exists] and
    [IsDir] give the same results, in every world, so the read-only view is
    live and not a snapshot.  This holds for this package's filesystems and
    for a foreign one without an [Unwrap] method; a foreign filesystem that
    has one is replaced by what [Unwrap] returns. *)
Theorem NewReadOnlyFs_reads_through (base : FileSystem) (path : string)
    (w : World) :
  (∀ id, base = Foreign id → fUnwrap (foreign id) = None) →
  let r := utilfs.NewReadOnlyFs base in
  utilfs.Open r path w = utilfs.Open base path w
  ∧ utilfs.ReadFile r path w = utilfs.ReadFile base path w
  ∧ utilfs.Exists r path w = utilfs.Exists base path w
  ∧ utilfs.IsDir r path w = utilfs.IsDir base path w.
Proof.
  intros Hforeign. unfold utilfs.NewReadOnlyFs.
  destruct base as [a|b|id]; simpl.
  - repeat split.
  - repeat split.
  - rewrite (Hforeign id eq_refl). repeat split.
Qed.

Lemma filepath_Base_nonempty p : filepath_Base p ≠ "".
Proof.
  unfold filepath_Base.
  destruct (split_last_sep p) as [[d [|c b]]|]; try discriminate.
  case_decide; [discriminate|assumption].
Qed.

(** Property X3.  What [CleanedAbs] returns tells a directory from a file:
    the path it resolved (the absolute path, with the symbolic links
    followed on the OS filesystem) exists, and the file name is empty
    exactly when that path is a directory.  Then the directory returned is
    the resolved path itself; otherwise the two results are the parent and
    the base name of the resolved path.  This is what the test [f != ""] of
    [prepareFilesystem] relies on. *)
Theorem CleanedAbs_file_component (a : Fs) (path dir file : string)
    (w : World) :
  adapter.CleanedAbs a path w = Ok (dir, file) →
  ∃ absPath resolved,
    filepath_Abs (if decide (path = "") then "." else path) w = Ok absPath
    ∧ (if adapter.is_OsFs a
       then filepath_EvalSymlinks absPath w = Ok resolved
       else resolved = absPath)
    ∧ adapter.Exists a resolved w = true
    ∧ (file = "" ↔ adapter.IsDir a resolved w = true)
    ∧ (file = "" → dir = resolved)
    ∧ (file ≠ "" →
       dir = filepath_Dir resolved ∧ file = filepath_Base resolved).
Proof.
  unfold adapter.CleanedAbs.
  set (path' := if decide (path = "") then "." else path).
  destruct (filepath_Abs path' w) as [absPath|err|v]; try discriminate.
  assert (Hstat : ∀ r,
    match afero.Stat a r w with
    | Err err =>
        if os_IsNotExist err then Err (PathError "stat" path' ErrNotExist)
        else Err (Errorf "stat error on %q: %w" [path'] err)
    | Panic v => Panic v
    | Ok info =>
        if fi_IsDir info then Ok (r, "")
        else Ok (filepath_Dir r, filepath_Base r)
    end = Ok (dir, file) →
    adapter.Exists a r w = true
    ∧ (file = "" ↔ adapter.IsDir a r w = true)
    ∧ (file = "" → dir = r)
    ∧ (file ≠ "" → dir = filepath_Dir r ∧ file = filepath_Base r)).
  { intros r. unfold adapter.IsDir, adapter.Exists.
    destruct (afero.Stat a r w) as [info|err|v] eqn:Hs;
      [|destruct (os_IsNotExist err); discriminate|discriminate].
    destruct (fi_IsDir info) eqn:Hd; intros [= <- <-].
    - repeat split; try done.
    - pose proof (filepath_Base_nonempty r) as Hb.
      repeat split; try done. }
  destruct (adapter.is_OsFs a).
  - destruct (filepath_EvalSymlinks absPath w) as [r|err|v] eqn:He;
      [|discriminate|discriminate].
    intros H. exists absPath, r. split; [reflexivity|]. split; [exact He|].
    apply Hstat, H.
  - intros H. exists absPath, absPath. split; [reflexivity|].
    split; [reflexivity|]. apply Hstat, H.
Qed.

Lemma run_ops_frame_adapter a ops w c :
  c ∉ afero.writable_cells a →
  cell_data c (run_ops (Adapter a) ops w) = cell_data c w.
Proof.
  intros Hc. revert w. unfold run_ops.
  induction ops as [|op ops IH]; intros w; simpl; [reflexivity|].
  rewrite IH. destruct op; simpl.
  - apply (ww_WriteFile a), Hc.
  - apply (ww_OpenFile a), Hc.
  - apply (ww_Mkdir a), Hc.
  - apply (ww_MkdirAll a), Hc.
  - apply (ww_RemoveAll a), Hc.
Qed.

(** Property X5.  [NewMemoryFs] returns a filesystem that shares nothing
    with the filesystems that exist: it is none of them, making it changes
    none of them, and whatever is then written, created or removed through
    it, they keep their content. *)
Theorem NewMemoryFs_is_isolated (w : World) :
  ∃ a,
    (utilfs.NewMemoryFs w).1 = Ok (Adapter (MemMapFs a))
    ∧ ¬ allocated (CellMem a) w
    ∧ allocated (CellMem a) (utilfs.NewMemoryFs w).2
    ∧ (∀ c, allocated c w →
         allocated c (utilfs.NewMemoryFs w).2
         ∧ cell_data c (utilfs.NewMemoryFs w).2 = cell_data c w)
    ∧ (∀ ops c, allocated c w →
         cell_data c (run_ops (Adapter (MemMapFs a)) ops
                        (utilfs.NewMemoryFs w).2)
         = cell_data c w).
Proof.
  exists (fresh (dom (heap w))). split; [reflexivity|].
  assert (∀ c, allocated c w →
            cell_data c (utilfs.NewMemoryFs w).2 = cell_data c w) as Hkeep.
  { intros c Hal. simpl.
    apply (cell_data_set_cell_ne c (CellMem _) ∅ w).
    apply allocated_not_fresh, Hal. }
  split; [|split; [|split]].
  - simpl. apply is_fresh.
  - simpl. rewrite dom_insert. set_solver.
  - intros c Hal. split; [|apply Hkeep, Hal].
    destruct c; simpl in *; [|exact I]. rewrite dom_insert. set_solver.
  - intros ops c Hal. rewrite run_ops_frame_adapter; [apply Hkeep, Hal|].
    simpl. intros ?%list_elem_of_singleton.
    eapply allocated_not_fresh; eassumption.
Qed.

End more_utilfs_facts.

(** Property X4.  The filesystems this package composes never consult the
    resolver of symbolic links: on the result of [union.NewFs] and on the
    read-only form of an adapter, [CleanedAbs] gives the same answer
    whatever [filepath.EvalSymlinks] would do, also when the files are on
    disk.  Only the adapter of [afero.OsFs] itself resolves links. *)
Theorem composed_filesystems_skip_link_resolution (env1 env2 : Env)
    (base : FileSystem) (opts : list union.Option) (u : FileSystem)
    (w0 w w' : World) (path : string) :
  (∀ p, @filepath_Abs env1 p w' = @filepath_Abs env2 p w') →
  @union.NewFs env1 base opts w0 = (Ok u, w)
  ∨ (∃ a, u = @utilfs.NewReadOnlyFs env1 (Adapter a)) →
  @utilfs.CleanedAbs env1 u path w' = @utilfs.CleanedAbs env2 u path w'.
Proof.
  intros Habs [HNew|[a ->]].
  - destruct (NewFs_inv _ _ _ _ _ HNew) as (cfg & b & l & _ & _ & -> & _).
    simpl. unfold adapter.CleanedAbs. simpl. rewrite Habs. reflexivity.
  - simpl. unfold adapter.CleanedAbs. simpl. rewrite Habs. reflexivity.
Qed.

(** ** pkg/fs/union *)

Section more_reads.

(** In the backends [Stat] either finds the name or reports it missing. *)
Lemma Stat_not_Ok fs name w :
  (∃ fi, afero.Stat fs name w = Ok fi)
  ∨ afero.Stat fs name w = Err (PathError "open" name ErrNotExist).
Proof.
  induction fs as [a| |s IH|b IHb l IHl]; simpl.
  - unfold afero.mem_Stat. destruct (_ !! name); eauto.
  - unfold afero.mem_Stat. destruct (_ !! name); eauto.
  - exact IH.
  - destruct IHl as [[fi ->]| ->]; [eauto|]. exact IHb.
Qed.

Lemma Stat_Err_Open fs name w e :
  afero.Stat fs name w = Err e →
  afero.Open fs name w = Err (PathError "open" name ErrNotExist).
Proof.
  revert e. induction fs as [a| |s IH|b IHb l IHl]; simpl; intros e.
  - unfold afero.mem_Stat, afero.mem_Open.
    destruct (_ !! name); [discriminate|done].
  - unfold afero.mem_Stat, afero.mem_Open.
    destruct (_ !! name); [discriminate|done].
  - apply IH.
  - unfold afero.isBaseFile, afero.IsDir.
    destruct (Stat_not_Ok l name w) as [[fi Hl]|Hl]; rewrite Hl; [discriminate|].
    simpl. intros Hb. rewrite Hb.
    destruct (Stat_not_Ok b name w) as [[fi Hb']|Hb']; [congruence|].
    rewrite Hb' in Hb. injection Hb as <-. reflexivity.
Qed.

(** A composition whose layer holds nothing reads as its base. *)
Lemma CopyOnWriteFs_empty_layer b a w :
  heap w !!! a = ∅ →
  ∀ name,
    afero.Stat (CopyOnWriteFs b (MemMapFs a)) name w = afero.Stat b name w
    ∧ afero.Open (CopyOnWriteFs b (MemMapFs a)) name w = afero.Open b name w.
Proof.
  intros Hemp name. simpl. unfold afero.isBaseFile, afero.IsDir. simpl.
  unfold afero.mem_Stat. rewrite Hemp, lookup_empty. simpl.
  split; [reflexivity|].
  destruct (Stat_not_Ok b name w) as [[fi Hb]|Hb]; rewrite Hb; simpl.
  - reflexivity.
  - symmetry. eapply Stat_Err_Open, Hb.
Qed.

End more_reads.

Section more_union_facts.
Context {env : Env}.

Lemma apply_options_app opts1 opts2 cfg0 :
  union.apply_options (opts1 ++ opts2) cfg0
  = obind (union.apply_options opts1 cfg0) (union.apply_options opts2).
Proof.
  revert cfg0. induction opts1 as [|o rest IH]; intros cfg0; simpl.
  - reflexivity.
  - destruct (o cfg0) as [cfg1|e|v]; simpl; [apply IH|reflexivity|reflexivity].
Qed.

Lemma foldl_insert_union (entries : list (string * list byte))
    (m : gmap string (list byte)) :
  foldl (λ (m : gmap string (list byte)) kv, <[kv.1 := kv.2]> m) m entries
  = list_to_map (reverse entries) ∪ m.
Proof.
  revert m. induction entries as [|[p c] rest IH] using rev_ind; intros m.
  - simpl. rewrite (left_id_L ∅ (∪)). reflexivity.
  - rewrite foldl_app, reverse_app. simpl. rewrite IH.
    rewrite insert_union_l. reflexivity.
Qed.

(** Property X6.  How the options of [NewFs] compose, after any options
    that were applied without error.  [WithOverride] sets one path and
    keeps the others, so the last override of a path wins; [WithOverrides]
    sets each path of its map, keeps the others, and is the same as one
    [WithOverride] per entry; [WithOverlayFs] sets the overlay and keeps the
    overrides.  None of the three fails. *)
Theorem union_options_compose (opts : list union.Option)
    (cfg0 cfg1 : union.config) :
  union.apply_options opts cfg0 = Ok cfg1 →
  (∀ p c, ∃ cfg,
     union.apply_options (opts ++ [union.WithOverride p c]) cfg0 = Ok cfg
     ∧ union.overlay cfg = union.overlay cfg1
     ∧ ∀ q, union.overrides cfg !! q
            = if decide (q = p) then Some c else union.overrides cfg1 !! q)
  ∧ (∀ m, ∃ cfg,
     union.apply_options (opts ++ [union.WithOverrides m]) cfg0 = Ok cfg
     ∧ union.overlay cfg = union.overlay cfg1
     ∧ (∀ q, union.overrides cfg !! q
             = match m !! q with
               | Some c => Some c
               | None => union.overrides cfg1 !! q
               end)
     ∧ union.apply_options
         (opts ++ ((λ kv, union.WithOverride kv.1 kv.2) <$> map_to_list m))
         cfg0 = Ok cfg)
  ∧ (∀ ov, ∃ cfg,
     union.apply_options (opts ++ [union.WithOverlayFs ov]) cfg0 = Ok cfg
     ∧ union.overlay cfg = Some ov
     ∧ union.overrides cfg = union.overrides cfg1).
Proof.
  intros Hopts. split; [|split].
  - intros p c. eexists. rewrite apply_options_app, Hopts. simpl.
    split; [reflexivity|]. split; [reflexivity|]. intros q. simpl.
    case_decide as Hq.
    + subst q. apply lookup_insert_eq.
    + apply lookup_insert_ne. congruence.
  - intros m. eexists. rewrite !apply_options_app, Hopts. simpl.
    split; [reflexivity|]. split; [reflexivity|]. split.
    + intros q. simpl. rewrite lookup_union.
      destruct (m !! q) as [c|]; simpl.
      * destruct (union.overrides cfg1 !! q); reflexivity.
      * destruct (union.overrides cfg1 !! q); reflexivity.
    + rewrite apply_options_overrides. do 2 f_equal.
      rewrite foldl_insert_union. f_equal.
      rewrite <- (list_to_map_to_list m) at 2.
      apply list_to_map_proper.
      * rewrite fmap_reverse, reverse_Permutation. apply NoDup_fst_map_to_list.
      * apply reverse_Permutation.
  - intros ov. eexists. rewrite apply_options_app, Hopts. simpl.
    split; [reflexivity|]. split; reflexivity.
Qed.

(** Property X7.  An overlay given with [WithOverlayFs] takes precedence
    over the overrides: whatever overrides the options also carry, [NewFs]
    does exactly what it does with [WithOverlayFs] alone, and it leaves the
    world as it was.  The overrides are not written anywhere. *)
Theorem NewFs_overlay_option_wins (base : FileSystem)
    (opts : list union.Option) (cfg : union.config) (ov : FileSystem)
    (w : World) :
  union.apply_options opts (union.mkConfig ∅ None) = Ok cfg →
  union.overlay cfg = Some ov →
  union.NewFs base opts w = union.NewFs base [union.WithOverlayFs ov] w
  ∧ (union.NewFs base opts w).2 = w.
Proof.
  intros Hcfg Hov. unfold union.NewFs, mbind, M_bind, bind, lift.
  rewrite Hcfg, Hov. simpl. unfold ret at 1 3.
  destruct (utilfs.Unwrap base) as [b|]; [|done].
  destruct (utilfs.Unwrap ov) as [l|]; done.
Qed.

Lemma on_cell_allocated {A} c (f : MemMapData → outcome A * MemMapData)
    c0 w :
  allocated c0 w → allocated c0 (afero.on_cell c f w).2.
Proof.
  unfold afero.on_cell. destruct (f (cell_data c w)) as [r m'].
  destruct c as [a|], c0 as [a0|]; simpl; try done.
  rewrite dom_insert. set_solver.
Qed.

Lemma write_overrides_allocated a entries c0 w :
  allocated c0 w →
  allocated c0 (union.write_overrides (Adapter (MemMapFs a)) entries w).2.
Proof.
  revert w. induction entries as [|[p c] rest IH]; intros w Hal; [exact Hal|].
  rewrite write_overrides_cons. unfold bind, wrap.
  cbn [utilfs.WriteFile]. unfold adapter.WriteFile, afero.WriteFile.
  unfold mbind, M_bind, bind. cbn [afero.OpenFile].
  pose proof (on_cell_allocated (CellMem a)
                (afero.mem_OpenFile (CellMem a) p) c0 w Hal) as H1.
  destruct (afero.on_cell (CellMem a) (afero.mem_OpenFile (CellMem a) p) w)
    as [[f|e0|v] w1] eqn:Hop; simpl in H1; try exact H1.
  assert (f = MemFile (CellMem a) p true) as ->.
  { revert Hop. unfold afero.on_cell, afero.mem_OpenFile.
    destruct (cell_data (CellMem a) w !! p) as [[]|]; intros [= <- <-]; done. }
  cbn [afero.File_Write].
  pose proof (on_cell_allocated (CellMem a) (afero.mem_Write p c) c0 w1 H1)
    as H2.
  destruct (afero.on_cell (CellMem a) (afero.mem_Write p c) w1)
    as [[[]|e0|v] w2]; simpl in H2; simpl; try exact H2.
  apply IH, H2.
Qed.

(** Property X8.  [NewFs] never succeeds on a base that has no [Unwrap]
    method, such as a [readOnlyWrapper] or a foreign filesystem.  With a
    caller-supplied overlay the error is "base filesystem must be created
    with fs package functions" and nothing has changed.  Without one,
    whatever the overrides, the overlay has been created and pre-populated
    before the base is looked at: the world is the one the writes of the
    overrides into the new overlay leave, the overlay exists in it, and the
    error is that of the base unless a write failed first. *)
Theorem NewFs_rejects_unwrappable (base : FileSystem)
    (opts : list union.Option) (w : World) :
  utilfs.Unwrap base = None →
  (∀ u w0, union.NewFs base opts w ≠ (Ok u, w0))
  ∧ (∀ cfg ov,
       union.apply_options opts (union.mkConfig ∅ None) = Ok cfg →
       union.overlay cfg = Some ov →
       union.NewFs base opts w
       = (Err (ErrorString
                 "base filesystem must be created with fs package functions"),
          w))
  ∧ (∀ cfg,
       union.apply_options opts (union.mkConfig ∅ None) = Ok cfg →
       union.overlay cfg = None →
       ∃ r w1,
         union.write_overrides (Adapter (MemMapFs (fresh (dom (heap w)))))
           (map_to_list (union.overrides cfg)) (utilfs.NewMemoryFs w).2
         = (r, w1)
         ∧ union.NewFs base opts w
           = (match r with
              | Ok _ =>
                  Err (ErrorString
                         "base filesystem must be created with fs package functions")
              | Err err => Err err
              | Panic v => Panic v
              end, w1)
         ∧ ¬ allocated (CellMem (fresh (dom (heap w)))) w
         ∧ allocated (CellMem (fresh (dom (heap w)))) w1
         ∧ (union.overrides cfg = ∅ → w1 = (utilfs.NewMemoryFs w).2)).
Proof.
  intros Hb. split; [|split].
  - intros u w0 HNew.
    destruct (NewFs_inv _ _ _ _ _ HNew) as (cfg & b & l & _ & Hb' & _).
    congruence.
  - intros cfg ov Hcfg Hov. unfold union.NewFs, mbind, M_bind, bind, lift.
    rewrite Hcfg, Hov, Hb. reflexivity.
  - intros cfg Hcfg Hov.
    destruct (union.write_overrides (Adapter (MemMapFs (fresh (dom (heap w)))))
                (map_to_list (union.overrides cfg)) (utilfs.NewMemoryFs w).2)
      as [r w1] eqn:Hwr.
    exists r, w1. split; [reflexivity|].
    pose proof (write_overrides_allocated (fresh (dom (heap w)))
                  (map_to_list (union.overrides cfg))
                  (CellMem (fresh (dom (heap w)))) (utilfs.NewMemoryFs w).2)
      as Hal.
    rewrite Hwr in Hal. split; [|split; [|split]].
    + unfold union.NewFs, mbind, M_bind, bind, lift.
      rewrite Hcfg, Hov. unfold utilfs.NewMemoryFs at 1.
      unfold adapter.New at 1. simpl in Hwr. rewrite Hwr.
      destruct r as [[]|err|v]; [|reflexivity|reflexivity].
      rewrite Hb. reflexivity.
    + simpl. apply is_fresh.
    + apply Hal. simpl. rewrite dom_insert. set_solver.
    + intros Hemp. rewrite Hemp, map_to_list_empty in Hwr.
      injection Hwr as _ <-. reflexivity.
Qed.

Lemma write_overrides_Err ov entries w err w' :
  union.write_overrides ov entries w = (Err err, w') →
  ∃ path content cause,
    (path, content) ∈ entries
    ∧ err = Errorf "failed to write override %s: %w" [path] cause.
Proof.
  revert w. induction entries as [|[p c] rest IH]; intros w; [discriminate|].
  rewrite write_overrides_cons. unfold bind, wrap.
  destruct (utilfs.WriteFile ov p c w) as [[[]|cause|v] w1]; [| |discriminate].
  - intros (path & content & cause & Hin & ->)%IH.
    exists path, content, cause. split; [right; exact Hin|reflexivity].
  - intros [= <- <-]. exists p, c, cause. split; [left|reflexivity].
Qed.

(** Property X9.  The errors of [NewFs].  An error is the error of an
    option; or a failed write of an override, and then it names the path of
    that override; or one of the two "must be created with fs package
    functions" errors, for a base or for a supplied overlay without
    [Unwrap]. *)
Theorem NewFs_errors (base : FileSystem) (opts : list union.Option)
    (w w0 : World) (err : error) :
  union.NewFs base opts w = (Err err, w0) →
  union.apply_options opts (union.mkConfig ∅ None) = Err err
  ∨ ∃ cfg,
      union.apply_options opts (union.mkConfig ∅ None) = Ok cfg
      ∧ ((∃ path content cause,
            union.overlay cfg = None
            ∧ union.overrides cfg !! path = Some content
            ∧ err = Errorf "failed to write override %s: %w" [path] cause)
         ∨ (utilfs.Unwrap base = None
            ∧ err = ErrorString
                      "base filesystem must be created with fs package functions")
         ∨ (∃ ov, union.overlay cfg = Some ov ∧ utilfs.Unwrap ov = None
                  ∧ err = ErrorString
                            "overlay filesystem must be created with fs package functions")).
Proof.
  unfold union.NewFs, mbind, M_bind, bind, lift.
  destruct (union.apply_options opts _) as [cfg|e|v];
    [|intros [= <- <-]; auto|discriminate].
  intros H. right. exists cfg. split; [reflexivity|].
  destruct (union.overlay cfg) as [ov|] eqn:Hov.
  - unfold ret at 1 in H.
    destruct (utilfs.Unwrap base) as [b|] eqn:Hb.
    + destruct (utilfs.Unwrap ov) as [l|] eqn:Hl; [discriminate|].
      injection H as <- <-. right. right. eauto.
    + injection H as <- <-. right. left. auto.
  - unfold utilfs.NewMemoryFs at 1 in H. unfold adapter.New at 1 in H.
    destruct (union.write_overrides _ _ _) as [[[]|e|v] w2] eqn:Hwr;
      [| |discriminate].
    + unfold ret at 1 in H.
      destruct (utilfs.Unwrap base) as [b|] eqn:Hb; [discriminate|].
      injection H as <- <-. right. left. auto.
    + injection H as <- <-. left.
      apply write_overrides_Err in Hwr as (path & content & cause & Hin & ->).
      exists path, content, cause. split; [reflexivity|].
      split; [apply elem_of_map_to_list, Hin|reflexivity].
Qed.

(** Property X10.  A union composed without overrides is transparent:
    right after [NewFs], [ReadFile], [Exists], [IsDir] and [Open] on it give
    what the base gave before the composition, for every path. *)
Theorem NewFs_without_overrides_reads_as_base (base : FileSystem)
    (opts : list union.Option) (cfg : union.config) (b : Fs)
    (u : FileSystem) (w w0 : World) :
  utilfs.Unwrap base = Some b →
  Forall (λ c, allocated c w) (afero.all_cells b) →
  union.apply_options opts (union.mkConfig ∅ None) = Ok cfg →
  union.overlay cfg = None → union.overrides cfg = ∅ →
  union.NewFs base opts w = (Ok u, w0) →
  ∀ path,
    utilfs.ReadFile u path w0 = afero.ReadFile b path w
    ∧ utilfs.Exists u path w0 = adapter.Exists b path w
    ∧ utilfs.IsDir u path w0 = adapter.IsDir b path w
    ∧ utilfs.Open u path w0 = afero.Open b path w.
Proof.
  intros Hb Hlive Hcfg Hov Hemp HNew path.
  destruct (NewFs_fresh _ _ _ _ _ _ Hcfg Hov HNew) as (b' & Hb' & -> & Hne & Hfr).
  rewrite Hb in Hb'. injection Hb' as <-.
  set (a := fresh (dom (heap w))) in *.
  assert (heap w0 !!! a = ∅) as Hlayer.
  { destruct (decide (heap w0 !!! a = ∅)) as [|Hx]; [done|].
    apply Hne in Hx. contradiction. }
  assert (agree_on (afero.all_cells b) w0 w) as Hag.
  { intros c Hc. apply Hfr. apply allocated_not_fresh.
    rewrite Forall_forall in Hlive. auto. }
  destruct (CopyOnWriteFs_empty_layer b a w0 Hlayer path) as [HS HO].
  cbn [utilfs.ReadFile utilfs.Exists utilfs.IsDir utilfs.Open].
  unfold adapter.ReadFile, adapter.Exists, adapter.IsDir, adapter.Open.
  unfold afero.ReadFile at 1.
  rewrite HS, HO. rewrite (Stat_agree _ _ _ _ Hag), (Open_agree _ _ _ _ Hag).
  split; [|done].
  rewrite <- (ReadFile_agree _ _ _ _ Hag). unfold afero.ReadFile.
  rewrite (Open_agree _ _ _ _ Hag). reflexivity.
Qed.

(** What a successful [OpenFile] for writing leaves when the layer is an
    in-memory filesystem: a writable handle on the layer, and the file
    there, empty. *)
Lemma OpenFile_mem a name w f w' :
  afero.OpenFile (MemMapFs a) name w = (Ok f, w') →
  f = MemFile (CellMem a) name true
  ∧ (heap w' !!! a) !! name = Some (RegFile []).
Proof.
  simpl. unfold afero.on_cell, afero.mem_OpenFile. simpl.
  destruct ((heap w !!! a) !! name) as [[d|]|]; intros [= <- <-];
    simpl; rewrite lookup_total_insert_eq, lookup_insert_eq; done.
Qed.

Lemma OpenFile_CopyOnWriteFs_mem b a name w f w' :
  afero.OpenFile (CopyOnWriteFs b (MemMapFs a)) name w = (Ok f, w') →
  f = MemFile (CellMem a) name true
  ∧ (heap w' !!! a) !! name = Some (RegFile []).
Proof.
  cbn [afero.OpenFile]. unfold mbind, M_bind. unfold bind at 1. unfold lift at 1.
  destruct (afero.isBaseFile b (MemMapFs a) name w) as [[]|e|v]; try discriminate.
  - unfold bind.
    destruct (afero.copyToLayer b (MemMapFs a) _ name w)
      as [[[]|e|v] w1]; try discriminate.
    apply OpenFile_mem.
  - destruct (afero.IsDir b (filepath_Dir name) w) as [[]|e|v];
      try discriminate.
    + unfold mbind, M_bind. unfold bind.
      destruct (afero.MkdirAll (MemMapFs a) (filepath_Dir name) w)
        as [[[]|e|v] w1]; try discriminate.
      apply OpenFile_mem.
    + destruct (afero.IsDir (MemMapFs a) (filepath_Dir name) w) as [[]|e|v];
        try discriminate.
      apply OpenFile_mem.
    + destruct (negb (os_IsNotExist e)); [discriminate|].
      destruct (afero.IsDir (MemMapFs a) (filepath_Dir name) w) as [[]|e'|v];
        try discriminate.
      apply OpenFile_mem.
Qed.

(** Property X11.  Writing and reading back through a union that [NewFs]
    composed with an overlay of its own: whenever [WriteFile] succeeds, in
    whatever world, [ReadFile] on the same path returns the bytes written,
    and the path exists and is a file, whether or not the base had it. *)
Theorem union_write_then_read (base : FileSystem)
    (opts : list union.Option) (cfg : union.config) (u : FileSystem)
    (w w0 : World) :
  union.apply_options opts (union.mkConfig ∅ None) = Ok cfg →
  union.overlay cfg = None →
  union.NewFs base opts w = (Ok u, w0) →
  ∀ path data w1 w2,
    utilfs.WriteFile u path data w1 = (Ok tt, w2) →
    utilfs.ReadFile u path w2 = Ok data
    ∧ utilfs.Exists u path w2 = true
    ∧ utilfs.IsDir u path w2 = false.
Proof.
  intros Hcfg Hov HNew path data w1 w2.
  destruct (NewFs_fresh _ _ _ _ _ _ Hcfg Hov HNew) as (b & _ & -> & _).
  set (a := fresh (dom (heap w))).
  simpl. unfold adapter.WriteFile, afero.WriteFile, mbind, M_bind.
  intros (f & w' & [-> Hfile]%OpenFile_CopyOnWriteFs_mem & Hwr)%bind_Ok.
  simpl in Hwr. unfold afero.on_cell, afero.mem_Write in Hwr. simpl in Hwr.
  rewrite Hfile in Hwr. injection Hwr as <-.
  assert (Hnew : (heap (set_heap (<[a := <[path := RegFile data]> (heap w' !!! a)]>
                                    (heap w')) w') !!! a) !! path
                 = Some (RegFile data)).
  { simpl. rewrite lookup_total_insert_eq, lookup_insert_eq. reflexivity. }
  revert Hnew. simpl app.
  generalize (set_heap (<[a := <[path := RegFile data]> (heap w' !!! a)]>
                          (heap w')) w').
  intros w2 Hnew.
  assert (afero.Stat (MemMapFs a) path w2
          = Ok (mkFileInfo (filepath_Base path) false)) as Hstat.
  { simpl. unfold afero.mem_Stat. rewrite Hnew. reflexivity. }
  unfold adapter.ReadFile, adapter.Exists, adapter.IsDir.
  rewrite (CopyOnWriteFs_ReadFile_layer b (MemMapFs a) path w2 _ Hstat).
  split; [|split].
  - unfold afero.ReadFile. simpl. unfold afero.mem_Open. rewrite Hnew. simpl.
    unfold afero.mem_ReadAll. rewrite Hnew. reflexivity.
  - cbn [afero.Stat]. cbn [afero.Stat] in Hstat. rewrite Hstat. reflexivity.
  - cbn [afero.Stat]. cbn [afero.Stat] in Hstat. rewrite Hstat. reflexivity.
Qed.

End more_union_facts.

(** ** pkg/util/io *)

Section more_utilio_facts.

Lemma open_files_flags w :
  os.open_files w
  = size (filter (λ kv : nat * bool, kv.2 = false) (closed_flags w)).
Proof.
  unfold os.open_files, closed_flags.
  rewrite (map_filter_fmap (M := gmap nat)). rewrite map_size_fmap. reflexivity.
Qed.

Lemma Close_open f d w :
  files w !! f = Some (mkOsFile false d) →
  os.Close f w = (Ok tt, set_files (<[f := mkOsFile true d]> (files w)) w).
Proof. intros Hf. unfold os.Close. rewrite Hf. reflexivity. Qed.

Lemma Pipe_Ok w r wr w1 :
  os.Pipe w = (Ok (r, wr), w1) →
  files w !! r = None ∧ files w !! wr = None ∧ r ≠ wr
  ∧ w1 = set_files (<[wr := mkOsFile false []]>
                      (<[r := mkOsFile false []]> (files w))) w.
Proof.
  unfold os.Pipe. case_decide; [|discriminate]. intros [= <- <- <-].
  set (r := fresh (dom (files w))).
  set (wr := fresh (dom (<[r := mkOsFile false []]> (files w)))).
  assert (r ∉ dom (files w)) as Hr by apply is_fresh.
  assert (wr ∉ dom (<[r := mkOsFile false []]> (files w))) as Hwr
    by apply is_fresh.
  split; [apply not_elem_of_dom, Hr|].
  split; [apply not_elem_of_dom; set_solver|].
  split; [set_solver|reflexivity].
Qed.

(** Property X12.  [SuppressStderr] leaks no file descriptor.  When the
    pipe was created and [fn] neither opens nor closes a file (it may
    write), both ends of the pipe are closed when [SuppressStderr] returns,
    they are files that did not exist before, and as many files are open as
    before the call. *)
Theorem SuppressStderr_closes_the_pipe {A} (fn : M A) (w w1 : World)
    (r wr : nat) :
  os.Pipe w = (Ok (r, wr), w1) →
  closed_flags (fn (set_Stderr wr w1)).2 = closed_flags w1 →
  let w' := (utilio.SuppressStderr fn w).2 in
  (∃ d, files w' !! r = Some (mkOsFile true d))
  ∧ (∃ d, files w' !! wr = Some (mkOsFile true d))
  ∧ r ≠ wr ∧ files w !! r = None ∧ files w !! wr = None
  ∧ os.open_files w' = os.open_files w.
Proof.
  intros HP Hfn. unfold utilio.SuppressStderr. rewrite HP.
  destruct (fn (set_Stderr wr w1)) as [res w3] eqn:Hres. simpl in Hfn.
  apply Pipe_Ok in HP as (Hr & Hwr & Hne & ->).
  assert (closed_flags w3 = <[wr := false]> (<[r := false]> (closed_flags w)))
    as Hflags.
  { rewrite Hfn. unfold closed_flags. simpl. rewrite !fmap_insert. reflexivity. }
  assert (∃ dw, files w3 !! wr = Some (mkOsFile false dw)) as [dw Hdw].
  { assert (closed_flags w3 !! wr = Some false) as Hx
      by (rewrite Hflags; apply lookup_insert_eq).
    unfold closed_flags in Hx. rewrite lookup_fmap in Hx.
    destruct (files w3 !! wr) as [[c d]|]; [|discriminate].
    simpl in Hx. injection Hx as ->. eauto. }
  assert (∃ dr, files w3 !! r = Some (mkOsFile false dr)) as [dr Hdr].
  { assert (closed_flags w3 !! r = Some false) as Hx.
    { rewrite Hflags. rewrite lookup_insert_ne by congruence.
      apply lookup_insert_eq. }
    unfold closed_flags in Hx. rewrite lookup_fmap in Hx.
    destruct (files w3 !! r) as [[c d]|]; [|discriminate].
    simpl in Hx. injection Hx as ->. eauto. }
  simpl.
  rewrite (Close_open wr dw (set_Stderr (Stderr w) w3)) by exact Hdw.
  cbn [snd].
  rewrite (Close_open r dr) by (simpl; rewrite lookup_insert_ne by congruence;
                                exact Hdr).
  cbn [snd]. simpl.
  split; [exists dr; apply lookup_insert_eq|].
  split; [exists dw; rewrite lookup_insert_ne by congruence; apply lookup_insert_eq|].
  split; [exact Hne|]. split; [exact Hr|]. split; [exact Hwr|].
  rewrite !open_files_flags. unfold closed_flags at 1. simpl.
  rewrite !fmap_insert. simpl. fold (closed_flags w3). rewrite Hflags.
  assert (<[r := true]> (<[wr := true]> (<[wr := false]> (<[r := false]>
            (closed_flags w))))
          = <[r := true]> (<[wr := true]> (closed_flags w))) as ->.
  { apply map_eq. intros k. rewrite !lookup_insert.
    repeat case_decide; congruence. }
  assert (closed_flags w !! r = None) as Hfr
    by (unfold closed_flags; rewrite lookup_fmap, Hr; reflexivity).
  assert (closed_flags w !! wr = None) as Hfwr
    by (unfold closed_flags; rewrite lookup_fmap, Hwr; reflexivity).
  rewrite map_filter_insert_not'; [|simpl; discriminate|].
  - rewrite map_filter_insert_not'; [reflexivity|simpl; discriminate|].
    intros y. rewrite Hfwr. discriminate.
  - intros y. rewrite lookup_insert_ne by congruence. rewrite Hfr. discriminate.
Qed.

(** Property X13.  What is written to [os.Stderr] while [SuppressStderr]
    runs does not reach the file that [os.Stderr] was: lines printed to
    [os.Stderr] by the wrapped function end up in the write end of the pipe,
    the original file is exactly as it was, and [os.Stderr] is that file
    again afterwards. *)
Theorem SuppressStderr_discards_output (msgs : list string) (w w1 : World)
    (r wr : nat) (old : OsFile) :
  os.Pipe w = (Ok (r, wr), w1) →
  files w !! Stderr w = Some old →
  let res := utilio.SuppressStderr (λ w, WarningLog (Stderr w) msgs w) w in
  res.1 = Ok tt
  ∧ Stderr res.2 = Stderr w
  ∧ files res.2 !! Stderr w = Some old
  ∧ files res.2 !! wr = Some (mkOsFile true (log_lines msgs)).
Proof.
  intros HP Hold. unfold utilio.SuppressStderr. rewrite HP.
  apply Pipe_Ok in HP as (Hr & Hwr & Hne & ->).
  assert (Stderr w ≠ r) as Hner by (intros Heq; rewrite Heq in Hold; congruence).
  assert (Stderr w ≠ wr) as Hnew
    by (intros Heq; rewrite Heq in Hold; congruence).
  set (files1 := <[r := mkOsFile false []]> (files w)).
  set (w2 := set_Stderr wr (set_files (<[wr := mkOsFile false []]> files1) w)).
  assert (WarningLog (Stderr w2) msgs w2
          = (Ok tt, set_files (<[wr := mkOsFile false (log_lines msgs)]>
                                 (files w2)) w2)) as ->.
  { apply (WarningLog_open wr msgs w2 []). simpl. apply lookup_insert_eq. }
  set (w3 := set_files _ w2).
  rewrite (Close_open wr (log_lines msgs) (set_Stderr (Stderr w) w3))
    by (simpl; apply lookup_insert_eq).
  cbn [snd].
  set (w5 := set_files _ (set_Stderr (Stderr w) w3)).
  rewrite (Close_open r [] w5).
  2:{ simpl. rewrite !lookup_insert_ne by congruence.
      unfold files1. apply lookup_insert_eq. }
  cbn [fst snd]. split; [reflexivity|]. split; [reflexivity|].
  simpl. split.
  - rewrite !lookup_insert_ne by congruence.
    unfold files1. rewrite lookup_insert_ne by congruence. exact Hold.
  - rewrite lookup_insert_ne by congruence. apply lookup_insert_eq.
Qed.

End more_utilio_facts.

(** ** pkg: the warning handlers *)

Section more_warning_facts.
Context {env : Env} {kenv : Kust}.

(** Property X14.  [WarningLog(w)] on an open writer appends every
    warning, each followed by a newline, in order, and succeeds; on a writer
    that is closed it fails at the first warning with "failed to write
    warning" and has written nothing; with no warning it does nothing,
    whatever the writer. *)
Theorem WarningLog_contract (f : nat) (warnings : list string) (w : World) :
  (∀ d, files w !! f = Some (mkOsFile false d) →
        WarningLog f warnings w
        = (Ok tt,
           set_files (<[f := mkOsFile false (d ++ log_lines warnings)]>
                        (files w)) w))
  ∧ ((∀ d, files w !! f ≠ Some (mkOsFile false d)) → warnings ≠ [] →
     WarningLog f warnings w
     = (Err (Errorf "failed to write warning: %w" []
               (PathError "write" "" ErrClosed)), w))
  ∧ (warnings = [] → WarningLog f warnings w = (Ok tt, w)).
Proof.
  split; [|split].
  - intros d Hd. apply WarningLog_open, Hd.
  - intros Hclosed Hne. destruct warnings as [|msg rest]; [done|].
    simpl. unfold mbind, M_bind, bind, wrap, os.Fprintln, os.Write.
    destruct (files w !! f) as [[[] d]|] eqn:Hf; try reflexivity.
    exfalso. exact (Hclosed d eq_refl).
  - intros ->. reflexivity.
Qed.

Lemma Run_steps e input values w kust name :
  readKustomization (fs e) (Source_Path input) w = Ok (kust, name) →
  Run e input values w
  = bind (handleWarnings e kust)
         (λ _, build_and_convert e input values kust name) w.
Proof. apply Run_after_read. Qed.

(** Property X15.  The two other built-in policies, in a render whose
    descriptor carries warnings.  With [WarningFail] the render stops with
    an error in which [errors.Is] finds [ErrKustomizeWarnings] and which
    lists the warnings, and the world is as it was: nothing was composed,
    the builder was not called.  With [WarningIgnore] the render goes on
    as if there were no warning. *)
Theorem Run_builtin_warning_policies (e : Engine) (input : Source)
    (values : gmap string string) (w : World) (kust : Kustomization)
    (name : string) (warnings : list string) :
  readKustomization (fs e) (Source_Path input) w = Ok (kust, name) →
  CheckDeprecatedFields kust = Some warnings →
  warnings ≠ [] →
  (WarningHandler_opt (opts e) = Some WarningFail →
   ∃ err,
     Run e input values w = (Err err, w)
     ∧ errors_Is err ErrKustomizeWarnings = true
     ∧ err = Errorf "%w:\n%s" [String.concat "
" warnings] ErrKustomizeWarnings)
  ∧ (WarningHandler_opt (opts e) = Some WarningIgnore →
     handleWarnings e kust w = (Ok tt, w)
     ∧ Run e input values w = build_and_convert e input values kust name w).
Proof.
  intros Hread Hwarn Hne.
  assert (Hhw : ∀ h, WarningHandler_opt (opts e) = Some h →
                     handleWarnings e kust = h warnings).
  { intros h Hh. unfold handleWarnings. rewrite Hwarn, Hh.
    destruct warnings; [done|reflexivity]. }
  split.
  - intros Hh. eexists. split; [|split; [|reflexivity]].
    + rewrite (Run_steps _ _ _ _ _ _ Hread). apply bind_Err_l.
      rewrite (Hhw _ Hh). unfold WarningFail.
      destruct warnings; [done|]. reflexivity.
    + reflexivity.
  - intros Hh. rewrite (Hhw _ Hh). split; [reflexivity|].
    rewrite (Run_steps _ _ _ _ _ _ Hread).
    rewrite (Hhw _ Hh). reflexivity.
Qed.

End more_warning_facts.

(** ** pkg: the engine *)

Section more_engine_facts.
Context {env : Env} {kenv : Kust}.

Lemma bind_Err {A B} (m : M A) (k : A → M B) w e w' :
  bind m k w = (Err e, w') →
  m w = (Err e, w') ∨ ∃ a w1, m w = (Ok a, w1) ∧ k a w1 = (Err e, w').
Proof.
  unfold bind. destruct (m w) as [[a|e0|v] w1]; [eauto| |discriminate].
  intros [= <- <-]. auto.
Qed.

Lemma wrap_Err {A} f (m : M A) w e w' :
  wrap f m w = (Err e, w') → ∃ e0, m w = (Err e0, w') ∧ e = f e0.
Proof.
  unfold wrap. destruct (m w) as [[a|e0|v] w1]; try discriminate.
  intros [= <- <-]. eauto.
Qed.

Lemma lift_Err {A} (f : World → outcome A) w e w' :
  lift f w = (Err e, w') → f w = Err e ∧ w' = w.
Proof. unfold lift. intros [= -> ->]. done. Qed.

Lemma errors_Is_Errorf format args err target :
  errors_Is err target = true →
  errors_Is (Errorf format args err) target = true.
Proof. intros H. simpl. case_decide; [reflexivity|exact H]. Qed.

Lemma Run_read_error e input values w err :
  readKustomization (fs e) (Source_Path input) w = Err err →
  Run e input values w
  = (Err (Errorf "unable to read kustomization from path %q: %w"
                 [Source_Path input] err), w).
Proof.
  intros Hread. rewrite Run_unfold. unfold bind at 1, wrap at 1, lift at 1.
  rewrite Hread. reflexivity.
Qed.

(** *** [prepareFilesystem] *)

(** Property X16.  The errors of [prepareFilesystem].  It fails only when
    an overlay is to be composed, and each failure belongs to one stage: the
    path could not be resolved; the path is a file; the rewritten descriptor
    could not be encoded; the values could not be encoded; the union could
    not be composed.  In the first four cases nothing has changed. *)
Theorem prepareFilesystem_errors (e : Engine) (inputPath : string)
    (kust : Kustomization) (kustName : string) (values : gmap string string)
    (w w' : World) (err : error) :
  prepareFilesystem e inputPath kust kustName values w = (Err err, w') →
  composes e values = true
  ∧ ((∃ cause, utilfs.CleanedAbs (fs e) inputPath w = Err cause
               ∧ err = Errorf "failed to resolve path %q: %w" [inputPath] cause
               ∧ w' = w)
     ∨ (∃ dir file, utilfs.CleanedAbs (fs e) inputPath w = Ok (dir, file)
                    ∧ file ≠ ""
                    ∧ err = Errorf "path %q: %w" [inputPath]
                              ErrPathMustBeDirectory
                    ∧ w' = w)
     ∨ (∃ dir cause,
          utilfs.CleanedAbs (fs e) inputPath w = Ok (dir, "")
          ∧ ((adds_origin e kust = true
              ∧ goyaml_Marshal (with_origin kust) = Err cause
              ∧ err = Errorf "failed to marshal kustomization: %w" [] cause
              ∧ w' = w)
             ∨ (size values ≠ 0
                ∧ createValuesConfigMapYAML values = Err cause
                ∧ err = Errorf "failed to create values ConfigMap: %w" [] cause
                ∧ w' = w)
             ∨ err = Errorf "failed to create union filesystem: %w" [] cause))).
Proof.
  intros Hp. destruct (composes e values) eqn:Hc.
  2:{ rewrite (prepareFilesystem_skip _ _ _ _ _ _ Hc) in Hp. discriminate. }
  split; [reflexivity|]. revert Hp.
  unfold composes, adds_origin, prepareFilesystem in *.
  assert (negb (SourceAnnotations (opts e)) && bool_decide (size values = 0)
          = false) as ->.
  { destruct (SourceAnnotations (opts e)); [reflexivity|]. simpl in *.
    apply negb_true_iff, Hc. }
  unfold mbind, M_bind. intros H.
  apply bind_Err in H as [H|([dir f] & w1 & [Hca ->]%wrap_Ok%lift_Ok & H)].
  { apply wrap_Err in H as (cause & [Hca ->]%lift_Err & ->). left. eauto. }
  destruct (decide (f ≠ "")) as [Hf|Hf].
  { injection H as <- <-. right. left. exists dir, f. auto. }
  assert (f = "") as -> by (destruct (decide (f = "")); [done|contradiction]).
  right. right. exists dir.
  apply bind_Err in H as [H1|([opts1 add1] & w2 & H1 & H)].
  { destruct (SourceAnnotations (opts e)); [|discriminate].
    destruct (decide (OriginAnnotations ∈ BuildMetadata kust)) as [Hin|Hnin];
      [discriminate|].
    apply bind_Err in H1 as [H1|(data & w2 & _ & Hret)]; [|discriminate].
    apply wrap_Err in H1 as (cause & [Hm ->]%lift_Err & ->).
    exists cause. split; [exact Hca|]. left.
    rewrite bool_decide_eq_false_2 by exact Hnin. auto. }
  assert (w2 = w) as ->.
  { destruct (SourceAnnotations (opts e)); [|injection H1 as _ _ <-; done].
    destruct (decide (OriginAnnotations ∈ BuildMetadata kust));
      [injection H1 as _ _ <-; done|].
    apply bind_Ok in H1 as (data & w2' & [_ ->]%wrap_Ok%lift_Ok & Hret).
    injection Hret as _ _ <-. done. }
  apply bind_Err in H as [H2|(opts2 & w3 & H2 & H)].
  { destruct (decide (0 < size values)%nat) as [Hpos|Hzero]; [|discriminate].
    apply bind_Err in H2 as [H2|(vc & w3 & _ & Hret)]; [|discriminate].
    apply wrap_Err in H2 as (cause & [Hv ->]%lift_Err & ->).
    exists cause. split; [exact Hca|]. right. left. repeat split; auto. lia. }
  apply bind_Err in H as [H3|(fsys & w4 & _ & Hret)]; [|discriminate].
  apply wrap_Err in H3 as (cause & _ & ->).
  exists cause. split; [exact Hca|]. right. right. reflexivity.
Qed.

Lemma NewFs_override_read base opts cfg u w w0 path content :
  union.apply_options opts (union.mkConfig ∅ None) = Ok cfg →
  union.overlay cfg = None →
  union.overrides cfg !! path = Some content →
  union.NewFs base opts w = (Ok u, w0) →
  utilfs.ReadFile u path w0 = Ok content.
Proof.
  intros Hcfg Hnone Hlook HNew.
  destruct (NewFs_inv _ _ _ _ _ HNew) as (cfg' & b & l & Hcfg' & Hb & -> & Hov).
  rewrite Hcfg in Hcfg'. injection Hcfg' as <-. rewrite Hnone in Hov.
  destruct Hov as [-> Hwr]. set (a := fresh (dom (heap w))) in *.
  assert ((heap w0 !!! a) !! path = Some (RegFile content)) as Hfile.
  { eapply write_overrides_content; [exact Hwr|apply NoDup_fst_map_to_list|].
    apply elem_of_map_to_list, Hlook. }
  simpl. unfold adapter.ReadFile.
  rewrite (CopyOnWriteFs_ReadFile_layer b (MemMapFs a) path w0
             (mkFileInfo (filepath_Base path) false)).
  - unfold afero.ReadFile. simpl. unfold afero.mem_Open. rewrite Hfile. simpl.
    unfold afero.mem_ReadAll. rewrite Hfile. reflexivity.
  - simpl. unfold afero.mem_Stat. rewrite Hfile. reflexivity.
Qed.

Lemma string_app_inj_l (s a b : string) : s ++ a = s ++ b → a = b.
Proof. induction s as [|c s IH]; simpl; [done|]. intros [= H]. auto. Qed.

Lemma filepath_Join_inj dir a b :
  filepath_Join dir a = filepath_Join dir b → a = b.
Proof.
  unfold filepath_Join. case_decide.
  - apply (string_app_inj_l "/").
  - intros H0%string_app_inj_l. apply (string_app_inj_l "/"), H0.
Qed.

(** Property X17.  What the builder finds in the filesystem that
    [prepareFilesystem] composed.  When there are values, the file
    [values.yaml] of the resolved directory reads as the encoded values.
    When the engine requested origin annotations itself, the descriptor file
    of the resolved directory reads as the encoding of the descriptor with
    [originAnnotations] appended to its build metadata (unless the
    descriptor file is itself called [values.yaml] and there are values,
    which are then written over it). *)
Theorem prepareFilesystem_injected_files (e : Engine) (inputPath : string)
    (kust : Kustomization) (kustName : string) (values : gmap string string)
    (w w' : World) (fsys : FileSystem) (added : bool) :
  composes e values = true →
  prepareFilesystem e inputPath kust kustName values w
  = (Ok (fsys, added), w') →
  ∃ dir,
    utilfs.CleanedAbs (fs e) inputPath w = Ok (dir, "")
    ∧ (size values ≠ 0 →
       ∃ valuesContent,
         createValuesConfigMapYAML values = Ok valuesContent
         ∧ utilfs.ReadFile fsys (filepath_Join dir "values.yaml") w'
           = Ok valuesContent)
    ∧ (added = true → kustName ≠ "values.yaml" ∨ size values = 0 →
       ∃ data,
         goyaml_Marshal (with_origin kust) = Ok data
         ∧ utilfs.ReadFile fsys (filepath_Join dir kustName) w' = Ok data).
Proof.
  unfold composes, prepareFilesystem. intros Hcomp.
  assert (negb (SourceAnnotations (opts e)) && bool_decide (size values = 0)
          = false) as ->.
  { destruct (SourceAnnotations (opts e)); [reflexivity|]. simpl in *.
    apply negb_true_iff, Hcomp. }
  unfold mbind, M_bind.
  intros ([dir f] & w1 & [Hca ->]%wrap_Ok%lift_Ok & Hrest)%bind_Ok.
  destruct (decide (f ≠ "")) as [|Hf]; [discriminate|].
  assert (f = "") as -> by (destruct (decide (f = "")); [done|contradiction]).
  apply bind_Ok in Hrest as ([opts1 add1] & w2 & H1 & Hrest).
  apply bind_Ok in Hrest as (opts2 & w3 & H2 & Hrest).
  apply bind_Ok in Hrest as (fsys' & w4 & HNew%wrap_Ok & Hret).
  injection Hret as <- <- <-.
  exists dir. split; [exact Hca|].
  assert (∃ entries1 : list (string * list byte),
            w2 = w ∧ opts1 = (λ kv, union.WithOverride kv.1 kv.2) <$> entries1
            ∧ (add1 = true →
               ∃ data, goyaml_Marshal (with_origin kust) = Ok data
                       ∧ entries1 = [(filepath_Join dir kustName, data)]))
    as (entries1 & -> & -> & He1).
  { destruct (SourceAnnotations (opts e)); simpl.
    - destruct (decide (OriginAnnotations ∈ BuildMetadata kust)) as [Hin|Hnin].
      + injection H1 as <- <- <-. exists []. split; [done|]. split; [done|].
        discriminate.
      + apply bind_Ok in H1 as (data & w2' & [Hm ->]%wrap_Ok%lift_Ok & Hret).
        injection Hret as <- <- <-.
        exists [(filepath_Join dir kustName, data)].
        split; [done|]. split; [done|]. intros _. exists data. done.
    - injection H1 as <- <- <-. exists []. split; [done|]. split; [done|].
      discriminate. }
  assert (∃ entries2 : list (string * list byte),
            w3 = w ∧ opts2 = (λ kv, union.WithOverride kv.1 kv.2) <$> entries2
            ∧ (size values ≠ 0 →
               ∃ vc, createValuesConfigMapYAML values = Ok vc
                     ∧ entries2
                       = (entries1 ++ [(filepath_Join dir "values.yaml", vc)])%list)
            ∧ (size values = 0 → entries2 = entries1))
    as (entries2 & -> & -> & Hv & Hnv).
  { destruct (decide (0 < size values)%nat) as [Hpos|Hzero].
    - apply bind_Ok in H2 as (vc & w3' & [Hvc ->]%wrap_Ok%lift_Ok & Hret).
      injection Hret as <- <-.
      exists (entries1 ++ [(filepath_Join dir "values.yaml", vc)])%list.
      rewrite fmap_app. split; [done|]. split; [done|]. split; [|lia].
      intros _. exists vc. done.
    - injection H2 as <- <-. exists entries1. split; [done|]. split; [done|].
      split; [lia|done]. }
  pose proof (apply_options_overrides entries2 (union.mkConfig ∅ None)) as Hcfg.
  simpl in Hcfg.
  assert (Hread : ∀ path content,
    foldl (λ (m : gmap string (list byte)) kv, <[kv.1 := kv.2]> m) ∅ entries2
      !! path = Some content →
    utilfs.ReadFile fsys' path w4 = Ok content).
  { intros path content Hl.
    eapply NewFs_override_read; [exact Hcfg|reflexivity|exact Hl|exact HNew]. }
  split.
  - intros Hsz. destruct (Hv Hsz) as (vc & Hvc & ->). exists vc.
    split; [exact Hvc|]. apply Hread. rewrite foldl_app. simpl.
    apply lookup_insert_eq.
  - intros Hadd Hdistinct. destruct (He1 Hadd) as (data & Hm & ->).
    exists data. split; [exact Hm|]. apply Hread.
    destruct (decide (size values = 0)) as [Hz|Hnz].
    + rewrite (Hnv Hz). simpl. apply lookup_insert_eq.
    + destruct (Hv Hnz) as (vc & _ & ->). simpl.
      destruct Hdistinct as [Hne|Hz]; [|contradiction].
      rewrite lookup_insert_ne; [apply lookup_insert_eq|].
      intros Heq. apply Hne. symmetry. eapply filepath_Join_inj, Heq.
Qed.

(** *** [convertResources], the plugins, the annotations *)

Lemma convertResources_Forall2 (e : Engine) (resMap : ResMap)
    (inputPath : string) (docs : list Unstructured) :
  convertResources e resMap inputPath = Ok docs
  ↔ Forall2 (converts_to e inputPath) resMap docs.
Proof.
  revert docs. induction resMap as [|res rest IH]; intros docs; simpl.
  - split.
    + intros [= <-]. constructor.
    + intros H. inversion H. reflexivity.
  - split.
    + destruct (res_Map res) as [m|err|v] eqn:Hm; try discriminate.
      destruct (FromUnstructured m) as [obj|err|v] eqn:Hobj; try discriminate.
      destruct (convertResources e rest inputPath) as [objs|err|v];
        try discriminate.
      simpl. intros [= <-]. constructor.
      * exists m, obj. auto.
      * apply IH. reflexivity.
    + intros H. inversion H as [|? doc ? docs' (m & obj & Hm & Hobj & ->) Hrest];
        subst.
      rewrite Hm, Hobj. apply IH in Hrest. rewrite Hrest. reflexivity.
Qed.

Lemma addSourceAnnotationsToObject_disabled e obj inputPath res :
  SourceAnnotations (opts e) = false →
  addSourceAnnotationsToObject e obj inputPath res = obj.
Proof. intros H. unfold addSourceAnnotationsToObject. rewrite H. reflexivity. Qed.

Lemma addSourceAnnotationsToObject_enabled e obj inputPath res :
  SourceAnnotations (opts e) = true →
  ∃ a, GetAnnotations (addSourceAnnotationsToObject e obj inputPath res) = Some a
       ∧ a !! AnnotationSourceType = Some rendererType
       ∧ a !! AnnotationSourcePath = Some inputPath
       ∧ (∀ origin, res_GetOrigin res = Ok (Some origin) →
                    a !! AnnotationSourceFile = Some (Origin_Path origin))
       ∧ (∀ k, k ≠ AnnotationSourceType → k ≠ AnnotationSourcePath →
               k ≠ AnnotationSourceFile →
               a !! k = (GetAnnotations obj ≫= (.!! k))).
Proof.
  intros HSA. unfold addSourceAnnotationsToObject. rewrite HSA. simpl.
  eexists. split; [reflexivity|].
  assert (AnnotationSourceType ≠ AnnotationSourcePath) as H1 by discriminate.
  assert (AnnotationSourceType ≠ AnnotationSourceFile) as H2 by discriminate.
  assert (AnnotationSourcePath ≠ AnnotationSourceFile) as H3 by discriminate.
  assert (Hbase : ∀ k, k ≠ AnnotationSourceType → k ≠ AnnotationSourcePath →
            (<[AnnotationSourcePath := inputPath]>
               (<[AnnotationSourceType := rendererType]>
                  (default ∅ (GetAnnotations obj)))) !! k
            = (GetAnnotations obj ≫= (.!! k))).
  { intros k K1 K2. rewrite !lookup_insert_ne by congruence.
    destruct (GetAnnotations obj); simpl; [reflexivity|apply lookup_empty]. }
  destruct (res_GetOrigin res) as [[o|]|err|v].
  - split; [rewrite !lookup_insert_ne by congruence; apply lookup_insert_eq|].
    split; [rewrite lookup_insert_ne by congruence; apply lookup_insert_eq|].
    split; [intros origin [= <-]; apply lookup_insert_eq|].
    intros k K1 K2 K3. rewrite lookup_insert_ne by congruence. auto.
  - split; [rewrite !lookup_insert_ne by congruence; apply lookup_insert_eq|].
    split; [apply lookup_insert_eq|]. split; [discriminate|]. auto.
  - split; [rewrite !lookup_insert_ne by congruence; apply lookup_insert_eq|].
    split; [apply lookup_insert_eq|]. split; [discriminate|]. auto.
  - split; [rewrite !lookup_insert_ne by congruence; apply lookup_insert_eq|].
    split; [apply lookup_insert_eq|]. split; [discriminate|]. auto.
Qed.

(** Property X18.  [convertResources] succeeds exactly when every
    resource converts, and then returns one document per resource, in the
    order of the resources, each being the converted resource with the
    source annotations added; with source annotations disabled the documents
    are the converted resources themselves. *)
Theorem convertResources_spec (e : Engine) (resMap : ResMap)
    (inputPath : string) :
  (∀ docs, convertResources e resMap inputPath = Ok docs
           ↔ Forall2 (converts_to e inputPath) resMap docs)
  ∧ (∀ docs, convertResources e resMap inputPath = Ok docs →
             length docs = length resMap)
  ∧ (Forall convertible resMap →
     ∃ docs, convertResources e resMap inputPath = Ok docs)
  ∧ (SourceAnnotations (opts e) = false →
     ∀ docs, convertResources e resMap inputPath = Ok docs →
             Forall2 (λ res doc, ∃ m, res_Map res = Ok m
                                      ∧ FromUnstructured m = Ok doc)
                     resMap docs).
Proof.
  split; [|split; [|split]].
  - intros docs. apply convertResources_Forall2.
  - intros docs Hc%convertResources_Forall2. symmetry.
    eapply Forall2_length, Hc.
  - intros Hall. induction Hall as [|res rest (m & obj & Hm & Hobj) _ [docs IH]].
    + exists []. reflexivity.
    + eexists. simpl. rewrite Hm, Hobj, IH. reflexivity.
  - intros HSA docs Hc%convertResources_Forall2.
    eapply Forall2_impl; [exact Hc|].
    intros res doc (m & obj & Hm & Hobj & ->). exists m.
    rewrite addSourceAnnotationsToObject_disabled by exact HSA. auto.
Qed.

(** Property X19.  A failure of [convertResources] is the failure of the
    first resource that does not convert: every resource before it
    converts, and the error wraps the cause and names that resource by its
    identifier.  No document is returned for the resources before it. *)
Theorem convertResources_first_error (e : Engine) (resMap : ResMap)
    (inputPath : string) (err : error) :
  convertResources e resMap inputPath = Err err →
  ∃ pre res post,
    resMap = (pre ++ res :: post)%list
    ∧ Forall convertible pre
    ∧ ((∃ cause, res_Map res = Err cause
                 ∧ err = Errorf "failed to convert resource %s to map: %w"
                           [res_CurId res] cause)
       ∨ (∃ m cause, res_Map res = Ok m ∧ FromUnstructured m = Err cause
                     ∧ err = Errorf
                         "failed to convert map to unstructured for resource %s: %w"
                         [res_CurId res] cause)).
Proof.
  induction resMap as [|res rest IH]; simpl; [discriminate|].
  destruct (res_Map res) as [m|cause|v] eqn:Hm; [| |discriminate].
  - destruct (FromUnstructured m) as [obj|cause|v] eqn:Hobj; [| |discriminate].
    + destruct (convertResources e rest inputPath) as [objs|err'|v];
        [discriminate| |discriminate].
      simpl. intros [= <-].
      destruct (IH eq_refl) as (pre & res' & post & -> & Hpre & Hres).
      exists (res :: pre), res', post. split; [reflexivity|].
      split; [|exact Hres]. constructor; [|exact Hpre]. exists m, obj. auto.
    + intros [= <-]. exists [], res, rest. split; [reflexivity|].
      split; [constructor|]. right. eauto.
  - intros [= <-]. exists [], res, rest. split; [reflexivity|].
    split; [constructor|]. left. eauto.
Qed.

Lemma apply_plugins_Err plugins path rm cause :
  apply_plugins plugins path rm = Err cause →
  ∃ inner, cause
           = Errorf "failed to apply kustomize plugin transformer for path %q: %w"
               [path] inner.
Proof.
  revert rm. induction plugins as [|t rest IH]; intros rm; simpl; [discriminate|].
  destruct (t rm) as [rm'|err|v]; [apply IH| |discriminate].
  intros [= <-]. eauto.
Qed.

(** Property X20.  The plugins run in the order they were registered,
    each on the result of the one before: running a list of plugins is
    running a first part and then the rest on its result.  The first
    failure stops the run, the plugins after it are not called, and the
    error wraps the plugin's error with the path of the source. *)
Theorem apply_plugins_in_order (ps1 ps2 : list Transformer) (path : string)
    (rm : ResMap) :
  apply_plugins (ps1 ++ ps2) path rm
  = obind (apply_plugins ps1 path rm) (apply_plugins ps2 path)
  ∧ (∀ cause, apply_plugins ps1 path rm = Err cause →
              apply_plugins (ps1 ++ ps2) path rm = Err cause
              ∧ ∃ inner,
                  cause
                  = Errorf
                      "failed to apply kustomize plugin transformer for path %q: %w"
                      [path] inner)
  ∧ (∀ t, apply_plugins [t] path rm
          = match t rm with
            | Err err =>
                Err (Errorf
                       "failed to apply kustomize plugin transformer for path %q: %w"
                       [path] err)
            | r => r
            end).
Proof.
  assert (Happ : ∀ rm0, apply_plugins (ps1 ++ ps2) path rm0
                 = obind (apply_plugins ps1 path rm0) (apply_plugins ps2 path)).
  { induction ps1 as [|t rest IH]; intros rm0; simpl; [reflexivity|].
    destruct (t rm0) as [rm'|err|v]; [apply IH|reflexivity|reflexivity]. }
  split; [apply Happ|]. split.
  - intros cause Hc. rewrite Happ, Hc. split; [reflexivity|].
    eapply apply_plugins_Err, Hc.
  - intros t. simpl. destruct (t rm); reflexivity.
Qed.

(** Property X21.  [removeOriginAnnotation] removes the annotation
    [config.kubernetes.io/origin] and nothing else: the other annotations
    and the rest of the object are kept, an object without annotations still
    has none, and removing twice is removing once. *)
Theorem removeOriginAnnotation_only_origin (obj : Unstructured) :
  Fields (removeOriginAnnotation obj) = Fields obj
  ∧ (∀ k, k ≠ originKey →
          (GetAnnotations (removeOriginAnnotation obj) ≫= (.!! k))
          = (GetAnnotations obj ≫= (.!! k)))
  ∧ (GetAnnotations (removeOriginAnnotation obj) ≫= (.!! originKey)) = None
  ∧ (is_Some (GetAnnotations (removeOriginAnnotation obj))
     ↔ is_Some (GetAnnotations obj))
  ∧ removeOriginAnnotation (removeOriginAnnotation obj)
    = removeOriginAnnotation obj.
Proof.
  unfold removeOriginAnnotation, GetAnnotations, SetAnnotations.
  destruct obj as [[a|] f]; simpl.
  - split; [reflexivity|]. split; [|split; [|split]].
    + intros k Hk. apply lookup_delete_ne. congruence.
    + apply lookup_delete_eq.
    + split; eauto.
    + rewrite delete_delete_eq. reflexivity.
  - repeat split; auto.
Qed.

(** *** [Run] *)

(** The overlay is the only filesystem [NewFs] and [prepareFilesystem]
    write to, and they leave the process alone. *)
Lemma ww_NewFs base opts w :
  writes_within [CellMem (fresh (dom (heap w)))] (union.NewFs base opts) w.
Proof.
  unfold union.NewFs, mbind, M_bind.
  apply ww_bind; [apply ww_lift|]. intros cfg w' [_ ->]%lift_Ok.
  apply ww_bind.
  - destruct (union.overlay cfg) as [ov|]; [apply ww_ret|].
    apply ww_bind.
    + intros c Hc. simpl. apply (cell_data_set_cell_ne c (CellMem _) ∅ w).
      intros ->. apply Hc. set_solver.
    + intros ov w1 [= <- <-]. apply ww_bind; [|intros; apply ww_ret].
      apply ww_write_overrides.
  - intros ov w2 _. destruct (utilfs.Unwrap base); [|apply ww_fail].
    destruct (utilfs.Unwrap ov); [apply ww_ret|apply ww_fail].
Qed.

Lemma ww_prepareFilesystem e inputPath kust kustName values w :
  writes_within [CellMem (fresh (dom (heap w)))]
    (prepareFilesystem e inputPath kust kustName values) w.
Proof.
  intros c Hc.
  unfold prepareFilesystem, mbind, M_bind, bind, wrap, lift, ret, fail.
  destruct (negb (SourceAnnotations (opts e)) && bool_decide (size values = 0));
    [reflexivity|].
  destruct (utilfs.CleanedAbs (fs e) inputPath w) as [[p f]|err|v];
    try reflexivity.
  destruct (decide (f ≠ "")); [reflexivity|].
  assert (Hgo : ∀ opts2 added,
    cell_data c
      (match
         match union.NewFs (fs e) opts2 w with
         | (Err e0, w') =>
             (Err (Errorf "failed to create union filesystem: %w" [] e0), w')
         | r => r
         end
       with
       | (Ok a, w') => (Ok (a, added : bool), w')
       | (Err e0, w') => (Err e0, w')
       | (Panic v, w') => (Panic v, w')
       end).2 = cell_data c w).
  { intros opts2 added. pose proof (ww_NewFs (fs e) opts2 w c Hc) as HN.
    destruct (union.NewFs (fs e) opts2 w) as [[u|e0|v] w']; exact HN. }
  destruct (SourceAnnotations (opts e));
    [destruct (decide (OriginAnnotations ∈ BuildMetadata kust));
     [|destruct (goyaml_Marshal _) as [data|err|v]; try reflexivity]|];
    (destruct (decide (0 < size values)%nat);
     [destruct (createValuesConfigMapYAML values) as [vc|err|v];
      try reflexivity|]);
    apply Hgo.
Qed.

Lemma on_cell_process_state {A} c (f : MemMapData → outcome A * MemMapData) w :
  process_state (afero.on_cell c f w).2 = process_state w.
Proof.
  unfold afero.on_cell. destruct (f (cell_data c w)) as [r m'].
  destruct c; reflexivity.
Qed.

Lemma write_overrides_process_state a entries w :
  process_state
    (union.write_overrides (Adapter (MemMapFs a)) entries w).2
  = process_state w.
Proof.
  revert w. induction entries as [|[p c] rest IH]; intros w; [reflexivity|].
  rewrite write_overrides_cons. unfold bind, wrap.
  cbn [utilfs.WriteFile]. unfold adapter.WriteFile, afero.WriteFile.
  unfold mbind, M_bind, bind. cbn [afero.OpenFile].
  pose proof (on_cell_process_state (CellMem a)
                (afero.mem_OpenFile (CellMem a) p) w) as H1.
  destruct (afero.on_cell (CellMem a) (afero.mem_OpenFile (CellMem a) p) w)
    as [[f|e0|v] w1] eqn:Hop; simpl in H1; try exact H1.
  assert (f = MemFile (CellMem a) p true) as ->.
  { revert Hop. unfold afero.on_cell, afero.mem_OpenFile.
    destruct (cell_data (CellMem a) w !! p) as [[]|]; intros [= <- <-]; done. }
  cbn [afero.File_Write].
  pose proof (on_cell_process_state (CellMem a) (afero.mem_Write p c) w1) as H2.
  destruct (afero.on_cell (CellMem a) (afero.mem_Write p c) w1)
    as [[[]|e0|v] w2]; simpl in H2; simpl; congruence.
Qed.

Lemma NewFs_process_state base opts w :
  process_state (union.NewFs base opts w).2 = process_state w.
Proof.
  unfold union.NewFs, mbind, M_bind, bind, lift.
  destruct (union.apply_options opts _) as [cfg|e0|v]; try reflexivity.
  destruct (union.overlay cfg) as [ov|].
  - unfold ret at 1. destruct (utilfs.Unwrap base); [|reflexivity].
    destruct (utilfs.Unwrap ov); reflexivity.
  - unfold utilfs.NewMemoryFs at 1. unfold adapter.New at 1.
    set (a := fresh (dom (heap w))). set (w1 := set_heap _ w).
    pose proof (write_overrides_process_state a
                  (map_to_list (union.overrides cfg)) w1) as H1.
    destruct (union.write_overrides _ _ w1) as [[[]|e0|v] w2]; simpl in H1;
      try exact H1.
    unfold ret at 1. destruct (utilfs.Unwrap base); simpl; exact H1.
Qed.

Lemma prepareFilesystem_process_state e inputPath kust kustName values w :
  process_state (prepareFilesystem e inputPath kust kustName values w).2
  = process_state w.
Proof.
  unfold prepareFilesystem, mbind, M_bind, bind, wrap, lift, ret, fail.
  destruct (negb (SourceAnnotations (opts e)) && bool_decide (size values = 0));
    [reflexivity|].
  destruct (utilfs.CleanedAbs (fs e) inputPath w) as [[p f]|err|v];
    try reflexivity.
  destruct (decide (f ≠ "")); [reflexivity|].
  assert (Hgo : ∀ opts2 added,
    process_state
      (match
         match union.NewFs (fs e) opts2 w with
         | (Err e0, w') =>
             (Err (Errorf "failed to create union filesystem: %w" [] e0), w')
         | r => r
         end
       with
       | (Ok a, w') => (Ok (a, added : bool), w')
       | (Err e0, w') => (Err e0, w')
       | (Panic v, w') => (Panic v, w')
       end).2 = process_state w).
  { intros opts2 added. pose proof (NewFs_process_state (fs e) opts2 w) as HN.
    destruct (union.NewFs (fs e) opts2 w) as [[u|e0|v] w']; exact HN. }
  destruct (SourceAnnotations (opts e));
    [destruct (decide (OriginAnnotations ∈ BuildMetadata kust));
     [|destruct (goyaml_Marshal _) as [data|err|v]; try reflexivity]|];
    (destruct (decide (0 < size values)%nat);
     [destruct (createValuesConfigMapYAML values) as [vc|err|v];
      try reflexivity|]);
    apply Hgo.
Qed.

(** The build step, once the pipe is there. *)
Lemma SuppressStderr_build restrictions fsys path w r wr w1 :
  os.Pipe w = (Ok (r, wr), w1) →
  utilio.SuppressStderr
    (wrap (Errorf "kustomizer run failed: %w" [])
          (kustomizer_Run restrictions fsys path)) w
  = (match krusty_build restrictions fsys path (set_Stderr wr w1) with
     | Err err => Err (Errorf "kustomizer run failed: %w" [] err)
     | r => r
     end,
     after_build (mkBuildCall restrictions fsys path) r wr w).
Proof.
  intros HP. unfold utilio.SuppressStderr. rewrite HP.
  apply Pipe_Ok in HP as (Hr & Hwr & Hne & ->).
  unfold wrap, kustomizer_Run.
  set (w2 := set_Stderr wr _).
  assert (Hfin : ∀ w3, w3 = set_builds
                   (builds w2 ++ [mkBuildCall restrictions fsys path]) w2 →
            (os.Close r (os.Close wr (set_Stderr (Stderr w) w3)).2).2
            = after_build (mkBuildCall restrictions fsys path) r wr w).
  { intros w3 ->.
    set (w4 := set_Stderr _ _).
    rewrite (Close_open wr [] w4) by (simpl; apply lookup_insert_eq).
    cbn [snd].
    set (w5 := set_files _ w4).
    rewrite (Close_open r [] w5).
    2:{ simpl. rewrite lookup_insert_ne by congruence.
        rewrite lookup_insert_ne by congruence. apply lookup_insert_eq. }
    cbn [snd]. subst w5 w4 w2.
    unfold after_build, set_files, set_Stderr, set_builds. simpl. f_equal.
    apply map_eq. intros k. rewrite !lookup_insert.
    repeat case_decide; congruence. }
  destruct (krusty_build restrictions fsys path w2) as [rm|err|v];
    cbn [fst snd]; rewrite (Hfin _ eq_refl); reflexivity.
Qed.

Lemma build_and_convert_world e input values kust name w :
  match prepareFilesystem e (Source_Path input) kust name values w with
  | (Ok (fsys, added), w2) =>
      match os.Pipe w2 with
      | (Ok (r, wr), _) =>
          (build_and_convert e input values kust name w).2
          = after_build (builder_call e input fsys) r wr w2
      | _ => (build_and_convert e input values kust name w).2 = w2
      end
  | (_, w2) => (build_and_convert e input values kust name w).2 = w2
  end.
Proof.
  destruct (build_and_convert e input values kust name w) as [o w'] eqn:Hbc.
  revert Hbc. unfold build_and_convert, mbind, M_bind. unfold bind at 1.
  destruct (prepareFilesystem _ _ _ _ _ w) as [[[fsys added]|err|v] w2];
    [|intros [= <- <-]; reflexivity..].
  destruct (os.Pipe w2) as [[[r wr]|err|v] w3] eqn:HP.
  - unfold bind at 1, wrap at 1.
    rewrite (SuppressStderr_build _ _ _ _ _ _ _ HP).
    destruct (krusty_build _ _ _ _) as [rm|err|v];
      [|intros [= <- <-]; reflexivity..].
    unfold bind, lift, ret.
    destruct (apply_plugins _ _ rm) as [rm'|err|v];
      [|intros [= <- <-]; reflexivity..].
    destruct (convertResources e rm' _) as [docs|err|v];
      intros [= <- <-]; reflexivity.
  - unfold bind at 1, wrap at 1, utilio.SuppressStderr. rewrite HP.
    apply Pipe_fails in HP as [-> _]. intros [= <- <-]. reflexivity.
  - exfalso. eapply Pipe_no_panic, HP.
Qed.

Lemma build_and_convert_Ok e input values kust name w docs w' :
  build_and_convert e input values kust name w = (Ok docs, w') →
  ∃ fsys added w2 r wr w3 rm rm' converted,
    prepareFilesystem e (Source_Path input) kust name values w
    = (Ok (fsys, added), w2)
    ∧ os.Pipe w2 = (Ok (r, wr), w3)
    ∧ krusty_build (effective_restrictions e input) fsys (Source_Path input)
        (set_Stderr wr w3) = Ok rm
    ∧ apply_plugins (Plugins (opts e)) (Source_Path input) rm = Ok rm'
    ∧ convertResources e rm' (Source_Path input) = Ok converted
    ∧ docs = (if added : bool then removeOriginAnnotation <$> converted
              else converted)
    ∧ w' = after_build (builder_call e input fsys) r wr w2.
Proof.
  unfold build_and_convert, mbind, M_bind.
  intros ([fsys added] & w2 & Hp & Hrest)%bind_Ok.
  apply bind_Ok in Hrest as (rm & w3' & Hbuild%wrap_Ok & Hrest).
  apply bind_Ok in Hrest as (rm' & w4 & [Hpl ->]%lift_Ok & Hrest).
  apply bind_Ok in Hrest as (converted & w5 & [Hconv ->]%lift_Ok & Hrest).
  injection Hrest as <- <-.
  destruct (os.Pipe w2) as [[[r wr]|err|v] w3] eqn:HP.
  - rewrite (SuppressStderr_build _ _ _ _ _ _ _ HP) in Hbuild.
    destruct (krusty_build _ _ _ _) as [rm0|err|v] eqn:Hk; try discriminate.
    injection Hbuild as -> <-.
    exists fsys, added, w2, r, wr, w3, rm, rm', converted. auto 10.
  - unfold utilio.SuppressStderr in Hbuild. rewrite HP in Hbuild. discriminate.
  - exfalso. eapply Pipe_no_panic, HP.
Qed.

(** Property X22.  The documents of a successful render.  The builder was
    called on the filesystem [prepareFilesystem] returned, the plugins were
    run on its resources, and the documents are one per resulting resource,
    in order.  Each has the fields of the converted resource.  With source
    annotations enabled each carries the renderer type [kustomize], the
    path of the source and, when the resource knows its origin, the file it
    comes from, and every other annotation except the origin annotation is
    the converted resource's; with source annotations disabled each
    document is the converted resource, untouched. *)
Theorem Run_source_annotations (e : Engine) (input : Source)
    (values : gmap string string) (w w' : World) (kust : Kustomization)
    (name : string) (docs : list Unstructured) :
  readKustomization (fs e) (Source_Path input) w = Ok (kust, name) →
  Run e input values w = (Ok docs, w') →
  ∃ w1 fsys w2 r wr wp (built resMap : ResMap),
    handleWarnings e kust w = (Ok tt, w1)
    ∧ prepareFilesystem e (Source_Path input) kust name values w1
      = (Ok (fsys, adds_origin e kust), w2)
    ∧ os.Pipe w2 = (Ok (r, wr), wp)
    ∧ krusty_build (effective_restrictions e input) fsys (Source_Path input)
        (set_Stderr wr wp) = Ok built
    ∧ apply_plugins (Plugins (opts e)) (Source_Path input) built = Ok resMap
    ∧ Forall2
      (λ res doc,
         ∃ m obj,
           res_Map res = Ok m ∧ FromUnstructured m = Ok obj
           ∧ Fields doc = Fields obj
           ∧ if SourceAnnotations (opts e) then
               ∃ a, GetAnnotations doc = Some a
                    ∧ a !! AnnotationSourceType = Some rendererType
                    ∧ a !! AnnotationSourcePath = Some (Source_Path input)
                    ∧ (∀ o, res_GetOrigin res = Ok (Some o) →
                            a !! AnnotationSourceFile = Some (Origin_Path o))
                    ∧ (∀ k, k ≠ AnnotationSourceType →
                            k ≠ AnnotationSourcePath →
                            k ≠ AnnotationSourceFile → k ≠ originKey →
                            a !! k = (GetAnnotations obj ≫= (.!! k)))
             else doc = obj)
      resMap docs.
Proof.
  intros Hread HRun.
  rewrite (Run_steps _ _ _ _ _ _ Hread) in HRun.
  apply bind_Ok in HRun as ([] & w1 & Hw & Hbc).
  destruct (build_and_convert_Ok _ _ _ _ _ _ _ _ Hbc)
    as (fsys & added & w2 & r & wr & w3 & rm & rm' & conv & Hp0 & HP & Hk
        & Hpl & Hconv & -> & _).
  pose proof (prepareFilesystem_added _ _ _ _ _ _ _ _ _ Hp0) as Hp.
  apply convertResources_Forall2 in Hconv.
  exists w1, fsys, w2, r, wr, w3, rm, rm'.
  split; [exact Hw|]. split; [rewrite <- Hp; exact Hp0|].
  split; [exact HP|]. split; [exact Hk|]. split; [exact Hpl|].
  clear Hp0. unfold adds_origin in Hp.
  destruct (SourceAnnotations (opts e)) eqn:HSA.
  - assert (Horig : originKey ≠ AnnotationSourceType
                    ∧ originKey ≠ AnnotationSourcePath
                    ∧ originKey ≠ AnnotationSourceFile)
      by (repeat split; discriminate).
    destruct Horig as (O1 & O2 & O3).
    assert (Hone : ∀ res d, converts_to e (Source_Path input) res d →
              ∀ strip : bool,
              ∃ m obj, res_Map res = Ok m ∧ FromUnstructured m = Ok obj
                ∧ Fields (if strip then removeOriginAnnotation d else d)
                  = Fields obj
                ∧ ∃ a, GetAnnotations
                         (if strip then removeOriginAnnotation d else d)
                       = Some a
                    ∧ a !! AnnotationSourceType = Some rendererType
                    ∧ a !! AnnotationSourcePath = Some (Source_Path input)
                    ∧ (∀ o, res_GetOrigin res = Ok (Some o) →
                            a !! AnnotationSourceFile = Some (Origin_Path o))
                    ∧ (∀ k, k ≠ AnnotationSourceType →
                            k ≠ AnnotationSourcePath →
                            k ≠ AnnotationSourceFile → k ≠ originKey →
                            a !! k = (GetAnnotations obj ≫= (.!! k)))).
    { intros res d (m & obj & Hm & Hobj & ->) strip. exists m, obj.
      split; [exact Hm|]. split; [exact Hobj|].
      destruct (addSourceAnnotationsToObject_enabled e obj (Source_Path input)
                  res HSA) as (a & Ha & A1 & A2 & A3 & A4).
      assert (Fields (addSourceAnnotationsToObject e obj (Source_Path input) res)
              = Fields obj) as HF.
      { unfold addSourceAnnotationsToObject. rewrite HSA. reflexivity. }
      destruct strip.
      - unfold removeOriginAnnotation. rewrite Ha. simpl.
        split; [exact HF|]. exists (delete originKey a).
        split; [reflexivity|].
        rewrite !lookup_delete_ne by congruence.
        split; [exact A1|]. split; [exact A2|]. split.
        + intros o Ho. auto.
        + intros k K1 K2 K3 K4. rewrite lookup_delete_ne by congruence. auto.
      - split; [exact HF|]. exists a. split; [exact Ha|].
        split; [exact A1|]. split; [exact A2|]. split; [exact A3|].
        intros k K1 K2 K3 _. auto. }
    destruct added.
    + apply Forall2_fmap_r. eapply Forall2_impl; [exact Hconv|].
      intros res d Hd. exact (Hone res d Hd true).
    + eapply Forall2_impl; [exact Hconv|].
      intros res d Hd. exact (Hone res d Hd false).
  - simpl in Hp. subst added.
    eapply Forall2_impl; [exact Hconv|].
    intros res d (m & obj & Hm & Hobj & ->). exists m, obj.
    rewrite addSourceAnnotationsToObject_disabled by exact HSA. auto.
Qed.

(** Property X23.  A render calls the builder at most once, and exactly
    once when it succeeds.  The call is made with the path of the source,
    with the source's load restrictions unless they are
    [LoadRestrictionsUnknown] (then with the renderer's), and with the
    engine's own filesystem exactly when no overlay is composed. *)
Theorem Run_calls_builder_at_most_once (e : Engine) (input : Source)
    (values : gmap string string) (w w1 : World) (kust : Kustomization)
    (name : string) :
  readKustomization (fs e) (Source_Path input) w = Ok (kust, name) →
  handleWarnings e kust w = (Ok tt, w1) →
  let res := Run e input values w in
  (builds res.2 = builds w1
   ∨ ∃ fsys, builds res.2 = (builds w1 ++ [builder_call e input fsys])%list)
  ∧ (∀ docs, res.1 = Ok docs →
       ∃ fsys, builds res.2 = (builds w1 ++ [builder_call e input fsys])%list
               ∧ (fsys = fs e ↔ composes e values = false))
  ∧ (∀ fsys, bc_path (builder_call e input fsys) = Source_Path input
             ∧ bc_fs (builder_call e input fsys) = fsys
             ∧ bc_restrictions (builder_call e input fsys)
               = match Source_LoadRestrictions input with
                 | LoadRestrictionsUnknown => LoadRestrictions_default (opts e)
                 | r => r
                 end).
Proof.
  intros Hread Hw res. unfold res.
  rewrite (Run_steps _ _ _ _ _ _ Hread), (bind_Ok_l _ _ _ _ _ Hw).
  split; [|split].
  - pose proof (build_and_convert_world e input values kust name w1) as Hworld.
    pose proof (prepareFilesystem_process_state e (Source_Path input) kust
                  name values w1) as Hps.
    destruct (prepareFilesystem _ _ _ _ _ w1) as [[[fsys added]|err|v] w2];
      simpl in Hps.
    + assert (builds w2 = builds w1) as Hb by (injection Hps; auto).
      destruct (os.Pipe w2) as [[[r wr]|err|v] w3]; rewrite Hworld.
      * right. exists fsys. simpl. rewrite Hb. reflexivity.
      * left. exact Hb.
      * left. exact Hb.
    + left. rewrite Hworld. injection Hps; auto.
    + left. rewrite Hworld. injection Hps; auto.
  - intros docs Hdocs.
    destruct (build_and_convert e input values kust name w1) as [o w'] eqn:Hbc.
    simpl in Hdocs. subst o.
    destruct (build_and_convert_Ok _ _ _ _ _ _ _ _ Hbc)
      as (fsys & added & w2 & r & wr & w3 & rm & rm' & conv & Hp & HP & _ & _
          & _ & _ & ->).
    pose proof (prepareFilesystem_process_state e (Source_Path input) kust
                  name values w1) as Hps.
    rewrite Hp in Hps. simpl in Hps.
    exists fsys. split.
    + simpl. injection Hps as _ _ _ ->. reflexivity.
    + destruct (composes e values) eqn:Hc.
      * destruct (prepareFilesystem_compose _ _ _ _ _ _ _ _ _ Hc Hp)
          as (b & dir & Hb & _ & -> & _).
        split; [|discriminate]. intros Heq. exfalso.
        rewrite <- Heq in Hb. simpl in Hb. injection Hb as Hb.
        unfold adapter.Unwrap in Hb.
        assert (∀ x y : Fs, x ≠ CopyOnWriteFs x y) as Hneq.
        { induction x; intros y; try discriminate. intros [= H1 H2].
          eapply IHx1, H1. }
        eapply Hneq. symmetry. exact Hb.
      * rewrite (prepareFilesystem_skip _ _ _ _ _ _ Hc) in Hp.
        injection Hp as <- <- <-. done.
  - intros fsys. split; [reflexivity|]. split; [reflexivity|].
    simpl. unfold effective_restrictions.
    destruct (Source_LoadRestrictions input); reflexivity.
Qed.

(** Property X25.  [prepareFilesystem] writes to no filesystem that exists
    when it starts, however it ends; and when it composes an overlay, the
    filesystem it returns, the one the builder is handed, keeps it so:
    whatever is written, created or removed through that filesystem, every
    filesystem that existed before, the engine's own included, holds what
    it held.  When nothing is composed no such protection exists: what is
    returned is the engine's filesystem itself. *)
Theorem prepareFilesystem_shields_existing_filesystems (e : Engine)
    (inputPath : string) (kust : Kustomization) (kustName : string)
    (values : gmap string string) (w : World) :
  (∀ c, allocated c w →
        cell_data c (prepareFilesystem e inputPath kust kustName values w).2
        = cell_data c w)
  ∧ (∀ fsys added w',
       prepareFilesystem e inputPath kust kustName values w
       = (Ok (fsys, added), w') →
       if composes e values then
         ∀ ops c, allocated c w →
                  cell_data c (run_ops fsys ops w') = cell_data c w
       else fsys = fs e ∧ w' = w).
Proof.
  assert (∀ c, allocated c w → c ∉ [CellMem (fresh (dom (heap w)))]) as Hnin.
  { intros c Hal ?%list_elem_of_singleton.
    eapply allocated_not_fresh; eassumption. }
  assert (∀ c, allocated c w →
            cell_data c (prepareFilesystem e inputPath kust kustName values w).2
            = cell_data c w) as Hprep.
  { intros c Hal. apply ww_prepareFilesystem, Hnin, Hal. }
  split; [exact Hprep|].
  intros fsys added w' Hp. destruct (composes e values) eqn:Hc.
  - intros ops c Hal.
    destruct (prepareFilesystem_compose _ _ _ _ _ _ _ _ _ Hc Hp)
      as (b & dir & _ & _ & -> & _).
    rewrite run_ops_frame by (apply Hnin, Hal).
    specialize (Hprep c Hal). rewrite Hp in Hprep. exact Hprep.
  - rewrite (prepareFilesystem_skip _ _ _ _ _ _ Hc) in Hp.
    injection Hp as <- _ <-. done.
Qed.

(** Property X26.  How [Run] reports the failures of the loader, of the
    pipe, of the builder and of a plugin.  A descriptor that cannot be read
    gives "unable to read kustomization from path", and nothing has
    changed.  When the pipe cannot be created the builder is not called and
    the error is "failed to run kustomize for path" around "failed to create
    pipe".  A failed build gives "failed to run kustomize for path" around
    "kustomizer run failed" around the builder's error.  A failed plugin
    gives the plugin error.  Every wrapper keeps the cause where
    [errors.Is] finds it. *)
Theorem Run_error_wrapping (e : Engine) (input : Source)
    (values : gmap string string) (w : World) :
  let path := Source_Path input in
  (∀ cause, readKustomization (fs e) path w = Err cause →
     Run e input values w
     = (Err (Errorf "unable to read kustomization from path %q: %w" [path]
                    cause), w))
  ∧ (∀ kust name w1 fsys added w2,
       readKustomization (fs e) path w = Ok (kust, name) →
       handleWarnings e kust w = (Ok tt, w1) →
       prepareFilesystem e path kust name values w1 = (Ok (fsys, added), w2) →
       (∀ cause w3, os.Pipe w2 = (Err cause, w3) →
          Run e input values w
          = (Err (Errorf "failed to run kustomize for path %q: %w" [path]
                    (Errorf "failed to create pipe: %w" [] cause)), w2))
       ∧ (∀ r wr w3 cause,
            os.Pipe w2 = (Ok (r, wr), w3) →
            krusty_build (effective_restrictions e input) fsys path
              (set_Stderr wr w3) = Err cause →
            Run e input values w
            = (Err (Errorf "failed to run kustomize for path %q: %w" [path]
                      (Errorf "kustomizer run failed: %w" [] cause)),
               after_build (builder_call e input fsys) r wr w2))
       ∧ (∀ r wr w3 rm cause,
            os.Pipe w2 = (Ok (r, wr), w3) →
            krusty_build (effective_restrictions e input) fsys path
              (set_Stderr wr w3) = Ok rm →
            apply_plugins (Plugins (opts e)) path rm = Err cause →
            Run e input values w
            = (Err cause, after_build (builder_call e input fsys) r wr w2)))
  ∧ (∀ format args cause target,
       errors_Is cause target = true →
       errors_Is (Errorf format args cause) target = true).
Proof.
  intros path. split; [|split].
  - intros cause Hread. apply Run_read_error, Hread.
  - intros kust name w1 fsys added w2 Hread Hw Hp.
    rewrite (Run_steps _ _ _ _ _ _ Hread), (bind_Ok_l _ _ _ _ _ Hw).
    unfold build_and_convert, mbind, M_bind.
    rewrite (bind_Ok_l _ _ _ _ _ Hp).
    split; [|split].
    + intros cause w3 HP. apply bind_Err_l.
      unfold wrap, utilio.SuppressStderr. rewrite HP.
      apply Pipe_fails in HP as [-> _]. reflexivity.
    + intros r wr w3 cause HP Hk. apply bind_Err_l. unfold wrap at 1.
      rewrite (SuppressStderr_build _ _ _ _ _ _ _ HP).
      fold path. rewrite Hk. reflexivity.
    + intros r wr w3 rm cause HP Hk Hpl.
      assert (wrap (Errorf "failed to run kustomize for path %q: %w"
                           [Source_Path input])
                (utilio.SuppressStderr
                   (wrap (Errorf "kustomizer run failed: %w" [])
                      (kustomizer_Run (effective_restrictions e input) fsys
                         (Source_Path input)))) w2
              = (Ok rm, after_build (builder_call e input fsys) r wr w2)) as Hb.
      { unfold wrap at 1. rewrite (SuppressStderr_build _ _ _ _ _ _ _ HP).
        fold path. rewrite Hk. reflexivity. }
      rewrite (bind_Ok_l _ _ _ _ _ Hb). apply bind_Err_l.
      unfold lift. fold path. rewrite Hpl. reflexivity.
  - intros format args cause target. apply errors_Is_Errorf.
Qed.

End more_engine_facts.

(** ** The further properties at concrete inputs *)

(** X2 at the sample filesystem: the descriptor reads the same through the
    read-only view. *)
Lemma NewReadOnlyFs_reads_through_witness :
  (∀ id, sample.memFs = Foreign id
         → fUnwrap (foreign (Env := sample.env) id) = None)
  ∧ utilfs.ReadFile (env := sample.env)
      (utilfs.NewReadOnlyFs (env := sample.env) sample.memFs)
      "/app/kustomization.yaml" sample.worldPlain
    = utilfs.ReadFile (env := sample.env) sample.memFs
        "/app/kustomization.yaml" sample.worldPlain.
Proof.
  split; [intros id; discriminate|].
  apply (NewReadOnlyFs_reads_through (env := sample.env) sample.memFs
           "/app/kustomization.yaml" sample.worldPlain).
  intros id. discriminate.
Defined.

(** X3 at the overlay root and at its descriptor file.  For the file the
    directory returned is a directory all the same: it is the resolved path
    that tells. *)
Lemma CleanedAbs_file_component_witness :
  (adapter.CleanedAbs (env := sample.env) (MemMapFs 0) "/app"
     sample.worldPlain = Ok ("/app", "")
   ∧ adapter.IsDir (MemMapFs 0) "/app" sample.worldPlain = true)
  ∧ (adapter.CleanedAbs (env := sample.env) (MemMapFs 0)
       "/app/kustomization.yaml" sample.worldPlain
     = Ok ("/app", "kustomization.yaml")
     ∧ adapter.IsDir (MemMapFs 0) "/app" sample.worldPlain = true
     ∧ ∃ resolved,
         "/app" = filepath_Dir resolved
         ∧ "kustomization.yaml" = filepath_Base resolved
         ∧ adapter.Exists (MemMapFs 0) resolved sample.worldPlain = true
         ∧ adapter.IsDir (MemMapFs 0) resolved sample.worldPlain ≠ true).
Proof.
  split.
  - split; [vm_compute; reflexivity|].
    destruct (CleanedAbs_file_component (env := sample.env) (MemMapFs 0)
                "/app" "/app" "" sample.worldPlain
                ltac:(vm_compute; reflexivity))
      as (absPath & resolved & _ & _ & _ & Hiff & Hdir & _).
    rewrite (Hdir eq_refl). apply Hiff. reflexivity.
  - split; [vm_compute; reflexivity|]. split; [vm_compute; reflexivity|].
    destruct (CleanedAbs_file_component (env := sample.env) (MemMapFs 0)
                "/app/kustomization.yaml" "/app" "kustomization.yaml"
                sample.worldPlain ltac:(vm_compute; reflexivity))
      as (absPath & resolved & _ & _ & Hex & Hiff & _ & Hfile).
    exists resolved.
    destruct Hfile as [Hd Hb]; [discriminate|].
    split; [exact Hd|]. split; [exact Hb|]. split; [exact Hex|].
    intros Hdir. apply Hiff in Hdir. discriminate.
Defined.

(** X4 at the patched union: the answer is the same where every
    resolution of links would fail. *)
Lemma composed_filesystems_skip_link_resolution_witness :
  union.NewFs (env := sample.env) sample.memFs sample.patch sample.worldPlain
  = (Ok sample.composedFs, sample.composedWorld)
  ∧ utilfs.CleanedAbs (env := sample.env) sample.composedFs "/app"
      sample.composedWorld
    = utilfs.CleanedAbs (env := cases.envBrokenLinks) sample.composedFs "/app"
        sample.composedWorld.
Proof.
  assert (union.NewFs (env := sample.env) sample.memFs sample.patch
            sample.worldPlain
          = (Ok sample.composedFs, sample.composedWorld)) as HNew
    by (vm_compute; reflexivity).
  split; [exact HNew|].
  apply (composed_filesystems_skip_link_resolution sample.env
           cases.envBrokenLinks sample.memFs sample.patch sample.composedFs
           sample.worldPlain sample.composedWorld sample.composedWorld "/app").
  - intros p. reflexivity.
  - left. exact HNew.
Defined.

(** X6 after the sample patch: a second override of the same path wins. *)
Lemma union_options_compose_witness :
  union.apply_options sample.patch (union.mkConfig ∅ None)
  = Ok (union.mkConfig
          (<["/app/kustomization.yaml" := sample.bytes "patched"]> ∅) None)
  ∧ ∃ cfg,
      union.apply_options
        (sample.patch
         ++ [union.WithOverride "/app/kustomization.yaml"
               (sample.bytes "again")])
        (union.mkConfig ∅ None) = Ok cfg
      ∧ union.overrides cfg !! "/app/kustomization.yaml"
        = Some (sample.bytes "again").
Proof.
  split; [reflexivity|].
  destruct (proj1 (union_options_compose sample.patch (union.mkConfig ∅ None)
                     _ eq_refl)
              "/app/kustomization.yaml" (sample.bytes "again"))
    as (cfg & Hcfg & _ & Hlook).
  exists cfg. split; [exact Hcfg|].
  rewrite Hlook. reflexivity.
Defined.

(** X7 with an override and the sample filesystem as overlay: the
    override is dropped, the descriptor still reads as the base has it. *)
Lemma NewFs_overlay_option_wins_witness :
  union.apply_options cases.overrideAndOverlay (union.mkConfig ∅ None)
  = Ok (union.mkConfig
          (<["/app/kustomization.yaml" := sample.bytes "patched"]> ∅)
          (Some sample.memFs))
  ∧ union.NewFs (env := sample.env) sample.memFs cases.overrideAndOverlay
      sample.worldPlain
    = union.NewFs (env := sample.env) sample.memFs
        [union.WithOverlayFs sample.memFs] sample.worldPlain
  ∧ utilfs.ReadFile (env := sample.env) sample.sharedFs
      "/app/kustomization.yaml"
      (union.NewFs (env := sample.env) sample.memFs cases.overrideAndOverlay
         sample.worldPlain).2
    = Ok (sample.encode sample.plainDescriptor).
Proof.
  split; [reflexivity|].
  destruct (NewFs_overlay_option_wins (env := sample.env) sample.memFs
              cases.overrideAndOverlay _ sample.memFs sample.worldPlain
              eq_refl eq_refl) as [Heq Hw].
  split; [exact Heq|]. rewrite Hw. vm_compute. reflexivity.
Defined.

(** X8 on a read-only wrapper as base: with a supplied overlay nothing has
    changed; with an override and no overlay the error is the same, and the
    overlay that was made for the override exists and holds it. *)
Lemma NewFs_rejects_unwrappable_witness :
  utilfs.Unwrap (env := sample.env) (readOnlyWrapper sample.memFs) = None
  ∧ union.NewFs (env := sample.env) (readOnlyWrapper sample.memFs)
      [union.WithOverlayFs sample.memFs] sample.worldPlain
    = (Err (ErrorString
              "base filesystem must be created with fs package functions"),
       sample.worldPlain)
  ∧ (union.NewFs (env := sample.env) (readOnlyWrapper sample.memFs)
       sample.patch sample.worldPlain).1
    = Err (ErrorString
             "base filesystem must be created with fs package functions")
  ∧ allocated (CellMem 1)
      (union.NewFs (env := sample.env) (readOnlyWrapper sample.memFs)
         sample.patch sample.worldPlain).2
  ∧ utilfs.ReadFile (env := sample.env) (Adapter (MemMapFs 1))
      "/app/kustomization.yaml"
      (union.NewFs (env := sample.env) (readOnlyWrapper sample.memFs)
         sample.patch sample.worldPlain).2
    = Ok (sample.bytes "patched").
Proof.
  split; [reflexivity|]. split; [|split; [|split]].
  - apply (proj1 (proj2 (NewFs_rejects_unwrappable (env := sample.env)
                           (readOnlyWrapper sample.memFs)
                           [union.WithOverlayFs sample.memFs]
                           sample.worldPlain eq_refl))
             (union.mkConfig ∅ (Some sample.memFs)) sample.memFs);
      reflexivity.
  - vm_compute. reflexivity.
  - destruct (proj2 (proj2 (NewFs_rejects_unwrappable (env := sample.env)
                              (readOnlyWrapper sample.memFs) sample.patch
                              sample.worldPlain eq_refl))
                (union.mkConfig
                   (<["/app/kustomization.yaml" := sample.bytes "patched"]> ∅)
                   None)
                eq_refl eq_refl)
      as (r & w1 & _ & -> & _ & Hal & _).
    replace (fresh (dom (heap sample.worldPlain))) with 1%nat in Hal
      by (vm_compute; reflexivity).
    exact Hal.
  - vm_compute. reflexivity.
Defined.

(** X9 with two overrides of which one is a directory of the other: the
    write of the outer one fails, and the error names it. *)
Lemma NewFs_errors_witness :
  (union.NewFs (env := sample.env) sample.memFs cases.clashingOverrides
     sample.worldPlain).1
  = Err (Errorf "failed to write override %s: %w" ["/a"]
           (PathError "open" "/a" (Errno EISDIR)))
  ∧ (union.apply_options cases.clashingOverrides (union.mkConfig ∅ None)
     = Err (Errorf "failed to write override %s: %w" ["/a"]
              (PathError "open" "/a" (Errno EISDIR)))
     ∨ ∃ cfg,
         union.apply_options cases.clashingOverrides (union.mkConfig ∅ None)
         = Ok cfg
         ∧ ((∃ path content cause,
               union.overlay cfg = None
               ∧ union.overrides cfg !! path = Some content
               ∧ Errorf "failed to write override %s: %w" ["/a"]
                   (PathError "open" "/a" (Errno EISDIR))
                 = Errorf "failed to write override %s: %w" [path] cause)
            ∨ (utilfs.Unwrap (env := sample.env) sample.memFs = None
               ∧ Errorf "failed to write override %s: %w" ["/a"]
                   (PathError "open" "/a" (Errno EISDIR))
                 = ErrorString
                     "base filesystem must be created with fs package functions")
            ∨ (∃ ov, union.overlay cfg = Some ov
                     ∧ utilfs.Unwrap (env := sample.env) ov = None
                     ∧ Errorf "failed to write override %s: %w" ["/a"]
                         (PathError "open" "/a" (Errno EISDIR))
                       = ErrorString
                           "overlay filesystem must be created with fs package functions"))).
Proof.
  split; [vm_compute; reflexivity|].
  apply (NewFs_errors (env := sample.env) sample.memFs cases.clashingOverrides
           sample.worldPlain
           (union.NewFs (env := sample.env) sample.memFs
              cases.clashingOverrides sample.worldPlain).2).
  vm_compute. reflexivity.
Defined.

(** X10 at the sample tree under a union without overrides. *)
Lemma NewFs_without_overrides_reads_as_base_witness :
  union.NewFs (env := sample.env) sample.memFs [] sample.worldPlain
  = (Ok sample.composedFs, cases.plainUnionWorld)
  ∧ utilfs.ReadFile (env := sample.env) sample.composedFs
      "/app/kustomization.yaml" cases.plainUnionWorld
    = afero.ReadFile (MemMapFs 0) "/app/kustomization.yaml" sample.worldPlain.
Proof.
  assert (union.NewFs (env := sample.env) sample.memFs [] sample.worldPlain
          = (Ok sample.composedFs, cases.plainUnionWorld)) as HNew
    by (vm_compute; reflexivity).
  split; [exact HNew|].
  apply (NewFs_without_overrides_reads_as_base (env := sample.env)
           sample.memFs [] (union.mkConfig ∅ None) (MemMapFs 0)
           sample.composedFs sample.worldPlain cases.plainUnionWorld).
  - reflexivity.
  - apply Forall_singleton. vm_compute. reflexivity.
  - reflexivity.
  - reflexivity.
  - reflexivity.
  - exact HNew.
Defined.

(** X11 at the patched union: a new file is written and read back. *)
Lemma union_write_then_read_witness :
  union.NewFs (env := sample.env) sample.memFs sample.patch sample.worldPlain
  = (Ok sample.composedFs, sample.composedWorld)
  ∧ utilfs.WriteFile (env := sample.env) sample.composedFs "/app/new.yaml"
      (sample.bytes "new") sample.composedWorld
    = (Ok tt, cases.writtenWorld)
  ∧ utilfs.ReadFile (env := sample.env) sample.composedFs "/app/new.yaml"
      cases.writtenWorld
    = Ok (sample.bytes "new").
Proof.
  assert (union.NewFs (env := sample.env) sample.memFs sample.patch
            sample.worldPlain
          = (Ok sample.composedFs, sample.composedWorld)) as HNew
    by (vm_compute; reflexivity).
  assert (utilfs.WriteFile (env := sample.env) sample.composedFs
            "/app/new.yaml" (sample.bytes "new") sample.composedWorld
          = (Ok tt, cases.writtenWorld)) as HWrite
    by (vm_compute; reflexivity).
  split; [exact HNew|]. split; [exact HWrite|].
  apply (union_write_then_read (env := sample.env) sample.memFs sample.patch
           _ sample.composedFs sample.worldPlain sample.composedWorld
           eq_refl eq_refl HNew "/app/new.yaml" (sample.bytes "new")
           sample.composedWorld cases.writtenWorld HWrite).
Defined.

(** X12 around a function that prints to standard error. *)
Lemma SuppressStderr_closes_the_pipe_witness :
  os.Pipe sample.world0 = (Ok (3, 4)%nat, (os.Pipe sample.world0).2)
  ∧ closed_flags (cases.noise (set_Stderr 4 (os.Pipe sample.world0).2)).2
    = closed_flags (os.Pipe sample.world0).2
  ∧ os.open_files (utilio.SuppressStderr cases.noise sample.world0).2
    = os.open_files sample.world0.
Proof.
  assert (os.Pipe sample.world0 = (Ok (3, 4)%nat, (os.Pipe sample.world0).2))
    as HP by (vm_compute; reflexivity).
  assert (closed_flags (cases.noise (set_Stderr 4 (os.Pipe sample.world0).2)).2
          = closed_flags (os.Pipe sample.world0).2) as Hfn
    by (vm_compute; reflexivity).
  split; [exact HP|]. split; [exact Hfn|].
  apply (SuppressStderr_closes_the_pipe cases.noise sample.world0 _ 3 4 HP Hfn).
Defined.

(** X13: a warning logged to standard error inside [SuppressStderr] ends
    up in the pipe. *)
Lemma SuppressStderr_discards_output_witness :
  os.Pipe sample.world0 = (Ok (3, 4)%nat, (os.Pipe sample.world0).2)
  ∧ files sample.world0 !! Stderr sample.world0 = Some (mkOsFile false [])
  ∧ files (utilio.SuppressStderr (λ w, WarningLog (Stderr w) ["noise"] w)
             sample.world0).2 !! Stderr sample.world0
    = Some (mkOsFile false [])
  ∧ files (utilio.SuppressStderr (λ w, WarningLog (Stderr w) ["noise"] w)
             sample.world0).2 !! 4%nat
    = Some (mkOsFile true (log_lines ["noise"])).
Proof.
  assert (os.Pipe sample.world0 = (Ok (3, 4)%nat, (os.Pipe sample.world0).2))
    as HP by (vm_compute; reflexivity).
  assert (files sample.world0 !! Stderr sample.world0
          = Some (mkOsFile false [])) as Hold by reflexivity.
  split; [exact HP|]. split; [exact Hold|].
  destruct (SuppressStderr_discards_output ["noise"] sample.world0 _ 3 4 _
              HP Hold) as (_ & _ & H1 & H2).
  split; [exact H1|exact H2].
Defined.

(** X15 at the sample overlay root with a deprecated field. *)
Lemma Run_builtin_warning_policies_witness :
  (∃ err,
     Run (env := sample.env) (kenv := sample.kenvDeprecated)
       sample.engineFail sample.appSource ∅ sample.worldDeprecated
     = (Err err, sample.worldDeprecated)
     ∧ errors_Is err ErrKustomizeWarnings = true)
  ∧ handleWarnings cases.engineIgnore sample.deprecatedDescriptor
      sample.worldDeprecated
    = (Ok tt, sample.worldDeprecated).
Proof.
  split.
  - destruct (proj1 (Run_builtin_warning_policies (env := sample.env)
                       (kenv := sample.kenvDeprecated)
                       sample.engineFail sample.appSource ∅
                       sample.worldDeprecated sample.deprecatedDescriptor
                       "kustomization.yaml" ["commonLabels is deprecated"]
                       ltac:(vm_compute; reflexivity) eq_refl
                       ltac:(discriminate)) eq_refl)
      as (err & HRun & HIs & _).
    exists err. split; assumption.
  - apply (proj2 (Run_builtin_warning_policies (env := sample.env)
                    (kenv := sample.kenvDeprecated)
                    cases.engineIgnore sample.appSource ∅
                    sample.worldDeprecated sample.deprecatedDescriptor
                    "kustomization.yaml" ["commonLabels is deprecated"]
                    ltac:(vm_compute; reflexivity) eq_refl
                    ltac:(discriminate)) eq_refl).
Defined.

(** X16 at the descriptor file of the sample tree. *)
Lemma prepareFilesystem_errors_witness :
  prepareFilesystem (env := sample.env) (kenv := sample.kenvPlain)
    (sample.engine true) "/app/kustomization.yaml" sample.plainDescriptor
    "kustomization.yaml" ∅ sample.worldPlain
  = (Err (Errorf "path %q: %w" ["/app/kustomization.yaml"]
            ErrPathMustBeDirectory), sample.worldPlain)
  ∧ composes (sample.engine true) ∅ = true.
Proof.
  assert (prepareFilesystem (env := sample.env) (kenv := sample.kenvPlain)
            (sample.engine true) "/app/kustomization.yaml"
            sample.plainDescriptor "kustomization.yaml" ∅ sample.worldPlain
          = (Err (Errorf "path %q: %w" ["/app/kustomization.yaml"]
                    ErrPathMustBeDirectory), sample.worldPlain)) as Hp
    by (vm_compute; reflexivity).
  split; [exact Hp|].
  apply (proj1 (prepareFilesystem_errors (env := sample.env)
                  (kenv := sample.kenvPlain) _ _ _ _ _ _ _ _ Hp)).
Defined.

(** X17 at the sample overlay root, with source annotations and one
    value: the builder finds the values file and the rewritten
    descriptor. *)
Lemma prepareFilesystem_injected_files_witness :
  composes (sample.engine true) cases.someValues = true
  ∧ prepareFilesystem (env := sample.env) (kenv := sample.kenvPlain)
      (sample.engine true) "/app" sample.plainDescriptor
      "kustomization.yaml" cases.someValues sample.worldPlain
    = (Ok (sample.composedFs, true), cases.valuesWorld)
  ∧ ∃ dir,
      utilfs.CleanedAbs (env := sample.env) sample.memFs "/app"
        sample.worldPlain = Ok (dir, "")
      ∧ (∃ valuesContent,
           createValuesConfigMapYAML (Kust := sample.kenvPlain)
             cases.someValues = Ok valuesContent
           ∧ utilfs.ReadFile (env := sample.env) sample.composedFs
               (filepath_Join dir "values.yaml") cases.valuesWorld
             = Ok valuesContent)
      ∧ (∃ data,
           goyaml_Marshal (Kust := sample.kenvPlain)
             (with_origin sample.plainDescriptor) = Ok data
           ∧ utilfs.ReadFile (env := sample.env) sample.composedFs
               (filepath_Join dir "kustomization.yaml") cases.valuesWorld
             = Ok data).
Proof.
  assert (prepareFilesystem (env := sample.env) (kenv := sample.kenvPlain)
            (sample.engine true) "/app" sample.plainDescriptor
            "kustomization.yaml" cases.someValues sample.worldPlain
          = (Ok (sample.composedFs, true), cases.valuesWorld)) as Hp
    by (vm_compute; reflexivity).
  split; [reflexivity|]. split; [exact Hp|].
  destruct (prepareFilesystem_injected_files (env := sample.env)
              (kenv := sample.kenvPlain) (sample.engine true) "/app"
              sample.plainDescriptor "kustomization.yaml" cases.someValues
              sample.worldPlain cases.valuesWorld sample.composedFs true
              eq_refl Hp)
    as (dir & Hdir & Hvalues & Hdesc).
  exists dir. split; [exact Hdir|]. split.
  - apply Hvalues. vm_compute. discriminate.
  - apply Hdesc; [reflexivity|]. left. discriminate.
Defined.

(** X19 on a good resource followed by one whose [Map] fails. *)
Lemma convertResources_first_error_witness :
  convertResources (kenv := sample.kenvPlain) (sample.engine true)
    [cases.goodResource; cases.badResource] "/app"
  = Err (Errorf "failed to convert resource %s to map: %w" ["Secret/broken"]
           (ErrorString "not a mapping"))
  ∧ ∃ pre res post,
      [cases.goodResource; cases.badResource] = (pre ++ res :: post)%list
      ∧ Forall (convertible (kenv := sample.kenvPlain)) pre
      ∧ ((∃ cause,
            res_Map res = Err cause
            ∧ Errorf "failed to convert resource %s to map: %w"
                ["Secret/broken"] (ErrorString "not a mapping")
              = Errorf "failed to convert resource %s to map: %w"
                  [res_CurId res] cause)
         ∨ (∃ m cause,
              res_Map res = Ok m
              ∧ FromUnstructured (Kust := sample.kenvPlain) m = Err cause
              ∧ Errorf "failed to convert resource %s to map: %w"
                  ["Secret/broken"] (ErrorString "not a mapping")
                = Errorf
                    "failed to convert map to unstructured for resource %s: %w"
                    [res_CurId res] cause)).
Proof.
  split; [reflexivity|].
  apply (convertResources_first_error (kenv := sample.kenvPlain)
           (sample.engine true) [cases.goodResource; cases.badResource]
           "/app" _ eq_refl).
Defined.

(** X22 at the sample overlay root with source annotations enabled. *)
Lemma Run_source_annotations_witness :
  Run (env := sample.env) (kenv := sample.kenvPlain)
    (sample.engine true) sample.appSource ∅ sample.worldPlain
  = (Ok (sample.rendered true sample.plainDescriptor),
     sample.renderedWorld true sample.plainDescriptor)
  ∧ ∃ fsys wb built resMap,
      krusty_build (Kust := sample.kenvPlain)
        (effective_restrictions (sample.engine true) sample.appSource)
        fsys "/app" wb = Ok built
      ∧ apply_plugins (Plugins (opts (sample.engine true))) "/app" built
        = Ok resMap
      ∧ length resMap
        = length (sample.rendered true sample.plainDescriptor)
      ∧ ∀ doc, doc ∈ sample.rendered true sample.plainDescriptor →
          ∃ a, GetAnnotations doc = Some a
               ∧ a !! AnnotationSourceType = Some rendererType
               ∧ a !! AnnotationSourcePath = Some "/app".
Proof.
  assert (Run (env := sample.env) (kenv := sample.kenvPlain)
            (sample.engine true) sample.appSource ∅ sample.worldPlain
          = (Ok (sample.rendered true sample.plainDescriptor),
             sample.renderedWorld true sample.plainDescriptor)) as HRun
    by (vm_compute; reflexivity).
  split; [exact HRun|].
  destruct (Run_source_annotations (env := sample.env)
              (kenv := sample.kenvPlain) (sample.engine true) sample.appSource
              ∅ sample.worldPlain _ sample.plainDescriptor
              "kustomization.yaml" _ ltac:(vm_compute; reflexivity) HRun)
    as (w1 & fsys & w2 & r & wr & wp & built & rm & _ & _ & _ & Hk & Hpl
        & Hall).
  exists fsys, (set_Stderr wr wp), built, rm.
  split; [exact Hk|]. split; [exact Hpl|].
  split; [exact (Forall2_length _ _ _ Hall)|].
  intros doc Hdoc.
  apply list_elem_of_lookup_1 in Hdoc as [i Hi].
  destruct (Forall2_lookup_r _ _ _ _ _ Hall Hi)
    as (res & _ & m & obj & _ & _ & _ & Hann).
  destruct Hann as (a & Ha & H1 & H2 & _).
  exists a. auto.
Defined.

(** X23 at the sample overlay root: one call, with the composed
    filesystem and the renderer's restrictions. *)
Lemma Run_calls_builder_at_most_once_witness :
  handleWarnings (sample.engine true) sample.plainDescriptor sample.worldPlain
  = (Ok tt, sample.worldPlain)
  ∧ ∃ fsys,
      builds (Run (env := sample.env) (kenv := sample.kenvPlain)
                (sample.engine true) sample.appSource ∅ sample.worldPlain).2
      = (builds sample.worldPlain
         ++ [builder_call (sample.engine true) sample.appSource fsys])%list
      ∧ (fsys = fs (sample.engine true)
         ↔ composes (sample.engine true) ∅ = false).
Proof.
  split; [reflexivity|].
  apply (proj1 (proj2 (Run_calls_builder_at_most_once (env := sample.env)
                         (kenv := sample.kenvPlain) (sample.engine true)
                         sample.appSource ∅ sample.worldPlain
                         sample.worldPlain sample.plainDescriptor
                         "kustomization.yaml"
                         ltac:(vm_compute; reflexivity) eq_refl))
           (sample.rendered true sample.plainDescriptor)).
  vm_compute. reflexivity.
Defined.

(** X25 at the sample overlay root with source annotations enabled: the
    overlay is filesystem 1, and after the sample mutations through the
    filesystem returned the sample filesystem is as it was. *)
Lemma prepareFilesystem_shields_existing_filesystems_witness :
  prepareFilesystem (env := sample.env) (kenv := sample.kenvPlain)
    (sample.engine true) "/app" sample.plainDescriptor "kustomization.yaml"
    ∅ sample.worldPlain
  = (Ok (sample.composedFs, true),
     (prepareFilesystem (env := sample.env) (kenv := sample.kenvPlain)
        (sample.engine true) "/app" sample.plainDescriptor
        "kustomization.yaml" ∅ sample.worldPlain).2)
  ∧ allocated (CellMem 0) sample.worldPlain
  ∧ cell_data (CellMem 0)
      (run_ops (env := sample.env) sample.composedFs sample.someOps
         (prepareFilesystem (env := sample.env) (kenv := sample.kenvPlain)
            (sample.engine true) "/app" sample.plainDescriptor
            "kustomization.yaml" ∅ sample.worldPlain).2)
    = cell_data (CellMem 0) sample.worldPlain.
Proof.
  assert (prepareFilesystem (env := sample.env) (kenv := sample.kenvPlain)
            (sample.engine true) "/app" sample.plainDescriptor
            "kustomization.yaml" ∅ sample.worldPlain
          = (Ok (sample.composedFs, true),
             (prepareFilesystem (env := sample.env) (kenv := sample.kenvPlain)
                (sample.engine true) "/app" sample.plainDescriptor
                "kustomization.yaml" ∅ sample.worldPlain).2)) as Hp
    by (vm_compute; reflexivity).
  assert (allocated (CellMem 0) sample.worldPlain) as Hal
    by (vm_compute; reflexivity).
  split; [exact Hp|]. split; [exact Hal|].
  exact (proj2 (prepareFilesystem_shields_existing_filesystems
                  (env := sample.env) (kenv := sample.kenvPlain)
                  (sample.engine true) "/app" sample.plainDescriptor
                  "kustomization.yaml" ∅ sample.worldPlain)
           sample.composedFs true _ Hp sample.someOps (CellMem 0) Hal).
Defined.

(** X26 with room for two open files only: the pipe cannot be created and
    the builder is not called. *)
Lemma Run_error_wrapping_witness :
  Run (env := sample.env) (kenv := sample.kenvPlain) (sample.engine false)
    sample.appSource ∅ cases.worldFewDescriptors
  = (Err (Errorf "failed to run kustomize for path %q: %w" ["/app"]
            (Errorf "failed to create pipe: %w" []
               (SyscallError "pipe2" (Errno EMFILE)))),
     cases.worldFewDescriptors)
  ∧ builds cases.worldFewDescriptors = [].
Proof.
  split; [|reflexivity].
  apply (proj1 (proj1 (proj2 (Run_error_wrapping (env := sample.env)
                                (kenv := sample.kenvPlain)
                                (sample.engine false) sample.appSource ∅
                                cases.worldFewDescriptors))
                  sample.plainDescriptor "kustomization.yaml"
                  cases.worldFewDescriptors sample.memFs false
                  cases.worldFewDescriptors
                  ltac:(vm_compute; reflexivity) eq_refl eq_refl)
           (SyscallError "pipe2" (Errno EMFILE)) cases.worldFewDescriptors).
  vm_compute. reflexivity.
Defined.
